(** * nnconv3d_blas: the BLAS-based volumetric convolution block

    A shallow embedding of [matlab/src/bits/impl/nnconv3d_blas.hpp]:
    [nnconv3d_forward_blas] and [nnconv3d_backward_blas].

    Conventions of the embedding.
    - Tensor elements ([float] or [double], chosen by [dataType]) are
      idealised as the elements of a commutative ring [K]: rounding is not
      modelled, so every statement about values is a statement in exact
      arithmetic.
    - [ptrdiff_t] and [int] quantities are unbounded integers [Z]; the C++
      division is [Z.quot], and a zero divisor is an explicit exit of the
      model ([ExDivZero]).
    - Every tensor argument has a backing buffer of its own ([Buf]); a
      pointer is a buffer together with an element offset.
    - The collaborators the file includes but does not define
      ([Context], [vol2row]/[row2vol], [blas::gemm]/[blas::gemv], the
      accessors of [Tensor]) are modelled from the specification or kept
      as parameters; each such definition says so. *)

From Stdlib Require Import ZArith List Lia Bool Ring.
Import ListNotations.
Open Scope Z_scope.

(** ** Element type *)

(** [vl::Type] restricted to the two element types the block is
    instantiated at. *)
Inductive vlType := vlTypeFloat | vlTypeDouble.

(** [sizeof(type)] for [type = DataTypeTraits<dataType>::type]. *)
Definition sizeof (dataType : vlType) : Z :=
  match dataType with vlTypeFloat => 4 | vlTypeDouble => 8 end.

(** The scalars the tensors hold: a commutative ring. *)
Record Scalar := mkScalar {
  carrier :> Type;
  szero : carrier;
  sone : carrier;
  sadd : carrier -> carrier -> carrier;
  smul : carrier -> carrier -> carrier;
  ssub : carrier -> carrier -> carrier;
  sopp : carrier -> carrier;
  scalar_ring : ring_theory szero sone sadd smul ssub sopp (@eq carrier)
}.

Arguments szero {_}.
Arguments sone {_}.
Arguments sadd {_} _ _.
Arguments smul {_} _ _.
Arguments ssub {_} _ _.
Arguments sopp {_} _.

Declare Scope scalar_scope.
Delimit Scope scalar_scope with K.
Infix "+" := sadd : scalar_scope.
Infix "*" := smul : scalar_scope.

(** The integers as scalars: the instance the concrete runs use. *)
Definition ZScalar : Scalar :=
  mkScalar Z 0 1 Z.add Z.mul Z.sub Z.opp InitialRing.Zth.

(** ** Status codes *)

(** Modelled from the spec: [vl::Error] is declared outside this file; the
    source names [vl::vlSuccess], the other kinds are those of the
    specification's error handling design. *)
Inductive Error := vlSuccess | ShapeMismatch | OutOfMemory | ComputeError.

Definition is_success (e : Error) : bool :=
  match e with vlSuccess => true | _ => false end.

(** ** Tensors *)

(** A tensor descriptor: whether it is non-null ([operator bool]) and its
    five dimensions (height, width, depth/time, channels, batch index). *)
Record Tensor := mkTensor {
  present : bool;
  dim0 : Z; dim1 : Z; dim2 : Z; dim3 : Z; dim4 : Z
}.

Definition getDimension (t : Tensor) (i : Z) : Z :=
  match i with
  | 0 => dim0 t | 1 => dim1 t | 2 => dim2 t | 3 => dim3 t | 4 => dim4 t
  | _ => 0
  end.

(** The null tensor. *)
Definition nullTensor : Tensor := mkTensor false 0 0 0 0 0.

(** ** Memory *)

(** One buffer per tensor argument, the workspace and the ones vector. *)
Inductive Buf :=
| BOutput | BData | BFilters | BBiases
| BDerData | BDerFilters | BDerBiases | BDerOutput
| BTemp | BAllOnes.

Definition Buf_eqb (a b : Buf) : bool :=
  match a, b with
  | BOutput, BOutput | BData, BData | BFilters, BFilters
  | BBiases, BBiases | BDerData, BDerData | BDerFilters, BDerFilters
  | BDerBiases, BDerBiases | BDerOutput, BDerOutput
  | BTemp, BTemp | BAllOnes, BAllOnes => true
  | _, _ => false
  end.

(** A pointer: [(type* )x.getMemory() + off]. *)
Record Ptr := mkPtr { pbuf : Buf; poff : Z }.

(** [p + off] *)
Definition padd (p : Ptr) (off : Z) : Ptr := mkPtr (pbuf p) (poff p + off).

(** The arguments [vol2row] and [row2vol] receive after the two pointers:
    the volume's extents, the filter's extents, strides and padding. *)
Record VolArgs := mkVolArgs {
  va_height : Z; va_width : Z; va_time : Z; va_depth : Z;
  va_windowHeight : Z; va_windowWidth : Z; va_windowTime : Z;
  va_strideY : Z; va_strideX : Z; va_strideT : Z;
  va_padTop : Z; va_padBottom : Z; va_padLeft : Z; va_padRight : Z;
  va_padT : Z
}.

(** What the file uses without defining: two accessors of [Tensor], and the
    geometry of the unfold/fold transform.  [patch_rows a] is the number of
    output positions the transform derives from its arguments;
    [patch_src a p q] is the position, inside the volume, that entry
    (row [p], column [q]) of the patch matrix is taken from, or [None] when
    the entry falls in the padding. *)
Record Externals := mkExternals {
  getDepth : Tensor -> Z;
  getNumElements : Tensor -> Z;
  patch_rows : VolArgs -> Z;
  patch_src : VolArgs -> Z -> Z -> option Z
}.

(** Number of columns of the patch matrix: one per filter weight and input
    channel. *)
Definition patch_cols (a : VolArgs) : Z :=
  va_windowHeight a * va_windowWidth a * va_windowTime a * va_depth a.

(** Number of elements of the volume. *)
Definition vol_size (a : VolArgs) : Z :=
  va_height a * va_width a * va_time a * va_depth a.

(** Strides and padding, as both functions receive them. *)
Record ConvParams := mkConvParams {
  strideY : Z; strideX : Z; strideT : Z;
  padTop : Z; padBottom : Z; padLeft : Z; padRight : Z; padT : Z
}.

(** ['n'] and ['t'] *)
Inductive Trans := NoTrans | Transposed.

(** Integer loop ranges: [range i n] is [i, i+1, ..., i+n-1]. *)
Fixpoint range (i : Z) (n : nat) : list Z :=
  match n with
  | O => []
  | S n' => i :: range (i + 1) n'
  end.

(** ** Example inputs *)

(** Externals for windows that extend along the height only (width, time
    and their windows of extent one, stride one, no padding): a volume of
    height [H] and a window of height [h] give [H - h + 1] output
    positions; column [q] of the patch matrix is weight [q mod h] of
    channel [q / h], taken at height [p + q mod h] for output position
    [p]. [getDepth] is the channel count and [getNumElements] the product
    of the dimensions. *)
Definition column_externals : Externals :=
  mkExternals
    (fun t => dim3 t)
    (fun t => dim0 t * dim1 t * dim2 t * dim3 t * dim4 t)
    (fun a => va_height a - va_windowHeight a + 1)
    (fun a p q =>
       Some (p + q mod va_windowHeight a
             + va_height a * (q / va_windowHeight a))).

(** Stride one, no padding. *)
Definition unit_stride : ConvParams := mkConvParams 1 1 1 0 0 0 0 0.

(** A context in which every call succeeds. *)
Definition always_succeeds : nat -> Error := fun _ => vlSuccess.

(** A context whose [k]-th call fails with [e]. *)
Definition fails_at (k : nat) (e : Error) : nat -> Error :=
  fun n => if Nat.eqb n k then e else vlSuccess.

(** A memory over the integers: data, filters and output gradient hold
    [1, 2, 3, ...]; the bias holds tens; the output holds fives; every
    gradient destination and the workspace hold [100]. *)
Definition example_store : Buf -> Z -> Z :=
  fun b a =>
    match b with
    | BData | BFilters | BDerOutput => a + 1
    | BBiases => 10
    | BOutput => 5
    | BAllOnes => 0
    | _ => 100
    end.

(** Two images of height three and one channel; a bank of one filter of
    height two; two images of two output positions; a bias of one entry. *)
Definition example_data : Tensor := mkTensor true 3 1 1 1 2.
Definition example_filters : Tensor := mkTensor true 2 1 1 1 1.
Definition example_output : Tensor := mkTensor true 2 1 1 1 2.
Definition example_biases : Tensor := mkTensor true 1 1 1 1 1.

(** Three input channels against filters of two input channels: the
    channel counts do not divide. *)
Definition inexact_data : Tensor := mkTensor true 1 1 1 3 1.
Definition inexact_filters : Tensor := mkTensor true 1 1 1 2 1.
Definition inexact_output : Tensor := mkTensor true 1 1 1 1 1.

(** A filter-gradient destination of height one where the filters have
    height two. *)
Definition disagreeing_derFilters : Tensor := mkTensor true 1 1 1 1 1.

(** One image of one output position and one channel. *)
Definition single_derOutput : Tensor := mkTensor true 1 1 1 1 1.

(** The example memory with the data zeroed, and with the second image of
    the data zeroed. *)
Definition example_store_without_data : Buf -> Z -> Z :=
  fun b a =>
    match b with
    | BData => 0
    | _ => example_store b a
    end.

Definition example_store_first_image : Buf -> Z -> Z :=
  fun b a =>
    match b with
    | BData => if a <? 3 then a + 1 else 0
    | _ => example_store b a
    end.

(** Externals for windows of extent one in every direction, stride one, no
    padding: one output position per position of the volume, and column
    [q] of the patch matrix is channel [q]. [getDepth] is the third
    dimension, the depth/time extent, and [getNumElements] the product of
    the dimensions. *)
Definition pointwise_externals : Externals :=
  mkExternals
    (fun t => dim2 t)
    (fun t => dim0 t * dim1 t * dim2 t * dim3 t * dim4 t)
    (fun a => (va_height a - va_windowHeight a + 1)
              * (va_width a - va_windowWidth a + 1)
              * (va_time a - va_windowTime a + 1))
    (fun a p q => Some (p + va_height a * va_width a * va_time a * q)).

(** One image of time extent two: one input channel, a bank of three
    filters of extent one, three output channels, a bias of three
    entries. *)
Definition slab_data : Tensor := mkTensor true 1 1 2 1 1.
Definition slab_filters : Tensor := mkTensor true 1 1 1 1 3.
Definition slab_output : Tensor := mkTensor true 1 1 2 3 1.
Definition slab_biases : Tensor := mkTensor true 1 1 1 3 1.

Section Model.

Variable K : Scalar.
Variable ext : Externals.

Add Ring Kring : (scalar_ring K).

(** [ssum n f] is [f 0 + f 1 + ... + f (n-1)]. *)
Fixpoint ssum (n : nat) (f : Z -> K) : K :=
  match n with
  | O => szero
  | S n' => (ssum n' f + f (Z.of_nat n'))%K
  end.

Definition Store := Buf -> Z -> K.

Definition load (st : Store) (p : Ptr) (i : Z) : K := st (pbuf p) (poff p + i).

(** A scale factor as it is passed to a primitive: the C++ type the local
    variable is declared with, and its value. *)
Record Scale := mkScale { sc_type : vlType; sc_val : K }.

(** The calls the block makes on its collaborators. *)
Inductive Call :=
| CGetWorkspace (bytes : Z)
| CGetAllOnes (ty : vlType) (n : Z)
| CVol2row (dst src : Ptr) (a : VolArgs)
| CRow2vol (dst src : Ptr) (a : VolArgs)
| CGemm (ta tb : Trans) (m n k : Z) (alpha : Scale)
        (A : Ptr) (lda : Z) (B : Ptr) (ldb : Z)
        (beta : Scale) (C : Ptr) (ldc : Z)
| CGemv (t : Trans) (m n : Z) (alpha : Scale)
        (A : Ptr) (lda : Z) (x : Ptr) (incx : Z)
        (beta : Scale) (y : Ptr) (incy : Z).

(** [unfold], [fold], [multiply] and [reduce], as opposed to the two
    acquisitions. *)
Definition is_primitive (c : Call) : bool :=
  match c with
  | CGetWorkspace _ | CGetAllOnes _ _ => false
  | _ => true
  end.

(** *** Semantics of the collaborators on the store *)

(** [in_matrix d ld r c]: element offset [d] is entry
    [(d mod ld, d / ld)] of a column-major matrix of [r] rows and [c]
    columns with leading dimension [ld]. *)
Definition in_matrix (d ld r c : Z) : bool :=
  (0 <=? d) && (d mod ld <? r) && (d / ld <? c).

(** Modelled from the spec: [multiplyAccumulate(transA, transB, m, n, k,
    alpha, A, lda, B, ldb, beta, C, ldc)], the dense matrix-matrix primitive
    with alpha on the product and beta on the destination's prior contents,
    on column-major operands: [C <- alpha * op(A) * op(B) + beta * C]. *)
Definition gemm_entry (st : Store) (ta tb : Trans) (k : Z)
    (A : Ptr) (lda : Z) (B : Ptr) (ldb : Z) (i j : Z) : K :=
  ssum (Z.to_nat k) (fun l =>
    (match ta with
     | NoTrans => load st A (i + l * lda)
     | Transposed => load st A (l + i * lda)
     end *
     match tb with
     | NoTrans => load st B (l + j * ldb)
     | Transposed => load st B (j + l * ldb)
     end)%K).

Definition exec_gemm (ta tb : Trans) (m n k : Z) (alpha : K)
    (A : Ptr) (lda : Z) (B : Ptr) (ldb : Z) (beta : K) (C : Ptr) (ldc : Z)
    (st : Store) : Store :=
  fun b a =>
    let d := (a - poff C)%Z in
    if Buf_eqb b (pbuf C) && in_matrix d ldc m n then
      (alpha * gemm_entry st ta tb k A lda B ldb (d mod ldc) (d / ldc)
       + beta * st b a)%K
    else st b a.

(** Modelled from the spec: [reduceAccumulate(trans, m, n, alpha, A, lda, x,
    incx, beta, y, incy)], the matrix-vector primitive:
    [y <- alpha * op(A) * x + beta * y] for an [m] by [n] column-major [A]. *)
Definition gemv_entry (st : Store) (t : Trans) (m n : Z)
    (A : Ptr) (lda : Z) (x : Ptr) (incx : Z) (i : Z) : K :=
  match t with
  | NoTrans =>
      ssum (Z.to_nat n) (fun l => (load st A (i + l * lda) * load st x (l * incx))%K)
  | Transposed =>
      ssum (Z.to_nat m) (fun l => (load st A (l + i * lda) * load st x (l * incx))%K)
  end.

Definition exec_gemv (t : Trans) (m n : Z) (alpha : K)
    (A : Ptr) (lda : Z) (x : Ptr) (incx : Z) (beta : K) (y : Ptr) (incy : Z)
    (st : Store) : Store :=
  let len := match t with NoTrans => m | Transposed => n end in
  fun b a =>
    let d := (a - poff y)%Z in
    if Buf_eqb b (pbuf y) && in_matrix d incy 1 len then
      (alpha * gemv_entry st t m n A lda x incx (d / incy) + beta * st b a)%K
    else st b a.

(** Modelled from the spec: [unfold(dst, src, spatialDims, filterDims,
    strides, padding)] expands the volume at [src] into the patch matrix at
    [dst], one row per output position; entries falling in the padding are
    zero. *)
Definition exec_vol2row (dst src : Ptr) (a : VolArgs) (st : Store) : Store :=
  fun b x =>
    let d := (x - poff dst)%Z in
    let rows := patch_rows ext a in
    if Buf_eqb b (pbuf dst) && in_matrix d rows rows (patch_cols a) then
      match patch_src ext a (d mod rows) (d / rows) with
      | Some j => load st src j
      | None => szero
      end
    else st b x.

(** Modelled from the spec: [fold(dst, src, spatialDims, filterDims,
    strides, padding)], the adjoint of unfold: every position of the volume
    at [dst] receives the sum of the patch-matrix entries taken from it, so
    overlapping patches sum. *)
Definition fold_entry (st : Store) (src : Ptr) (a : VolArgs) (j : Z) : K :=
  let rows := patch_rows ext a in
  ssum (Z.to_nat (patch_cols a)) (fun q =>
    ssum (Z.to_nat rows) (fun p =>
      match patch_src ext a p q with
      | Some j' => if (j' =? j)%Z then load st src (p + rows * q) else szero
      | None => szero
      end)).

Definition exec_row2vol (dst src : Ptr) (a : VolArgs) (st : Store) : Store :=
  fun b x =>
    let d := (x - poff dst)%Z in
    if Buf_eqb b (pbuf dst) && (0 <=? d) && (d <? vol_size a) then
      fold_entry st src a d
    else st b x.

(** Modelled from the spec: the ones vector the context lends has
    [length] ones. *)
Definition exec_allOnes (n : Z) (st : Store) : Store :=
  fun b x =>
    if Buf_eqb b BAllOnes && (0 <=? x) && (x <? n) then sone else st b x.

(** The effect of a successful call. *)
Definition exec_call (c : Call) (st : Store) : Store :=
  match c with
  | CGetWorkspace _ => st
  | CGetAllOnes _ n => exec_allOnes n st
  | CVol2row dst src a => exec_vol2row dst src a st
  | CRow2vol dst src a => exec_row2vol dst src a st
  | CGemm ta tb m n k alpha A lda B ldb beta C ldc =>
      exec_gemm ta tb m n k (sc_val alpha) A lda B ldb (sc_val beta) C ldc st
  | CGemv t m n alpha A lda x incx beta y incy =>
      exec_gemv t m n (sc_val alpha) A lda x incx (sc_val beta) y incy st
  end.

(** ** The execution monad *)

(** The context answers the [n]-th call the block makes on a collaborator
    with a status: [vlSuccess], or the error the call fails with. *)
Variable oracle : nat -> Error.

(** The state a call runs in: the memory, the context's last error, the
    local variable [error] ([None] while it is uninitialised) and the calls
    made so far, each with its status. *)
Record St := mkSt {
  st_store : Store;
  st_lastError : Error;
  st_error : option Error;
  st_trace : list (Call * Error)
}.

(** How control leaves the straight-line flow: [goto done], [return e], or
    an integer division by zero. *)
Inductive Exit := ExDone | ExReturn (e : Error) | ExDivZero.

Inductive Res (A : Type) := Val (a : A) | Halt (x : Exit).
Arguments Val {A} a.
Arguments Halt {A} x.

Definition M (A : Type) := St -> St * Res A.

Definition ret {A} (a : A) : M A := fun s => (s, Val a).

Definition bind {A B} (m : M A) (f : A -> M B) : M B :=
  fun s =>
    match m s with
    | (s', Val a) => f a s'
    | (s', Halt x) => (s', Halt x)
    end.

Notation "x <- m ;; f" := (bind m (fun x => f))
  (at level 61, m at next level, right associativity).
Notation "m ;;; f" := (bind m (fun _ => f))
  (at level 61, right associativity).

Definition halt {A} (x : Exit) : M A := fun s => (s, Halt x).

(** [goto done] *)
Definition goto_done {A} : M A := halt ExDone.

(** [return error] *)
Definition return_ {A} (e : Error) : M A := halt (ExReturn e).

(** [a / b] on [ptrdiff_t]. *)
Definition cdiv (a b : Z) : M Z :=
  if (b =? 0)%Z then halt ExDivZero else ret (Z.quot a b).

(** [error = e] *)
Definition set_error (e : Error) : M unit :=
  fun s => (mkSt (st_store s) (st_lastError s) (Some e) (st_trace s), Val tt).

(** [context.getLastError()] *)
Definition getLastError : M Error := fun s => (s, Val (st_lastError s)).

(** One call on a collaborator: the oracle gives its status, a successful
    call takes effect on the store, and the call is recorded. *)
Definition invoke (c : Call) : M Error :=
  fun s =>
    let e := oracle (length (st_trace s)) in
    (mkSt (if is_success e then exec_call c (st_store s) else st_store s)
          (st_lastError s) (st_error s) (st_trace s ++ [(c, e)]),
     Val e).

(** [error = primitive(...)] *)
Definition prim (c : Call) : M Error :=
  e <- invoke c ;; set_error e ;;; ret e.

(** Modelled from the spec: [acquireWorkspace] and [acquireOnesVector] give
    a buffer or fail; a failed acquisition returns [NULL] and leaves its
    error as the context's last error. *)
Definition acquire (c : Call) (p : Ptr) : M (option Ptr) :=
  e <- invoke c ;;
  if is_success e then ret (Some p)
  else fun s => (mkSt (st_store s) e (st_error s) (st_trace s), Val None).

(** [context.getWorkspace(deviceType, bytes)] *)
Definition getWorkspace (bytes : Z) : M (option Ptr) :=
  acquire (CGetWorkspace bytes) (mkPtr BTemp 0).

(** [context.getAllOnes(deviceType, dataType, n)] *)
Definition getAllOnes (dataType : vlType) (n : Z) : M (option Ptr) :=
  acquire (CGetAllOnes dataType n) (mkPtr BAllOnes 0).

(** [for (int i = start ; ... ; ++i) body], [n] iterations. *)
Fixpoint for_loop (n : nat) (i : Z) (body : Z -> M unit) : M unit :=
  match n with
  | O => ret tt
  | S n' => body i ;;; for_loop n' (i + 1) body
  end.

(** [for (int i = 0 ; i < bound ; ++i) body] *)
Definition for_ (bound : Z) (body : Z -> M unit) : M unit :=
  for_loop (Z.to_nat bound) 0 body.

(** What the caller gets. [Returned None] is the return of a status that was
    never assigned. *)
Inductive Outcome := Returned (e : option Error) | DivisionByZero.

(** Modelled from the spec: [Context::passError] surfaces the status it is
    given to the caller. *)
Definition passError (e : option Error) : option Error := e.

(** Running a function body from a state: falling off the loop reaches the
    label [done], where [context.passError(error, ...)] is returned. *)
Definition finish (r : St * Res unit) : St * Outcome :=
  match r with
  | (s', Val _) | (s', Halt ExDone) => (s', Returned (passError (st_error s')))
  | (s', Halt (ExReturn e)) => (s', Returned (Some e))
  | (s', Halt ExDivZero) => (s', DivisionByZero)
  end.

Definition run (m : M unit) (s : St) : St * Outcome := finish (m s).

(** The state a call starts in. *)
Definition initial (st : Store) (lastError : Error) : St :=
  mkSt st lastError None [].

(** ** The forward pipeline *)

(** The geometry arguments of a [vol2row]/[row2vol] call on volume [vol]
    with the window of [flt]. *)
Definition vol_args (vol flt : Tensor) (cp : ConvParams) : VolArgs :=
  mkVolArgs (getDimension vol 0) (getDimension vol 1) (getDimension vol 2)
            (getDimension vol 3)
            (getDimension flt 0) (getDimension flt 1) (getDimension flt 2)
            (strideY cp) (strideX cp) (strideT cp)
            (padTop cp) (padBottom cp) (padLeft cp) (padRight cp) (padT cp).

(** [type alpha = v] *)
Definition typed (dataType : vlType) (v : K) : Scale := mkScale dataType v.

(** Elements of one image of [t]. *)
Definition image_size (t : Tensor) : Z :=
  getDimension t 0 * getDimension t 1 * getDimension t 2 * getDimension t 3.

(** The multiply of group [g] for the image at [outputOffset]
    (lines 123-138). *)
Definition forward_group_call (dataType : vlType) (outputMult dataMult : K)
    (numFiltersPerGroup numOutputPixels filtersVolume : Z)
    (tempMemory : Ptr) (outputOffset : Z) (g : Z) : Call :=
  let filterGrpOffset := filtersVolume * numFiltersPerGroup * g in
  let tempGrpOffset := numOutputPixels * filtersVolume * g in
  let outputGrpOffset := numOutputPixels * numFiltersPerGroup * g in
  let alpha := typed dataType dataMult in
  let beta := typed dataType outputMult in
  CGemm NoTrans NoTrans
        numOutputPixels numFiltersPerGroup filtersVolume
        alpha
        (padd tempMemory tempGrpOffset) numOutputPixels
        (mkPtr BFilters filterGrpOffset) filtersVolume
        beta
        (mkPtr BOutput (outputOffset + outputGrpOffset)) numOutputPixels.

(** The bias broadcast for the image at [outputOffset] (lines 140-152). *)
Definition forward_bias_call (dataType : vlType) (biases : Tensor)
    (numOutputPixels : Z) (allOnesMemory : Ptr) (outputOffset : Z) : Call :=
  let alpha := typed dataType sone in
  let beta := typed dataType sone in
  CGemm NoTrans NoTrans
        numOutputPixels (getNumElements ext biases) 1
        alpha
        allOnesMemory numOutputPixels
        (mkPtr BBiases 0) 1
        beta
        (mkPtr BOutput outputOffset) numOutputPixels.

(** The unfold of image [image] of [data] into the workspace
    (lines 114-120, 274-280). *)
Definition unfold_call (data flt : Tensor) (cp : ConvParams)
    (tempMemory : Ptr) (image : Z) : Call :=
  let dataOffset := image_size data * image in
  CVol2row tempMemory (mkPtr BData dataOffset) (vol_args data flt cp).

(** The body of the per-image loop (lines 109-153). *)
Definition forward_image (dataType : vlType)
    (output : Tensor) (outputMult : K) (data : Tensor) (dataMult : K)
    (filters biases : Tensor) (cp : ConvParams)
    (numGroups numFiltersPerGroup numOutputPixels filtersVolume : Z)
    (tempMemory allOnesMemory : Ptr) (image : Z) : M unit :=
  let outputOffset := image_size output * image in
  error <- prim (unfold_call data filters cp tempMemory image) ;;
  (if is_success error then ret tt else goto_done) ;;;
  for_ numGroups (fun g =>
    error <- prim (forward_group_call dataType outputMult dataMult
                     numFiltersPerGroup numOutputPixels filtersVolume
                     tempMemory outputOffset g) ;;
    if is_success error then ret tt else goto_done) ;;;
  if present biases then
    error <- prim (forward_bias_call dataType biases numOutputPixels
                     allOnesMemory outputOffset) ;;
    if is_success error then ret tt else goto_done
  else ret tt.

(** [nnconv3d_forward_blas] (lines 76-157). The three [assert]s on
    [output], [data] and [filters] are preconditions of the call and are
    not part of the model. *)
Definition nnconv3d_forward_blas (dataType : vlType)
    (output : Tensor) (outputMult : K) (data : Tensor) (dataMult : K)
    (filters biases : Tensor) (cp : ConvParams) : M unit :=
  numGroups <- cdiv (getDimension data 3) (getDimension filters 3) ;;
  numFiltersPerGroup <- cdiv (getDimension filters 4) numGroups ;;
  let numOutputPixels :=
    getDimension output 0 * getDimension output 1 * getDimension output 2 in
  let filtersVolume :=
    getDimension filters 0 * getDimension filters 1 * getDimension filters 2
    * getDimension filters 3 in
  let tempVolume := numOutputPixels * filtersVolume * numGroups in
  tempMemory <- getWorkspace (tempVolume * sizeof dataType) ;;
  allOnesMemory <- getAllOnes dataType numOutputPixels ;;
  match tempMemory, allOnesMemory with
  | Some tempMemory, Some allOnesMemory =>
      for_ (getDimension data 4)
        (forward_image dataType output outputMult data dataMult filters
           biases cp numGroups numFiltersPerGroup numOutputPixels
           filtersVolume tempMemory allOnesMemory)
  | _, _ =>
      error <- getLastError ;;
      set_error error ;;;
      goto_done
  end.

(** ** The backward pipeline *)

(** A pointer that may be [NULL]. The block passes a null pointer on only
    where nothing is read or written through it; it is represented by the
    start of the buffer it would have pointed to. *)
Definition ptr_or (o : option Ptr) (b : Buf) : Ptr :=
  match o with Some p => p | None => mkPtr b 0 end.

(** The reduce of the bias-gradient branch (lines 225-238). *)
Definition backward_bias_call (dataType : vlType) (derOutput : Tensor)
    (numOutputPixels : Z) (allOnesMemory : Ptr)
    (derOutputOffset image : Z) : Call :=
  let alpha := typed dataType sone in
  let beta := typed dataType (if (image >? 0)%Z then sone else szero) in
  CGemv Transposed
        numOutputPixels (getDepth ext derOutput)
        alpha
        (mkPtr BDerOutput derOutputOffset) numOutputPixels
        allOnesMemory 1
        beta
        (mkPtr BDerBiases 0) 1.

(** The multiply of group [g] in the input-gradient branch
    (lines 244-259); [alpha] and [beta] are declared [float] there. *)
Definition backward_data_call
    (numFiltersPerGroup numOutputPixels filtersVolume : Z)
    (tempMemory : Ptr) (derOutputOffset g : Z) : Call :=
  let filterGrpOffset := filtersVolume * numFiltersPerGroup * g in
  let tempGrpOffset := numOutputPixels * filtersVolume * g in
  let derOutputGrpOffset := numOutputPixels * numFiltersPerGroup * g in
  let alpha := mkScale vlTypeFloat sone in
  let beta := mkScale vlTypeFloat szero in
  CGemm NoTrans Transposed
        numOutputPixels filtersVolume numFiltersPerGroup
        alpha
        (mkPtr BDerOutput (derOutputOffset + derOutputGrpOffset)) numOutputPixels
        (mkPtr BFilters filterGrpOffset) filtersVolume
        beta
        (padd tempMemory tempGrpOffset) numOutputPixels.

(** The fold of the workspace into image [image] of [derData]
    (lines 260-266). *)
Definition fold_call (derData filters : Tensor) (cp : ConvParams)
    (tempMemory : Ptr) (image : Z) : Call :=
  let derDataOffset := image_size derData * image in
  CRow2vol (mkPtr BDerData derDataOffset) tempMemory
           (vol_args derData filters cp).

(** The multiply of group [g] in the filter-gradient branch
    (lines 282-298). *)
Definition backward_filter_call (dataType : vlType)
    (numFiltersPerGroup numOutputPixels filtersVolume : Z)
    (tempMemory : Ptr) (derOutputOffset image g : Z) : Call :=
  let filterGrpOffset := filtersVolume * numFiltersPerGroup * g in
  let tempGrpOffset := numOutputPixels * filtersVolume * g in
  let derOutputGrpOffset := numOutputPixels * numFiltersPerGroup * g in
  let alpha := typed dataType sone in
  let beta := typed dataType (if (image >? 0)%Z then sone else szero) in
  CGemm Transposed NoTrans
        filtersVolume numFiltersPerGroup numOutputPixels
        alpha
        (padd tempMemory tempGrpOffset) numOutputPixels
        (mkPtr BDerOutput (derOutputOffset + derOutputGrpOffset)) numOutputPixels
        beta
        (mkPtr BDerFilters filterGrpOffset) filtersVolume.

(** The body of the per-image loop (lines 220-300). *)
Definition backward_image (dataType : vlType)
    (derData derFilters derBiases data filters derOutput : Tensor)
    (cp : ConvParams)
    (numGroups numFiltersPerGroup numOutputPixels filtersVolume : Z)
    (tempMemory allOnesMemory : Ptr) (image : Z) : M unit :=
  let derOutputOffset := image_size derOutput * image in
  (if present derBiases then
     error <- prim (backward_bias_call dataType derOutput numOutputPixels
                      allOnesMemory derOutputOffset image) ;;
     if is_success error then ret tt else return_ error
   else ret tt) ;;;
  (if present derData then
     for_ numGroups (fun g =>
       error <- prim (backward_data_call numFiltersPerGroup numOutputPixels
                        filtersVolume tempMemory derOutputOffset g) ;;
       if is_success error then ret tt else return_ error) ;;;
     error <- prim (fold_call derData filters cp tempMemory image) ;;
     if is_success error then ret tt else return_ error
   else ret tt) ;;;
  (if present derFilters then
     error <- prim (unfold_call data derFilters cp tempMemory image) ;;
     (if is_success error then ret tt else return_ error) ;;;
     for_ numGroups (fun g =>
       error <- prim (backward_filter_call dataType numFiltersPerGroup
                        numOutputPixels filtersVolume tempMemory
                        derOutputOffset image g) ;;
       if is_success error then ret tt else return_ error)
   else ret tt).

(** [filters.getDimension(0) * ... * filters.getDimension(3)] *)
Definition filter_volume (f : Tensor) : Z :=
  getDimension f 0 * getDimension f 1 * getDimension f 2 * getDimension f 3.

(** The group count and filter volume of a backward call (lines 196-207):
    from [derData] and [filters] when [derData] is requested, else from
    [data] and [derFilters] when [derFilters] is, else both stay [0]. *)
Definition backward_groups
    (derData derFilters data filters : Tensor) : M (Z * Z) :=
  if present derData then
    numGroups <- cdiv (getDimension derData 3) (getDimension filters 3) ;;
    ret (numGroups, filter_volume filters)
  else if present derFilters then
    numGroups <- cdiv (getDimension data 3) (getDimension derFilters 3) ;;
    ret (numGroups, filter_volume derFilters)
  else ret (0, 0)%Z.

(** [nnconv3d_backward_blas] (lines 159-304). The [assert]s are
    preconditions of the call and are not part of the model. *)
Definition nnconv3d_backward_blas (dataType : vlType)
    (derData derFilters derBiases data filters derOutput : Tensor)
    (cp : ConvParams) : M unit :=
  let numOutputPixels :=
    getDimension derOutput 0 * getDimension derOutput 1
    * getDimension derOutput 2 in
  allOnesMemory <-
    (if present derBiases then
       m <- getAllOnes dataType numOutputPixels ;;
       match m with
       | Some p => ret (Some p)
       | None => error <- getLastError ;; set_error error ;;; goto_done
       end
     else ret None) ;;
  gv <- backward_groups derData derFilters data filters ;;
  let numGroups := fst gv in
  let filtersVolume := snd gv in
  numFiltersPerGroup <- cdiv (getDimension derOutput 3) numGroups ;;
  let tempVolume := numOutputPixels * filtersVolume * numGroups in
  tempMemory <-
    (if (tempVolume =? 0)%Z then ret None
     else
       m <- getWorkspace (tempVolume * sizeof dataType) ;;
       match m with
       | Some p => ret (Some p)
       | None => error <- getLastError ;; set_error error ;;; goto_done
       end) ;;
  for_ (getDimension derOutput 4)
    (backward_image dataType derData derFilters derBiases data filters
       derOutput cp numGroups numFiltersPerGroup numOutputPixels
       filtersVolume (ptr_or tempMemory BTemp) (ptr_or allOnesMemory BAllOnes)).

(** ** Derived notions: call lists, planner quantities, footprints and the
    specification-level values the theorems compare the runs with *)

(** A sequence of primitive calls, each followed by
    [if (error != vl::vlSuccess) { leave }], where leaving is [fail error]. *)
Fixpoint run_calls (fail : Error -> Exit) (l : list Call) : M unit :=
  match l with
  | [] => ret tt
  | c :: l' =>
      (error <- prim c ;;
       if is_success error then ret tt else halt (fail error)) ;;;
      run_calls fail l'
  end.

(** The values [g] takes in [for (int g = 0 ; g < numGroups ; ++g)]. *)
Definition upto (bound : Z) : list Z := range 0 (Z.to_nat bound).

(** The calls of one iteration of the forward loop, in order. *)
Definition forward_image_plan (dataType : vlType)
    (output : Tensor) (outputMult : K) (data : Tensor) (dataMult : K)
    (filters biases : Tensor) (cp : ConvParams)
    (numGroups numFiltersPerGroup numOutputPixels filtersVolume : Z)
    (tempMemory allOnesMemory : Ptr) (image : Z) : list Call :=
  let outputOffset := image_size output * image in
  unfold_call data filters cp tempMemory image
  :: map (forward_group_call dataType outputMult dataMult numFiltersPerGroup
            numOutputPixels filtersVolume tempMemory outputOffset)
         (upto numGroups)
  ++ (if present biases
      then [forward_bias_call dataType biases numOutputPixels allOnesMemory
              outputOffset]
      else []).

(** The calls of one iteration of the backward loop, in order. *)
Definition backward_image_plan (dataType : vlType)
    (derData derFilters derBiases data filters derOutput : Tensor)
    (cp : ConvParams)
    (numGroups numFiltersPerGroup numOutputPixels filtersVolume : Z)
    (tempMemory allOnesMemory : Ptr) (image : Z) : list Call :=
  let derOutputOffset := image_size derOutput * image in
  (if present derBiases
   then [backward_bias_call dataType derOutput numOutputPixels allOnesMemory
           derOutputOffset image]
   else [])
  ++ (if present derData
      then map (backward_data_call numFiltersPerGroup numOutputPixels
                  filtersVolume tempMemory derOutputOffset)
               (upto numGroups)
           ++ [fold_call derData filters cp tempMemory image]
      else [])
  ++ (if present derFilters
      then unfold_call data derFilters cp tempMemory image
           :: map (backward_filter_call dataType numFiltersPerGroup
                     numOutputPixels filtersVolume tempMemory derOutputOffset
                     image)
                  (upto numGroups)
      else []).

(** The effect of a list of successful calls on the store. *)
Definition exec_calls (l : list Call) (st : Store) : Store :=
  fold_left (fun st c => exec_call c st) l st.

(** A list of calls, all recorded as successful. *)
Definition succeeded (l : list Call) : list (Call * Error) :=
  map (fun c => (c, vlSuccess)) l.

(** Pointwise equality of computations. *)
Definition meq {A} (m1 m2 : M A) : Prop := forall s, m1 s = m2 s.

(** A trace and an outcome agree with "fail fast": either every call
    succeeded, or the calls before the first failing one succeeded, only
    acquisitions follow it, and the caller gets a status other than
    [vlSuccess]. *)
Definition fail_fast (tr : list (Call * Error)) (o : Outcome) : Prop :=
  (exists l, tr = succeeded l)
  \/ exists l c e rest e',
       tr = succeeded l ++ (c, e) :: rest
       /\ e <> vlSuccess
       /\ Forall (fun ce => is_primitive (fst ce) = false) rest
       /\ o = Returned (Some e') /\ e' <> vlSuccess.

(** The calls of the forward loop, for given planner quantities. *)
Definition forward_loop_plan (dataType : vlType)
    (output : Tensor) (outputMult : K) (data : Tensor) (dataMult : K)
    (filters biases : Tensor) (cp : ConvParams) : list Call :=
  let numGroups := Z.quot (getDimension data 3) (getDimension filters 3) in
  let numFiltersPerGroup := Z.quot (getDimension filters 4) numGroups in
  let numOutputPixels :=
    getDimension output 0 * getDimension output 1 * getDimension output 2 in
  let filtersVolume := filter_volume filters in
  flat_map
    (forward_image_plan dataType output outputMult data dataMult filters
       biases cp numGroups numFiltersPerGroup numOutputPixels filtersVolume
       (mkPtr BTemp 0) (mkPtr BAllOnes 0))
    (upto (getDimension data 4)).

(** The two acquisitions of the forward call. *)
Definition forward_workspace_call (dataType : vlType)
    (output data filters : Tensor) : Call :=
  let numGroups := Z.quot (getDimension data 3) (getDimension filters 3) in
  let numOutputPixels :=
    getDimension output 0 * getDimension output 1 * getDimension output 2 in
  CGetWorkspace
    (numOutputPixels * filter_volume filters * numGroups * sizeof dataType).

Definition forward_allOnes_call (dataType : vlType) (output : Tensor) : Call :=
  CGetAllOnes dataType
    (getDimension output 0 * getDimension output 1 * getDimension output 2).

(** The planner quantities of a backward call (lines 174-211). *)
Definition backward_numGroups (derData derFilters data filters : Tensor) : Z :=
  if present derData
  then Z.quot (getDimension derData 3) (getDimension filters 3)
  else if present derFilters
  then Z.quot (getDimension data 3) (getDimension derFilters 3)
  else 0.

Definition backward_filtersVolume (derData derFilters filters : Tensor) : Z :=
  if present derData then filter_volume filters
  else if present derFilters then filter_volume derFilters
  else 0.

(** Whether one of the two divisions of the planner has a zero divisor. *)
Definition backward_divides_by_zero
    (derData derFilters data filters : Tensor) : bool :=
  (if present derData then (getDimension filters 3 =? 0)%Z
   else if present derFilters then (getDimension derFilters 3 =? 0)%Z
   else false)
  || (backward_numGroups derData derFilters data filters =? 0)%Z.

Definition backward_tempVolume
    (derData derFilters data filters derOutput : Tensor) : Z :=
  getDimension derOutput 0 * getDimension derOutput 1
  * getDimension derOutput 2
  * backward_filtersVolume derData derFilters filters
  * backward_numGroups derData derFilters data filters.

Definition backward_allOnes_call (dataType : vlType) (derOutput : Tensor)
  : Call :=
  CGetAllOnes dataType
    (getDimension derOutput 0 * getDimension derOutput 1
     * getDimension derOutput 2).

Definition backward_workspace_call (dataType : vlType)
    (derData derFilters data filters derOutput : Tensor) : Call :=
  CGetWorkspace
    (backward_tempVolume derData derFilters data filters derOutput
     * sizeof dataType).

(** The calls of the backward loop. *)
Definition backward_loop_plan (dataType : vlType)
    (derData derFilters derBiases data filters derOutput : Tensor)
    (cp : ConvParams) : list Call :=
  let numGroups := backward_numGroups derData derFilters data filters in
  let numFiltersPerGroup := Z.quot (getDimension derOutput 3) numGroups in
  let numOutputPixels :=
    getDimension derOutput 0 * getDimension derOutput 1
    * getDimension derOutput 2 in
  let filtersVolume := backward_filtersVolume derData derFilters filters in
  flat_map
    (backward_image_plan dataType derData derFilters derBiases data filters
       derOutput cp numGroups numFiltersPerGroup numOutputPixels filtersVolume
       (mkPtr BTemp 0) (mkPtr BAllOnes 0))
    (upto (getDimension derOutput 4)).

(** The state after the ones-vector acquisition of a backward call. *)
Definition backward_after_allOnes (dataType : vlType)
    (derBiases derOutput : Tensor) (s : St) : St :=
  if present derBiases then
    mkSt (exec_call (backward_allOnes_call dataType derOutput) (st_store s))
         (st_lastError s) (st_error s)
         (st_trace s ++ [(backward_allOnes_call dataType derOutput, vlSuccess)])
  else s.

Definition all_succeed : Prop := forall n, oracle n = vlSuccess.

(** Every call of a forward run, in order. *)
Definition forward_calls (dataType : vlType)
    (output : Tensor) (outputMult : K) (data : Tensor) (dataMult : K)
    (filters biases : Tensor) (cp : ConvParams) : list Call :=
  forward_workspace_call dataType output data filters
  :: forward_allOnes_call dataType output
  :: forward_loop_plan dataType output outputMult data dataMult filters
       biases cp.

(** Every call of a backward run, in order. *)
Definition backward_calls (dataType : vlType)
    (derData derFilters derBiases data filters derOutput : Tensor)
    (cp : ConvParams) : list Call :=
  (if present derBiases then [backward_allOnes_call dataType derOutput]
   else [])
  ++ (if (backward_tempVolume derData derFilters data filters derOutput
          =? 0)%Z
      then []
      else [backward_workspace_call dataType derData derFilters data filters
              derOutput])
  ++ backward_loop_plan dataType derData derFilters derBiases data filters
       derOutput cp.

(** The status variable after a loop over [plan] in which nothing failed. *)
Definition status_after (plan : list Call) : option Error :=
  match plan with [] => None | _ => Some vlSuccess end.

(** A trace and an outcome in which any failing call ends the work: no
    primitive is called after it, and the caller gets a status other than
    [vlSuccess]. *)
Definition stops_at_first_failure (tr : list (Call * Error)) (o : Outcome)
  : Prop :=
  forall i c e,
    nth_error tr i = Some (c, e) -> e <> vlSuccess ->
    (forall j c' e', (i < j)%nat -> nth_error tr j = Some (c', e') ->
                     is_primitive c' = false)
    /\ exists e', o = Returned (Some e') /\ e' <> vlSuccess.

(** Element [a] of buffer [b] belongs to the column-major operand at [p]
    with leading dimension [ld], [r] rows and [c] columns. *)
Definition in_operand (p : Ptr) (ld r c : Z) (b : Buf) (a : Z) : bool :=
  Buf_eqb b (pbuf p) && in_matrix (a - poff p) ld r c.

(** The elements a multiply reads or writes: those of its three operands. *)
Definition touches (c : Call) (b : Buf) (a : Z) : bool :=
  match c with
  | CGemm ta tb m n k _ A lda B ldb _ C ldc =>
      match ta with
      | NoTrans => in_operand A lda m k b a
      | Transposed => in_operand A lda k m b a
      end
      || match tb with
         | NoTrans => in_operand B ldb k n b a
         | Transposed => in_operand B ldb n k b a
         end
      || in_operand C ldc m n b a
  | _ => false
  end.

(** The three pointers of a multiply. *)
Definition operands (c : Call) : list Ptr :=
  match c with
  | CGemm _ _ _ _ _ _ A _ B _ _ C _ => [A; B; C]
  | _ => []
  end.

(** [a] lies in the [g]-th block of size [stride] from [base]. *)
Definition group_block (stride base g a : Z) : Prop :=
  (base + g * stride <= a < base + (g + 1) * stride)%Z.

(** The fixed stride of a buffer's group blocks. *)
Definition group_stride
    (numOutputPixels numFiltersPerGroup filtersVolume : Z) (b : Buf) : Z :=
  match b with
  | BFilters | BDerFilters => filtersVolume * numFiltersPerGroup
  | BTemp => numOutputPixels * filtersVolume
  | BOutput | BDerOutput => numOutputPixels * numFiltersPerGroup
  | _ => 0
  end.

(** Where the group blocks of a buffer start: at the current image for the
    output and the output gradient, at the start of the buffer otherwise. *)
Definition group_base (imageOffset : Z) (b : Buf) : Z :=
  match b with
  | BOutput | BDerOutput => imageOffset
  | _ => 0
  end.

(** Every element the multiply of group [g] touches lies in block [g] of
    its buffer. *)
Definition within_group_blocks (call : Z -> Call) (stride base : Buf -> Z)
  : Prop :=
  forall g b a,
    touches (call g) b a = true -> group_block (stride b) (base b) g a.

(** The declared types of the two scale factors of a multiply or reduce. *)
Definition scale_types (c : Call) : list vlType :=
  match c with
  | CGemm _ _ _ _ _ alpha _ _ _ _ beta _ _ => [sc_type alpha; sc_type beta]
  | CGemv _ _ _ alpha _ _ _ _ beta _ _ => [sc_type alpha; sc_type beta]
  | _ => []
  end.

(** Entry (row [p], column [q]) of the patch matrix of the volume at
    [imageOffset] in [data]: the element it is taken from, or zero in the
    padding. *)
Definition patch (st : Store) (a : VolArgs) (imageOffset p q : Z) : K :=
  match patch_src ext a p q with
  | Some j => st BData (imageOffset + j)%Z
  | None => szero
  end.

(** The convolution as the specification words it: output channel [c]
    belongs to group [c / numFiltersPerGroup], and its value at output
    position [p] is the product of row [p] of that group's patch block with
    column [c] of the filter bank. *)
Definition conv (st : Store) (data filters : Tensor) (cp : ConvParams)
    (numFiltersPerGroup image p c : Z) : K :=
  let fv := filter_volume filters in
  let g := (c / numFiltersPerGroup)%Z in
  ssum (Z.to_nat fv) (fun k =>
    (patch st (vol_args data filters cp) (image_size data * image) p
           (g * fv + k)
     * st BFilters (k + fv * c)%Z)%K).

(** A forward call on consistent shapes: the channel counts divide, the
    output has one channel per filter and one image per input image, the
    bias has one entry per filter, and the output is dimensioned as the
    unfold transform expects. *)
Definition valid_forward (output data filters biases : Tensor)
    (cp : ConvParams) : Prop :=
  let numGroups := Z.quot (getDimension data 3) (getDimension filters 3) in
  let numFiltersPerGroup := Z.quot (getDimension filters 4) numGroups in
  (0 < getDimension filters 3
   /\ 0 < numGroups
   /\ getDimension data 3 = numGroups * getDimension filters 3
   /\ 0 <= numFiltersPerGroup
   /\ getDimension filters 4 = numFiltersPerGroup * numGroups
   /\ getDimension output 3 = getDimension filters 4
   /\ getDimension output 4 = getDimension data 4
   /\ 0 <= getDimension output 0 * getDimension output 1
           * getDimension output 2
   /\ 0 <= filter_volume filters
   /\ patch_rows ext (vol_args data filters cp)
      = getDimension output 0 * getDimension output 1 * getDimension output 2
   /\ (present biases = true ->
       getNumElements ext biases = getDimension filters 4))%Z.

(** The contribution of image [image] to the bias gradient of channel [c]:
    the sum of the output gradient over the output positions. *)
Definition bias_gradient_image (st : Store) (derOutput : Tensor)
    (image c : Z) : K :=
  let numOutputPixels :=
    (getDimension derOutput 0 * getDimension derOutput 1
     * getDimension derOutput 2)%Z in
  ssum (Z.to_nat numOutputPixels) (fun p =>
    st BDerOutput (image_size derOutput * image + (p + numOutputPixels * c))%Z).

(** Entry (row [p], column [q]) of [outputGrad_g * filter_g^T] for image
    [image], where column [q] is weight [q mod filtersVolume] of group
    [q / filtersVolume]. *)
Definition output_gradient_patch (st : Store) (derOutput : Tensor)
    (numFiltersPerGroup filtersVolume image p q : Z) : K :=
  let numOutputPixels :=
    (getDimension derOutput 0 * getDimension derOutput 1
     * getDimension derOutput 2)%Z in
  let g := (q / filtersVolume)%Z in
  let k := (q mod filtersVolume)%Z in
  ssum (Z.to_nat numFiltersPerGroup) (fun f =>
    (st BDerOutput
        (image_size derOutput * image
         + (p + numOutputPixels * (g * numFiltersPerGroup + f)))%Z
     * st BFilters (k + filtersVolume * (g * numFiltersPerGroup + f))%Z)%K).

(** The input gradient of image [image] at position [j] of the volume: the
    sum of the entries of [outputGrad * filter^T] whose patch entry is taken
    from [j]. *)
Definition input_gradient (st : Store) (derData filters derOutput : Tensor)
    (cp : ConvParams) (numGroups numFiltersPerGroup filtersVolume image j : Z)
  : K :=
  let numOutputPixels :=
    (getDimension derOutput 0 * getDimension derOutput 1
     * getDimension derOutput 2)%Z in
  ssum (Z.to_nat (filtersVolume * numGroups)) (fun q =>
    ssum (Z.to_nat numOutputPixels) (fun p =>
      match patch_src ext (vol_args derData filters cp) p q with
      | Some j' =>
          if (j' =? j)%Z
          then output_gradient_patch st derOutput numFiltersPerGroup
                 filtersVolume image p q
          else szero
      | None => szero
      end)).

(** The contribution of image [image] to the gradient of weight [k] of
    filter [c]: [patch_g^T * outputGrad_g]. *)
Definition filter_gradient_image (st : Store)
    (data derFilters derOutput : Tensor) (cp : ConvParams)
    (numFiltersPerGroup filtersVolume image k c : Z) : K :=
  let numOutputPixels :=
    (getDimension derOutput 0 * getDimension derOutput 1
     * getDimension derOutput 2)%Z in
  let g := (c / numFiltersPerGroup)%Z in
  ssum (Z.to_nat numOutputPixels) (fun p =>
    (patch st (vol_args data derFilters cp) (image_size data * image) p
           (g * filtersVolume + k)
     * st BDerOutput
         (image_size derOutput * image + (p + numOutputPixels * c))%Z)%K).

(** A backward call on consistent shapes. The group count is not zero and
    divides the channel counts; the output gradient has one channel per
    filter; each requested gradient has the shape of the tensor it is the
    gradient of, as far as the planner and the transforms are concerned;
    [getDepth] of the output gradient is its channel count. *)
Definition valid_backward
    (derData derFilters derBiases data filters derOutput : Tensor)
    (cp : ConvParams) : Prop :=
  let numGroups := backward_numGroups derData derFilters data filters in
  let filtersVolume := backward_filtersVolume derData derFilters filters in
  let numFiltersPerGroup := Z.quot (getDimension derOutput 3) numGroups in
  let numOutputPixels :=
    getDimension derOutput 0 * getDimension derOutput 1
    * getDimension derOutput 2 in
  (0 < numGroups
   /\ 0 <= numFiltersPerGroup
   /\ getDimension derOutput 3 = numFiltersPerGroup * numGroups
   /\ 0 <= numOutputPixels
   /\ 0 <= filtersVolume
   /\ (present derData = true ->
       0 < getDimension filters 3
       /\ getDimension derData 3 = numGroups * getDimension filters 3
       /\ 0 <= image_size derData
       /\ patch_rows ext (vol_args derData filters cp) = numOutputPixels)
   /\ (present derFilters = true ->
       0 < getDimension derFilters 3
       /\ getDimension data 3 = numGroups * getDimension derFilters 3
       /\ filter_volume derFilters = filtersVolume
       /\ patch_rows ext (vol_args data derFilters cp) = numOutputPixels)
   /\ (present derBiases = true ->
       getDepth ext derOutput = getDimension derOutput 3))%Z.

(** [t] with batch size [n]. *)
Definition with_batch (t : Tensor) (n : Z) : Tensor :=
  mkTensor (present t) (dim0 t) (dim1 t) (dim2 t) (dim3 t) n.

(** The memory as a call on the second image alone sees it: [data] and
    [derOutput] start one image further. *)
Definition second_image (data derOutput : Tensor) (st : Store) : Store :=
  fun b a =>
    match b with
    | BData => st BData (a + image_size data)%Z
    | BDerOutput => st BDerOutput (a + image_size derOutput)%Z
    | _ => st b a
    end.

(** A multiply whose operands are stored without gaps: every leading
    dimension is the number of rows of the stored matrix. *)
Definition tight (c : Call) : bool :=
  match c with
  | CGemm ta tb m n k _ _ lda _ ldb _ _ ldc =>
      (ldc =? m)%Z
      && (lda =? match ta with NoTrans => m | Transposed => k end)%Z
      && (ldb =? match tb with NoTrans => k | Transposed => n end)%Z
  | _ => false
  end.

(** ** Further notions: what a call may change or read, the status a trace
    determines, tensor extents and shapes that keep a run in bounds *)

(** The elements a successful call may change: those of its destination
    operand. *)
Definition writes (c : Call) (b : Buf) (a : Z) : bool :=
  match c with
  | CGetWorkspace _ => false
  | CGetAllOnes _ n => Buf_eqb b BAllOnes && (0 <=? a)%Z && (a <? n)%Z
  | CVol2row dst _ args =>
      in_operand dst (patch_rows ext args) (patch_rows ext args)
        (patch_cols args) b a
  | CRow2vol dst _ args =>
      Buf_eqb b (pbuf dst) && (0 <=? a - poff dst)%Z
      && (a - poff dst <? vol_size args)%Z
  | CGemm _ _ m n _ _ _ _ _ _ _ C ldc => in_operand C ldc m n b a
  | CGemv t m n _ _ _ _ _ _ y incy =>
      in_operand y incy 1 (match t with NoTrans => m | Transposed => n end)
        b a
  end.

(** The status of the last failed call of a trace, if one failed. *)
Fixpoint last_failure (tr : list (Call * Error)) : option Error :=
  match tr with
  | [] => None
  | (_, e) :: tr' =>
      match last_failure tr' with
      | Some e' => Some e'
      | None => if is_success e then None else Some e
      end
  end.

(** Whether a primitive was called. *)
Definition ran_primitive (tr : list (Call * Error)) : bool :=
  existsb (fun ce => is_primitive (fst ce)) tr.

(** The status a trace determines: that of the last failed call; else
    [vlSuccess] when a primitive was called; else none, [error] having
    never been assigned. *)
Definition status_of (tr : list (Call * Error)) : option Error :=
  match last_failure tr with
  | Some e => Some e
  | None => if ran_primitive tr then Some vlSuccess else None
  end.

(** Whether one of the two divisions of the forward planner (lines 94-95)
    has a zero divisor. *)
Definition forward_divides_by_zero (data filters : Tensor) : bool :=
  (getDimension filters 3 =? 0)%Z
  || (Z.quot (getDimension data 3) (getDimension filters 3) =? 0)%Z.

(** Elements of [t]: those of one image times the batch size. *)
Definition tensor_size (t : Tensor) : Z := image_size t * getDimension t 4.

(** The buffers a backward call has a reason to change: the gradients it
    is asked for, the ones vector when the bias gradient is among them, and
    the workspace when the input or the filter gradient is. *)
Definition backward_destination (derData derFilters derBiases : Tensor)
    (b : Buf) : bool :=
  match b with
  | BDerData => present derData
  | BDerFilters => present derFilters
  | BDerBiases | BAllOnes => present derBiases
  | BTemp => present derData || present derFilters
  | _ => false
  end.

(** A backward call on shapes that keep every access inside the tensors the
    call is given. The shapes are consistent for the planner, the unfold and
    the fold: [valid_backward], which says nothing of the bias gradient when
    it is given a null one. A requested input gradient has as many images as
    the output gradient, and the filters hold one filter per output channel.
    A requested filter gradient holds one filter per output channel, and the
    data has as many images as the output gradient. The [getDepth] entries
    the reduce covers, whatever [getDepth] returns, are channels of the
    output gradient and fit the bias gradient. *)
Definition consistent_backward
    (derData derFilters derBiases data filters derOutput : Tensor)
    (cp : ConvParams) : Prop :=
  valid_backward derData derFilters nullTensor data filters derOutput cp
  /\ (present derData = true ->
      getDimension derData 4 = getDimension derOutput 4
      /\ getDimension filters 4 = getDimension derOutput 3)
  /\ (present derFilters = true ->
      getDimension data 4 = getDimension derOutput 4
      /\ getDimension derFilters 4 = getDimension derOutput 3)
  /\ (present derBiases = true ->
      (getDepth ext derOutput <= getDimension derOutput 3)%Z
      /\ (getDepth ext derOutput <= tensor_size derBiases)%Z).

(** The inner product of the first [n] elements of two buffers. *)
Definition dot (n : Z) (x y : Z -> K) : K :=
  ssum (Z.to_nat n) (fun a => (x a * y a)%K).

(** The buffers a call reads: its sources, and its destination where the
    prior contents enter the result. *)
Definition reads (c : Call) (b : Buf) : bool :=
  match c with
  | CGetWorkspace _ | CGetAllOnes _ _ => false
  | CVol2row _ src _ | CRow2vol _ src _ => Buf_eqb b (pbuf src)
  | CGemm _ _ _ _ _ _ A _ B _ _ C _ =>
      Buf_eqb b (pbuf A) || Buf_eqb b (pbuf B) || Buf_eqb b (pbuf C)
  | CGemv _ _ _ _ A _ x _ _ y _ =>
      Buf_eqb b (pbuf A) || Buf_eqb b (pbuf x) || Buf_eqb b (pbuf y)
  end.

(** * Properties *)

(** ** Basic facts *)

Lemma is_success_true (e : Error) : is_success e = true <-> e = vlSuccess.
Proof. destruct e; simpl; split; congruence. Qed.

Lemma is_success_false (e : Error) : is_success e = false <-> e <> vlSuccess.
Proof. destruct e; simpl; split; congruence. Qed.

Lemma Buf_eqb_eq (a b : Buf) : Buf_eqb a b = true <-> a = b.
Proof. destruct a, b; simpl; split; congruence. Qed.

Lemma Buf_eqb_refl (a : Buf) : Buf_eqb a a = true.
Proof. destruct a; reflexivity. Qed.

Lemma Buf_eqb_neq (a b : Buf) : a <> b -> Buf_eqb a b = false.
Proof.
  intros H. destruct (Buf_eqb a b) eqn:E; [|reflexivity].
  apply Buf_eqb_eq in E. contradiction.
Qed.

(** ** Call sequences *)

(** *** Laws of the monad and of call sequences *)

Lemma meq_refl {A} (m : M A) : meq m m.
Proof. intros s. reflexivity. Qed.

Lemma meq_trans {A} (m1 m2 m3 : M A) : meq m1 m2 -> meq m2 m3 -> meq m1 m3.
Proof. intros H1 H2 s. rewrite H1. apply H2. Qed.

Lemma bind_meq {A B} (m m' : M A) (f f' : A -> M B) :
  meq m m' -> (forall a, meq (f a) (f' a)) -> meq (bind m f) (bind m' f').
Proof.
  intros Hm Hf s. unfold bind. rewrite Hm.
  destruct (m' s) as [s' [a|x]]; [apply Hf|reflexivity].
Qed.

Lemma bind_assoc {A B C} (m : M A) (f : A -> M B) (g : B -> M C) :
  meq (bind (bind m f) g) (bind m (fun a => bind (f a) g)).
Proof.
  intros s. unfold bind. destruct (m s) as [s' [a|x]]; reflexivity.
Qed.

Lemma bind_ret_tt (m : M unit) : meq (bind m (fun _ => ret tt)) m.
Proof.
  intros s. unfold bind, ret. destruct (m s) as [s' [[]|x]]; reflexivity.
Qed.

Lemma meq_sym {A} (m1 m2 : M A) : meq m1 m2 -> meq m2 m1.
Proof. intros H s. symmetry. apply H. Qed.

Lemma run_calls_app (fail : Error -> Exit) (l1 l2 : list Call) :
  meq (run_calls fail (l1 ++ l2))
      (bind (run_calls fail l1) (fun _ => run_calls fail l2)).
Proof.
  induction l1 as [|c l1 IH]; simpl.
  - intros s. reflexivity.
  - eapply meq_trans; [|apply meq_sym, bind_assoc].
    apply bind_meq; [apply meq_refl|]. intros _. apply IH.
Qed.

Lemma run_calls_one (fail : Error -> Exit) (c : Call) :
  meq (bind (prim c)
         (fun error => if is_success error then ret tt else halt (fail error)))
      (run_calls fail [c]).
Proof. simpl. apply meq_sym, bind_ret_tt. Qed.

(** A loop whose body is a call sequence is the sequence of all its
    iterations. *)
Lemma for_loop_calls (fail : Error -> Exit) (body : Z -> M unit)
    (f : Z -> list Call) :
  (forall i, meq (body i) (run_calls fail (f i))) ->
  forall n i, meq (for_loop n i body)
                  (run_calls fail (flat_map f (range i n))).
Proof.
  intros Hb n. induction n as [|n IH]; intros i; simpl.
  - apply meq_refl.
  - eapply meq_trans; [|apply meq_sym, run_calls_app].
    apply bind_meq; [apply Hb|]. intros _. apply IH.
Qed.

Lemma run_calls_step (fail : Error -> Exit) (c : Call) (rest : M unit) :
  meq (bind (prim c)
         (fun error =>
            bind (if is_success error then ret tt else halt (fail error))
                 (fun _ => rest)))
      (bind (run_calls fail [c]) (fun _ => rest)).
Proof.
  eapply meq_trans.
  - apply meq_sym.
    apply (bind_assoc (prim c)
             (fun error =>
                if is_success error then ret tt else halt (fail error))
             (fun _ => rest)).
  - apply bind_meq; [apply run_calls_one|]. intros _. apply meq_refl.
Qed.

Lemma flat_map_single {A B} (f : A -> B) (l : list A) :
  flat_map (fun x => [f x]) l = map f l.
Proof. induction l; simpl; congruence. Qed.

(** The group loops. *)
Lemma for_groups_calls (fail : Error -> Exit) (c : Z -> Call) (bound : Z) :
  meq (for_ bound (fun g =>
         bind (prim (c g))
           (fun error =>
              if is_success error then ret tt else halt (fail error))))
      (run_calls fail (map c (upto bound))).
Proof.
  unfold for_, upto. rewrite <- flat_map_single.
  apply for_loop_calls. intros i. apply run_calls_one.
Qed.

Lemma forward_image_calls dataType output outputMult data dataMult filters
    biases cp numGroups numFiltersPerGroup numOutputPixels filtersVolume
    tempMemory allOnesMemory image :
  meq (forward_image dataType output outputMult data dataMult filters biases
         cp numGroups numFiltersPerGroup numOutputPixels filtersVolume
         tempMemory allOnesMemory image)
      (run_calls (fun _ => ExDone)
         (forward_image_plan dataType output outputMult data dataMult filters
            biases cp numGroups numFiltersPerGroup numOutputPixels
            filtersVolume tempMemory allOnesMemory image)).
Proof.
  unfold forward_image, forward_image_plan.
  change (?a :: ?l ++ ?r) with ([a] ++ l ++ r).
  eapply meq_trans; [|apply meq_sym, run_calls_app].
  eapply meq_trans; [apply (run_calls_step (fun _ => ExDone))|].
  apply bind_meq; [apply meq_refl|]. intros _.
  eapply meq_trans; [|apply meq_sym, run_calls_app].
  apply bind_meq; [apply (for_groups_calls (fun _ => ExDone))|]. intros _.
  destruct (present biases).
  - apply (run_calls_one (fun _ => ExDone)).
  - apply meq_refl.
Qed.

Lemma backward_image_calls dataType derData derFilters derBiases data filters
    derOutput cp numGroups numFiltersPerGroup numOutputPixels filtersVolume
    tempMemory allOnesMemory image :
  meq (backward_image dataType derData derFilters derBiases data filters
         derOutput cp numGroups numFiltersPerGroup numOutputPixels
         filtersVolume tempMemory allOnesMemory image)
      (run_calls ExReturn
         (backward_image_plan dataType derData derFilters derBiases data
            filters derOutput cp numGroups numFiltersPerGroup numOutputPixels
            filtersVolume tempMemory allOnesMemory image)).
Proof.
  unfold backward_image, backward_image_plan.
  eapply meq_trans; [|apply meq_sym, run_calls_app].
  apply bind_meq.
  { destruct (present derBiases);
      [apply (run_calls_one ExReturn)|apply meq_refl]. }
  intros _.
  eapply meq_trans; [|apply meq_sym, run_calls_app].
  apply bind_meq.
  { destruct (present derData); [|apply meq_refl].
    eapply meq_trans; [|apply meq_sym, run_calls_app].
    apply bind_meq; [apply (for_groups_calls ExReturn)|]. intros _.
    apply (run_calls_one ExReturn). }
  intros _.
  destruct (present derFilters); [|apply meq_refl].
  change (?a :: ?l) with ([a] ++ l).
  eapply meq_trans; [|apply meq_sym, run_calls_app].
  eapply meq_trans; [apply (run_calls_step ExReturn)|].
  apply bind_meq; [apply meq_refl|]. intros _.
  apply (for_groups_calls ExReturn).
Qed.

(** *** What a call sequence does *)

Lemma run_calls_cons (fail : Error -> Exit) (c : Call) (l : list Call)
    (s : St) :
  run_calls fail (c :: l) s =
  let e := oracle (length (st_trace s)) in
  if is_success e then
    run_calls fail l
      (mkSt (exec_call c (st_store s)) (st_lastError s) (Some e)
            (st_trace s ++ [(c, e)]))
  else
    (mkSt (st_store s) (st_lastError s) (Some e) (st_trace s ++ [(c, e)]),
     Halt (fail e)).
Proof.
  simpl. unfold bind, prim, bind, invoke, set_error, ret, halt. simpl.
  destruct (is_success (oracle (length (st_trace s)))); reflexivity.
Qed.

(** Either every call of the sequence succeeds and takes effect, or the
    sequence stops at its first failing call, which is the last one made. *)
Lemma run_calls_spec (fail : Error -> Exit) (l : list Call) :
  forall s,
    (run_calls fail l s =
       (mkSt (exec_calls l (st_store s)) (st_lastError s)
             (match l with [] => st_error s | _ => Some vlSuccess end)
             (st_trace s ++ succeeded l),
        Val tt)
     /\ forall k, (k < length l)%nat ->
                  oracle (length (st_trace s) + k) = vlSuccess)
    \/ exists l1 c l2 e,
         l = l1 ++ c :: l2
         /\ e = oracle (length (st_trace s) + length l1)
         /\ e <> vlSuccess
         /\ run_calls fail l s =
              (mkSt (exec_calls l1 (st_store s)) (st_lastError s) (Some e)
                    (st_trace s ++ succeeded l1 ++ [(c, e)]),
               Halt (fail e)).
Proof.
  induction l as [|c l IH]; intros s.
  - left. split.
    + simpl. unfold ret, succeeded. simpl. rewrite app_nil_r.
      destruct s; reflexivity.
    + simpl. intros k Hk. lia.
  - rewrite run_calls_cons. cbv zeta.
    destruct (is_success (oracle (length (st_trace s)))) eqn:E.
    + apply is_success_true in E.
      specialize (IH (mkSt (exec_call c (st_store s)) (st_lastError s)
                           (Some (oracle (length (st_trace s))))
                           (st_trace s ++ [(c, oracle (length (st_trace s)))]))).
      cbn [st_store st_lastError st_error st_trace] in IH.
      rewrite length_app in IH. cbn [length] in IH.
      destruct IH as [[Hr Hk]|(l1 & c' & l2 & e & Hl & He & Hne & Hr)].
      * left. split.
        { rewrite Hr. rewrite E. unfold succeeded. cbn [map exec_calls fold_left].
          rewrite <- app_assoc. cbn [app].
          destruct l; reflexivity. }
        { intros k Hlt. destruct k as [|k].
          - rewrite Nat.add_0_r. exact E.
          - replace (length (st_trace s) + S k)%nat
              with (length (st_trace s) + 1 + k)%nat by lia.
            apply Hk. simpl in Hlt. lia. }
      * right. exists (c :: l1), c', l2, e. repeat split.
        { rewrite Hl. reflexivity. }
        { rewrite He. f_equal. simpl. lia. }
        { exact Hne. }
        { rewrite Hr. rewrite E. unfold succeeded. cbn [map exec_calls fold_left].
          rewrite <- app_assoc. reflexivity. }
    + apply is_success_false in E.
      right. exists [], c, l, (oracle (length (st_trace s))). repeat split.
      * simpl. rewrite Nat.add_0_r. reflexivity.
      * exact E.
Qed.

(** *** The per-image loops as call sequences *)

Lemma forward_loop_calls dataType output outputMult data dataMult filters
    biases cp numGroups numFiltersPerGroup numOutputPixels filtersVolume
    tempMemory allOnesMemory bound :
  meq (for_ bound
         (forward_image dataType output outputMult data dataMult filters
            biases cp numGroups numFiltersPerGroup numOutputPixels
            filtersVolume tempMemory allOnesMemory))
      (run_calls (fun _ => ExDone)
         (flat_map
            (forward_image_plan dataType output outputMult data dataMult
               filters biases cp numGroups numFiltersPerGroup numOutputPixels
               filtersVolume tempMemory allOnesMemory)
            (upto bound))).
Proof.
  unfold for_, upto. apply for_loop_calls. intros i.
  apply forward_image_calls.
Qed.

Lemma backward_loop_calls dataType derData derFilters derBiases data filters
    derOutput cp numGroups numFiltersPerGroup numOutputPixels filtersVolume
    tempMemory allOnesMemory bound :
  meq (for_ bound
         (backward_image dataType derData derFilters derBiases data filters
            derOutput cp numGroups numFiltersPerGroup numOutputPixels
            filtersVolume tempMemory allOnesMemory))
      (run_calls ExReturn
         (flat_map
            (backward_image_plan dataType derData derFilters derBiases data
               filters derOutput cp numGroups numFiltersPerGroup
               numOutputPixels filtersVolume tempMemory allOnesMemory)
            (upto bound))).
Proof.
  unfold for_, upto. apply for_loop_calls. intros i.
  apply backward_image_calls.
Qed.

(** *** Traces that stop at their first failure *)

Lemma nth_error_succeeded (l : list Call) (i : nat) (c : Call) (e : Error) :
  nth_error (succeeded l) i = Some (c, e) -> e = vlSuccess.
Proof.
  unfold succeeded. intros H. apply nth_error_In in H.
  apply in_map_iff in H. destruct H as (c' & Hc & _). congruence.
Qed.

Lemma fail_fast_nth (tr : list (Call * Error)) (o : Outcome) :
  fail_fast tr o ->
  forall i c e,
    nth_error tr i = Some (c, e) -> e <> vlSuccess ->
    (forall j c' e', (i < j)%nat -> nth_error tr j = Some (c', e') ->
                     is_primitive c' = false)
    /\ exists e', o = Returned (Some e') /\ e' <> vlSuccess.
Proof.
  intros [[l Hl]|(l & c0 & e0 & rest & e' & Htr & Hne & Hrest & Ho & He')]
         i c e Hi He.
  - subst tr. apply nth_error_succeeded in Hi. contradiction.
  - split; [|exists e'; split; assumption].
    assert (Hlen : (length (succeeded l) <= i)%nat).
    { destruct (Nat.le_gt_cases (length (succeeded l)) i) as [H|H]; [exact H|].
      subst tr. rewrite nth_error_app1 in Hi by exact H.
      apply nth_error_succeeded in Hi. contradiction. }
    intros j c' e'' Hij Hj. subst tr.
    rewrite nth_error_app2 in Hj by lia.
    destruct (j - length (succeeded l))%nat as [|k] eqn:Ek; [lia|].
    simpl in Hj. apply nth_error_In in Hj.
    rewrite Forall_forall in Hrest. apply (Hrest _ Hj).
Qed.

(** *** The forward call, unfolded *)

Lemma forward_unfold dataType output outputMult data dataMult filters biases
    cp (s : St) :
  nnconv3d_forward_blas dataType output outputMult data dataMult filters
    biases cp s =
  if (getDimension filters 3 =? 0)%Z then (s, Halt ExDivZero)
  else if (Z.quot (getDimension data 3) (getDimension filters 3) =? 0)%Z
  then (s, Halt ExDivZero)
  else
    let e1 := oracle (length (st_trace s)) in
    let e2 := oracle (S (length (st_trace s))) in
    let tr := st_trace s
              ++ [(forward_workspace_call dataType output data filters, e1);
                  (forward_allOnes_call dataType output, e2)] in
    if is_success e1 then
      if is_success e2 then
        run_calls (fun _ => ExDone)
          (forward_loop_plan dataType output outputMult data dataMult filters
             biases cp)
          (mkSt (exec_call (forward_allOnes_call dataType output) (st_store s))
                (st_lastError s) (st_error s) tr)
      else (mkSt (st_store s) e2 (Some e2) tr, Halt ExDone)
    else if is_success e2 then
      (mkSt (exec_call (forward_allOnes_call dataType output) (st_store s))
            e1 (Some e1) tr, Halt ExDone)
    else (mkSt (st_store s) e2 (Some e2) tr, Halt ExDone).
Proof.
  unfold nnconv3d_forward_blas.
  unfold bind at 1. unfold cdiv at 1.
  destruct (getDimension filters 3 =? 0)%Z; [reflexivity|].
  unfold ret at 1. unfold bind at 1. unfold cdiv at 1.
  destruct (Z.quot (getDimension data 3) (getDimension filters 3) =? 0)%Z;
    [reflexivity|].
  unfold ret at 1. cbv zeta.
  unfold bind at 1. unfold getWorkspace, acquire, bind at 1, invoke.
  cbn [st_trace st_store st_lastError st_error exec_call].
  destruct (is_success (oracle (length (st_trace s)))) eqn:E1.
  - unfold ret at 1. unfold bind at 1.
    unfold getAllOnes, acquire, bind at 1, invoke.
    cbn [st_trace st_store st_lastError st_error].
    rewrite length_app. cbn [length]. rewrite Nat.add_1_r.
    destruct (is_success (oracle (S (length (st_trace s))))) eqn:E2.
    + unfold ret at 1.
      rewrite (forward_loop_calls _ _ _ _ _ _ _ _ _ _ _ _ _ _ _ _).
      rewrite <- app_assoc. reflexivity.
    + cbn. rewrite <- app_assoc. reflexivity.
  - unfold bind at 1.
    unfold getAllOnes, acquire, bind at 1, invoke.
    cbn [st_trace st_store st_lastError st_error].
    rewrite length_app. cbn [length]. rewrite Nat.add_1_r.
    destruct (is_success (oracle (S (length (st_trace s))))) eqn:E2.
    + cbn. rewrite <- app_assoc. reflexivity.
    + cbn. rewrite <- app_assoc. reflexivity.
Qed.

(** *** The backward call, unfolded *)

(** The part of the backward call after the ones-vector acquisition. *)
Lemma backward_tail_unfold dataType derData derFilters derBiases data filters
    derOutput cp (allOnesMemory : option Ptr) (s1 : St) :
  ptr_or allOnesMemory BAllOnes = mkPtr BAllOnes 0 ->
  (gv <- backward_groups derData derFilters data filters ;;
   numFiltersPerGroup <- cdiv (getDimension derOutput 3) (fst gv) ;;
   tempMemory <-
     (if (getDimension derOutput 0 * getDimension derOutput 1
          * getDimension derOutput 2 * snd gv * fst gv =? 0)%Z
      then ret None
      else
        m <- getWorkspace
               (getDimension derOutput 0 * getDimension derOutput 1
                * getDimension derOutput 2 * snd gv * fst gv
                * sizeof dataType) ;;
        match m with
        | Some p => ret (Some p)
        | None => error <- getLastError ;; set_error error ;;; goto_done
        end) ;;
   for_ (getDimension derOutput 4)
     (backward_image dataType derData derFilters derBiases data filters
        derOutput cp (fst gv) numFiltersPerGroup
        (getDimension derOutput 0 * getDimension derOutput 1
         * getDimension derOutput 2)
        (snd gv) (ptr_or tempMemory BTemp)
        (ptr_or allOnesMemory BAllOnes))) s1 =
  if backward_divides_by_zero derData derFilters data filters
  then (s1, Halt ExDivZero)
  else if (backward_tempVolume derData derFilters data filters derOutput
           =? 0)%Z
  then
    run_calls ExReturn
      (backward_loop_plan dataType derData derFilters derBiases data
         filters derOutput cp) s1
  else
    let e1 := oracle (length (st_trace s1)) in
    let tr := st_trace s1
              ++ [(backward_workspace_call dataType derData derFilters data
                     filters derOutput, e1)] in
    if is_success e1 then
      run_calls ExReturn
        (backward_loop_plan dataType derData derFilters derBiases data
           filters derOutput cp)
        (mkSt (st_store s1) (st_lastError s1) (st_error s1) tr)
    else (mkSt (st_store s1) e1 (Some e1) tr, Halt ExDone).
Proof.
  intros Hones. rewrite Hones.
  assert (Hgv : backward_groups derData derFilters data filters s1 =
                if (if present derData then (getDimension filters 3 =? 0)%Z
                    else if present derFilters
                    then (getDimension derFilters 3 =? 0)%Z
                    else false)
                then (s1, Halt ExDivZero)
                else (s1, Val (backward_numGroups derData derFilters data filters,
                               backward_filtersVolume derData derFilters filters))).
  { unfold backward_groups, backward_numGroups, backward_filtersVolume.
    destruct (present derData).
    - unfold bind, cdiv. destruct (getDimension filters 3 =? 0)%Z; reflexivity.
    - destruct (present derFilters); [|reflexivity].
      unfold bind, cdiv.
      destruct (getDimension derFilters 3 =? 0)%Z; reflexivity. }
  unfold bind at 1. rewrite Hgv. clear Hgv.
  unfold backward_divides_by_zero.
  destruct (if present derData then (getDimension filters 3 =? 0)%Z
            else if present derFilters
            then (getDimension derFilters 3 =? 0)%Z else false);
    [reflexivity|].
  cbn [orb fst snd].
  unfold bind at 1. unfold cdiv at 1.
  destruct (backward_numGroups derData derFilters data filters =? 0)%Z;
    [reflexivity|].
  unfold ret at 1.
  unfold backward_tempVolume, backward_workspace_call, backward_loop_plan,
    backward_tempVolume.
  unfold bind at 1.
  destruct (_ =? 0)%Z.
  - unfold ret at 1. cbn [ptr_or].
    apply backward_loop_calls.
  - unfold bind at 1. unfold getWorkspace, acquire, bind at 1, invoke.
    cbn [st_trace st_store st_lastError st_error exec_call].
    destruct (is_success (oracle (length (st_trace s1)))) eqn:E1.
    + unfold ret at 1. unfold ret at 1. cbn [ptr_or].
      apply backward_loop_calls.
    + reflexivity.
Qed.

Lemma backward_unfold dataType derData derFilters derBiases data filters
    derOutput cp (s : St) :
  nnconv3d_backward_blas dataType derData derFilters derBiases data filters
    derOutput cp s =
  let e0 := oracle (length (st_trace s)) in
  if present derBiases && negb (is_success e0) then
    (mkSt (st_store s) e0 (Some e0)
          (st_trace s ++ [(backward_allOnes_call dataType derOutput, e0)]),
     Halt ExDone)
  else
    let s1 := backward_after_allOnes dataType derBiases derOutput s in
    if backward_divides_by_zero derData derFilters data filters
    then (s1, Halt ExDivZero)
    else if (backward_tempVolume derData derFilters data filters derOutput
             =? 0)%Z
    then
      run_calls ExReturn
        (backward_loop_plan dataType derData derFilters derBiases data
           filters derOutput cp) s1
    else
      let e1 := oracle (length (st_trace s1)) in
      let tr := st_trace s1
                ++ [(backward_workspace_call dataType derData derFilters data
                       filters derOutput, e1)] in
      if is_success e1 then
        run_calls ExReturn
          (backward_loop_plan dataType derData derFilters derBiases data
             filters derOutput cp)
          (mkSt (st_store s1) (st_lastError s1) (st_error s1) tr)
      else (mkSt (st_store s1) e1 (Some e1) tr, Halt ExDone).
Proof.
  unfold nnconv3d_backward_blas. cbv zeta.
  unfold backward_after_allOnes.
  destruct (present derBiases); cbn [andb].
  - unfold bind at 1. unfold bind at 1.
    unfold getAllOnes, acquire, bind at 1, invoke.
    cbn [st_trace st_store st_lastError st_error].
    destruct (is_success (oracle (length (st_trace s)))) eqn:E0; cbn [negb].
    + apply is_success_true in E0. rewrite E0.
      unfold ret at 1. unfold ret at 1.
      apply (backward_tail_unfold dataType derData derFilters derBiases data
               filters derOutput cp (Some (mkPtr BAllOnes 0))).
      reflexivity.
    + reflexivity.
  - unfold bind at 1. unfold ret at 1.
    apply (backward_tail_unfold dataType derData derFilters derBiases data
             filters derOutput cp None).
    reflexivity.
Qed.

(** *** Both calls stop at their first failure *)

Lemma succeeded_app (l1 l2 : list Call) :
  succeeded (l1 ++ l2) = succeeded l1 ++ succeeded l2.
Proof. apply map_app. Qed.

Lemma run_calls_fail_fast (fail : Error -> Exit) (l pre : list Call) (s : St) :
  st_trace s = succeeded pre ->
  (forall e, fail e = ExDone \/ fail e = ExReturn e) ->
  fail_fast (st_trace (fst (finish (run_calls fail l s))))
            (snd (finish (run_calls fail l s))).
Proof.
  intros Htr Hfail.
  destruct (run_calls_spec fail l s)
    as [[Hr _]|(l1 & c & l2 & e & Hl & He & Hne & Hr)]; rewrite Hr.
  - left. exists (pre ++ l). simpl. rewrite Htr, succeeded_app. reflexivity.
  - right. exists (pre ++ l1), c, e, [], e.
    assert (Ho : snd (finish
                   (mkSt (exec_calls l1 (st_store s)) (st_lastError s)
                         (Some e) (st_trace s ++ succeeded l1 ++ [(c, e)]),
                    Halt (fail e))) = Returned (Some e)).
    { destruct (Hfail e) as [H|H]; rewrite H; reflexivity. }
    assert (Hs : st_trace (fst (finish
                   (mkSt (exec_calls l1 (st_store s)) (st_lastError s)
                         (Some e) (st_trace s ++ succeeded l1 ++ [(c, e)]),
                    @Halt unit (fail e)))) =
                 st_trace s ++ succeeded l1 ++ [(c, e)]).
    { destruct (Hfail e) as [H|H]; rewrite H; reflexivity. }
    rewrite Ho, Hs, Htr, succeeded_app, <- app_assoc.
    repeat split; auto.
Qed.

Lemma forward_fail_fast dataType output outputMult data dataMult filters
    biases cp (st : Store) (lastError : Error) :
  let r := run (nnconv3d_forward_blas dataType output outputMult data
                  dataMult filters biases cp) (initial st lastError) in
  fail_fast (st_trace (fst r)) (snd r).
Proof.
  cbv zeta. unfold run. rewrite forward_unfold.
  destruct (getDimension filters 3 =? 0)%Z.
  { left. exists []. reflexivity. }
  destruct (Z.quot (getDimension data 3) (getDimension filters 3) =? 0)%Z.
  { left. exists []. reflexivity. }
  cbv zeta. cbn [initial st_trace st_store st_lastError st_error length app].
  destruct (is_success (oracle 0)) eqn:E1;
    destruct (is_success (oracle 1)) eqn:E2.
  - apply is_success_true in E1, E2. rewrite E1, E2.
    apply (run_calls_fail_fast _ _
             [forward_workspace_call dataType output data filters;
              forward_allOnes_call dataType output]).
    + reflexivity.
    + intros e. left. reflexivity.
  - apply is_success_true in E1. apply is_success_false in E2. rewrite E1.
    right. exists [forward_workspace_call dataType output data filters],
             (forward_allOnes_call dataType output), (oracle 1), [], (oracle 1).
    repeat split; auto.
  - apply is_success_false in E1.
    right. exists [], (forward_workspace_call dataType output data filters),
             (oracle 0), [(forward_allOnes_call dataType output, oracle 1)],
             (oracle 0).
    repeat split; auto.
  - apply is_success_false in E1, E2.
    right. exists [], (forward_workspace_call dataType output data filters),
             (oracle 0), [(forward_allOnes_call dataType output, oracle 1)],
             (oracle 1).
    repeat split; auto.
Qed.

Lemma backward_fail_fast dataType derData derFilters derBiases data filters
    derOutput cp (st : Store) (lastError : Error) :
  let r := run (nnconv3d_backward_blas dataType derData derFilters derBiases
                  data filters derOutput cp) (initial st lastError) in
  fail_fast (st_trace (fst r)) (snd r).
Proof.
  cbv zeta. unfold run. rewrite backward_unfold. cbv zeta.
  cbn [initial st_trace st_store st_lastError st_error length app].
  destruct (present derBiases && negb (is_success (oracle 0))) eqn:E0.
  { apply andb_true_iff in E0. destruct E0 as [_ E0].
    apply negb_true_iff, is_success_false in E0.
    right. exists [], (backward_allOnes_call dataType derOutput), (oracle 0),
             [], (oracle 0).
    repeat split; auto. }
  set (s1 := backward_after_allOnes dataType derBiases derOutput
               (initial st lastError)).
  assert (Hs1 : exists pre, st_trace s1 = succeeded pre).
  { unfold s1, backward_after_allOnes. destruct (present derBiases).
    - exists [backward_allOnes_call dataType derOutput]. reflexivity.
    - exists []. reflexivity. }
  destruct Hs1 as [pre Hpre].
  change (backward_after_allOnes dataType derBiases derOutput
            {| st_store := st; st_lastError := lastError;
               st_error := None; st_trace := [] |}) with s1.
  destruct (backward_divides_by_zero derData derFilters data filters).
  { left. exists pre. exact Hpre. }
  destruct (backward_tempVolume derData derFilters data filters derOutput
            =? 0)%Z.
  { apply (run_calls_fail_fast _ _ pre); [exact Hpre|].
    intros e. right. reflexivity. }
  destruct (is_success (oracle (length (st_trace s1)))) eqn:E1.
  - apply is_success_true in E1. rewrite E1.
    apply (run_calls_fail_fast _ _
             (pre ++ [backward_workspace_call dataType derData derFilters
                        data filters derOutput])).
    + cbn [st_trace]. rewrite Hpre, succeeded_app. reflexivity.
    + intros e. right. reflexivity.
  - apply is_success_false in E1.
    right. exists pre, (backward_workspace_call dataType derData derFilters
                          data filters derOutput),
             (oracle (length (st_trace s1))), [],
             (oracle (length (st_trace s1))).
    cbn [finish fst snd st_trace passError st_error].
    repeat split; auto. rewrite Hpre. reflexivity.
Qed.

(** *** Runs in which every call succeeds *)

Lemma run_calls_all_ok (fail : Error -> Exit) (l : list Call) (s : St) :
  all_succeed ->
  run_calls fail l s =
  (mkSt (exec_calls l (st_store s)) (st_lastError s)
        (match l with [] => st_error s | _ => Some vlSuccess end)
        (st_trace s ++ succeeded l),
   Val tt).
Proof.
  intros Hok.
  destruct (run_calls_spec fail l s)
    as [[Hr _]|(l1 & c & l2 & e & _ & He & Hne & _)]; [exact Hr|].
  rewrite Hok in He. contradiction.
Qed.

Lemma exec_calls_app (l1 l2 : list Call) (st : Store) :
  exec_calls (l1 ++ l2) st = exec_calls l2 (exec_calls l1 st).
Proof. apply fold_left_app. Qed.

Lemma forward_run_ok dataType output outputMult data dataMult filters biases
    cp (st : Store) (lastError : Error) :
  all_succeed ->
  getDimension filters 3 <> 0%Z ->
  Z.quot (getDimension data 3) (getDimension filters 3) <> 0%Z ->
  let plan := forward_loop_plan dataType output outputMult data dataMult
                filters biases cp in
  let calls := forward_calls dataType output outputMult data dataMult
                 filters biases cp in
  run (nnconv3d_forward_blas dataType output outputMult data dataMult filters
         biases cp) (initial st lastError) =
  (mkSt (exec_calls calls st) lastError (status_after plan) (succeeded calls),
   Returned (status_after plan)).
Proof.
  intros Hok Hf Hg. cbv zeta. unfold run. rewrite forward_unfold.
  apply Z.eqb_neq in Hf, Hg. rewrite Hf, Hg. cbv zeta.
  rewrite !Hok. cbn [is_success].
  rewrite run_calls_all_ok by exact Hok.
  cbn [initial st_trace st_store st_lastError st_error app finish passError].
  unfold forward_calls, status_after. reflexivity.
Qed.

Lemma backward_run_ok dataType derData derFilters derBiases data filters
    derOutput cp (st : Store) (lastError : Error) :
  all_succeed ->
  backward_divides_by_zero derData derFilters data filters = false ->
  let plan := backward_loop_plan dataType derData derFilters derBiases data
                filters derOutput cp in
  let calls := backward_calls dataType derData derFilters derBiases data
                 filters derOutput cp in
  run (nnconv3d_backward_blas dataType derData derFilters derBiases data
         filters derOutput cp) (initial st lastError) =
  (mkSt (exec_calls calls st) lastError (status_after plan) (succeeded calls),
   Returned (status_after plan)).
Proof.
  intros Hok Hz. cbv zeta. unfold run. rewrite backward_unfold. cbv zeta.
  rewrite Hz. rewrite !Hok. cbn [is_success negb]. rewrite andb_false_r.
  unfold backward_calls, backward_after_allOnes.
  destruct (present derBiases);
    destruct (backward_tempVolume derData derFilters data filters derOutput
              =? 0)%Z;
    rewrite run_calls_all_ok by exact Hok;
    cbn [initial st_trace st_store st_lastError st_error app finish
         passError];
    rewrite ?succeeded_app, ?exec_calls_app; try rewrite <- app_assoc;
    reflexivity.
Qed.

(** ** Error propagation *)

(** C9. In a forward and in a backward call, whatever the context answers,
    a failing acquisition or primitive is followed by no unfold, fold,
    multiply or reduce (no later stage, no later image, no retry), and the
    call returns a status other than [vlSuccess]. *)
Theorem first_failure_ends_the_call dataType
    output outputMult data dataMult filters biases
    derData derFilters derBiases derOutput cp (st : Store) (lastError : Error) :
  let fwd := run (nnconv3d_forward_blas dataType output outputMult data
                    dataMult filters biases cp) (initial st lastError) in
  let bwd := run (nnconv3d_backward_blas dataType derData derFilters
                    derBiases data filters derOutput cp)
                 (initial st lastError) in
  stops_at_first_failure (st_trace (fst fwd)) (snd fwd)
  /\ stops_at_first_failure (st_trace (fst bwd)) (snd bwd).
Proof.
  cbv zeta. split; intros i c e; apply fail_fast_nth.
  - apply forward_fail_fast.
  - apply backward_fail_fast.
Qed.

(** ** The planner *)

Lemma upto_nonempty (n : Z) : (0 < n)%Z -> exists l, upto n = 0%Z :: l.
Proof.
  intros H. unfold upto.
  destruct (Z.to_nat n) as [|k] eqn:E; [lia|].
  simpl. eexists. reflexivity.
Qed.

Lemma forward_loop_plan_nonempty dataType output outputMult data dataMult
    filters biases cp :
  (0 < getDimension data 4)%Z ->
  status_after (forward_loop_plan dataType output outputMult data dataMult
                  filters biases cp) = Some vlSuccess.
Proof.
  intros H. unfold forward_loop_plan. cbv zeta.
  destruct (upto_nonempty _ H) as [l ->]. reflexivity.
Qed.

Lemma backward_loop_plan_nonempty dataType derData derFilters derBiases data
    filters derOutput cp :
  (0 < getDimension derOutput 4)%Z ->
  present derData || present derFilters = true ->
  status_after (backward_loop_plan dataType derData derFilters derBiases data
                  filters derOutput cp) = Some vlSuccess.
Proof.
  intros H Hp. unfold backward_loop_plan. cbv zeta.
  destruct (upto_nonempty _ H) as [l ->].
  cbn [flat_map]. unfold backward_image_plan.
  destruct (present derBiases); [reflexivity|].
  destruct (present derData).
  - cbn [app]. destruct (map _ _); reflexivity.
  - destruct (present derFilters); [reflexivity|discriminate].
Qed.

Lemma backward_requests_when_defined (derData derFilters data filters : Tensor) :
  backward_divides_by_zero derData derFilters data filters = false ->
  present derData || present derFilters = true.
Proof.
  unfold backward_divides_by_zero, backward_numGroups.
  destruct (present derData); [reflexivity|].
  destruct (present derFilters); [reflexivity|].
  simpl. discriminate.
Qed.

(** Whenever no divisor is zero and nothing fails, a call over a non-empty
    batch returns [vlSuccess]. *)
Lemma forward_succeeds dataType output outputMult data dataMult filters
    biases cp (st : Store) (lastError : Error) :
  all_succeed ->
  getDimension filters 3 <> 0%Z ->
  Z.quot (getDimension data 3) (getDimension filters 3) <> 0%Z ->
  (0 < getDimension data 4)%Z ->
  snd (run (nnconv3d_forward_blas dataType output outputMult data dataMult
              filters biases cp) (initial st lastError))
  = Returned (Some vlSuccess).
Proof.
  intros Hok Hf Hg Hn. rewrite forward_run_ok by assumption.
  cbn [snd]. f_equal. apply forward_loop_plan_nonempty. exact Hn.
Qed.

Lemma backward_succeeds dataType derData derFilters derBiases data filters
    derOutput cp (st : Store) (lastError : Error) :
  all_succeed ->
  backward_divides_by_zero derData derFilters data filters = false ->
  (0 < getDimension derOutput 4)%Z ->
  snd (run (nnconv3d_backward_blas dataType derData derFilters derBiases
              data filters derOutput cp) (initial st lastError))
  = Returned (Some vlSuccess).
Proof.
  intros Hok Hz Hn. rewrite backward_run_ok by assumption.
  cbn [snd]. f_equal. apply backward_loop_plan_nonempty; [exact Hn|].
  apply (backward_requests_when_defined _ _ _ _ Hz).
Qed.

(** C5, amended. Neither call checks that the channel counts divide: the
    group count and the filters per group are truncated quotients, and a
    call whose divisors are not zero and whose acquisitions and primitives
    succeed returns [vlSuccess], whether or not the divisions are exact. *)
Theorem inexact_division_is_not_rejected dataType
    output outputMult data dataMult filters biases
    derData derFilters derBiases derOutput cp (st : Store) (lastError : Error) :
  all_succeed ->
  (getDimension filters 3 <> 0%Z ->
   Z.quot (getDimension data 3) (getDimension filters 3) <> 0%Z ->
   (0 < getDimension data 4)%Z ->
   snd (run (nnconv3d_forward_blas dataType output outputMult data dataMult
               filters biases cp) (initial st lastError))
   = Returned (Some vlSuccess))
  /\ (backward_divides_by_zero derData derFilters data filters = false ->
      (0 < getDimension derOutput 4)%Z ->
      snd (run (nnconv3d_backward_blas dataType derData derFilters derBiases
                  data filters derOutput cp) (initial st lastError))
      = Returned (Some vlSuccess)).
Proof.
  intros Hok. split.
  - intros. apply forward_succeeds; assumption.
  - intros. apply backward_succeeds; assumption.
Qed.

(** C10. A backward call that requests the bias gradient alone acquires the
    ones vector and then divides by [numGroups = 0]: no reduce is made and
    the bias-gradient buffer is left as it was. *)
Theorem bias_only_backward_divides_by_zero dataType
    derData derFilters derBiases data filters derOutput cp
    (st : Store) (lastError : Error) :
  present derData = false ->
  present derFilters = false ->
  present derBiases = true ->
  oracle 0 = vlSuccess ->
  let r := run (nnconv3d_backward_blas dataType derData derFilters derBiases
                  data filters derOutput cp) (initial st lastError) in
  snd r = DivisionByZero
  /\ st_trace (fst r) = [(backward_allOnes_call dataType derOutput, vlSuccess)]
  /\ forall a, st_store (fst r) BDerBiases a = st BDerBiases a.
Proof.
  intros Hd Hf Hb H0. cbv zeta. unfold run. rewrite backward_unfold.
  cbv zeta. cbn [initial st_trace length]. rewrite Hb, H0.
  cbn [is_success negb andb].
  unfold backward_divides_by_zero, backward_numGroups. rewrite Hd, Hf.
  cbn [orb Z.eqb]. unfold backward_after_allOnes. rewrite Hb.
  cbn [finish fst snd st_trace st_store app]. repeat split.
Qed.

(** ** Group addressing *)

Lemma in_matrix_block (d r c : Z) :
  in_matrix d r r c = true -> (0 <= d < r * c)%Z.
Proof.
  unfold in_matrix. intros H.
  apply andb_true_iff in H. destruct H as [H Hc].
  apply andb_true_iff in H. destruct H as [Hd Hr].
  apply Z.leb_le in Hd. apply Z.ltb_lt in Hr, Hc.
  destruct (Z.lt_trichotomy r 0) as [Hneg|[Hz|Hpos]].
  - pose proof (Z.mod_neg_bound d r Hneg). lia.
  - subst r. rewrite Z.mod_0_r in Hr. lia.
  - pose proof (Z.mod_pos_bound d r Hpos).
    pose proof (Z.div_mod d r ltac:(lia)). nia.
Qed.

Lemma in_operand_block (p : Ptr) (r c : Z) (b : Buf) (a : Z) :
  in_operand p r r c b a = true ->
  b = pbuf p /\ (poff p <= a < poff p + r * c)%Z.
Proof.
  unfold in_operand. intros H. apply andb_true_iff in H.
  destruct H as [Hb Hm]. apply Buf_eqb_eq in Hb.
  apply in_matrix_block in Hm. split; [exact Hb|lia].
Qed.

Lemma group_blocks_disjoint (stride base g g' a : Z) :
  group_block stride base g a -> group_block stride base g' a -> g = g'.
Proof. unfold group_block. intros H H'. nia. Qed.

Lemma forward_group_call_blocks dataType outputMult dataMult
    numFiltersPerGroup numOutputPixels filtersVolume outputOffset g b a :
  touches (forward_group_call dataType outputMult dataMult numFiltersPerGroup
             numOutputPixels filtersVolume (mkPtr BTemp 0) outputOffset g)
          b a = true ->
  (b = BTemp /\ group_block (numOutputPixels * filtersVolume) 0 g a)
  \/ (b = BFilters
      /\ group_block (filtersVolume * numFiltersPerGroup) 0 g a)
  \/ (b = BOutput
      /\ group_block (numOutputPixels * numFiltersPerGroup) outputOffset g a).
Proof.
  unfold forward_group_call, touches, group_block. cbv zeta. intros H.
  apply orb_true_iff in H. destruct H as [H|H];
    [apply orb_true_iff in H; destruct H as [H|H]|];
    apply in_operand_block in H; cbn [padd pbuf poff] in H;
    destruct H as [Hb H]; [left|right; left|right; right];
    (split; [exact Hb|lia]).
Qed.

Lemma backward_data_call_blocks numFiltersPerGroup numOutputPixels
    filtersVolume derOutputOffset g b a :
  touches (backward_data_call numFiltersPerGroup numOutputPixels
             filtersVolume (mkPtr BTemp 0) derOutputOffset g) b a = true ->
  (b = BDerOutput
   /\ group_block (numOutputPixels * numFiltersPerGroup) derOutputOffset g a)
  \/ (b = BFilters
      /\ group_block (filtersVolume * numFiltersPerGroup) 0 g a)
  \/ (b = BTemp /\ group_block (numOutputPixels * filtersVolume) 0 g a).
Proof.
  unfold backward_data_call, touches, group_block. cbv zeta. intros H.
  apply orb_true_iff in H. destruct H as [H|H];
    [apply orb_true_iff in H; destruct H as [H|H]|];
    apply in_operand_block in H; cbn [padd pbuf poff] in H;
    destruct H as [Hb H]; [left|right; left|right; right];
    (split; [exact Hb|lia]).
Qed.

Lemma backward_filter_call_blocks dataType numFiltersPerGroup numOutputPixels
    filtersVolume derOutputOffset image g b a :
  touches (backward_filter_call dataType numFiltersPerGroup numOutputPixels
             filtersVolume (mkPtr BTemp 0) derOutputOffset image g) b a
  = true ->
  (b = BTemp /\ group_block (numOutputPixels * filtersVolume) 0 g a)
  \/ (b = BDerOutput
      /\ group_block (numOutputPixels * numFiltersPerGroup) derOutputOffset g a)
  \/ (b = BDerFilters
      /\ group_block (filtersVolume * numFiltersPerGroup) 0 g a).
Proof.
  unfold backward_filter_call, touches, group_block. cbv zeta. intros H.
  apply orb_true_iff in H. destruct H as [H|H];
    [apply orb_true_iff in H; destruct H as [H|H]|];
    apply in_operand_block in H; cbn [padd pbuf poff] in H;
    destruct H as [Hb H]; [left|right; left|right; right];
    (split; [exact Hb|lia]).
Qed.

Lemma within_group_blocks_apart (call : Z -> Call) (stride base : Buf -> Z) :
  within_group_blocks call stride base ->
  forall g g' b a,
    touches (call g) b a = true -> touches (call g') b a = true -> g = g'.
Proof.
  intros H g g' b a Hg Hg'.
  apply (group_blocks_disjoint (stride b) (base b) g g' a); apply H; assumption.
Qed.

Lemma within_group_blocks_no_overlap (call : Z -> Call)
    (stride base : Buf -> Z) :
  within_group_blocks call stride base ->
  forall g g' b a,
    g <> g' -> touches (call g) b a = true -> touches (call g') b a = false.
Proof.
  intros H g g' b a Hne Hg.
  destruct (touches (call g') b a) eqn:E; [|reflexivity].
  elim Hne. apply (within_group_blocks_apart _ _ _ H g g' b a Hg E).
Qed.

(** C8. The multiply of group [g], in the forward pipeline and in both
    branches of the backward pipeline, takes its operands at [g] times the
    buffer's stride (from the image's offset for output and output
    gradient), touches only block [g] of each buffer, and so shares no
    element with the multiply of another group. *)
Theorem group_multiplies_keep_to_their_block dataType outputMult dataMult
    numFiltersPerGroup numOutputPixels filtersVolume imageOffset image :
  let stride :=
    group_stride numOutputPixels numFiltersPerGroup filtersVolume in
  let base := group_base imageOffset in
  let fwd := forward_group_call dataType outputMult dataMult
               numFiltersPerGroup numOutputPixels filtersVolume
               (mkPtr BTemp 0) imageOffset in
  let bdata := backward_data_call numFiltersPerGroup numOutputPixels
                 filtersVolume (mkPtr BTemp 0) imageOffset in
  let bfilt := backward_filter_call dataType numFiltersPerGroup
                 numOutputPixels filtersVolume (mkPtr BTemp 0) imageOffset
                 image in
  (forall g,
      operands (fwd g)
      = [mkPtr BTemp (0 + stride BTemp * g);
         mkPtr BFilters (stride BFilters * g);
         mkPtr BOutput (imageOffset + stride BOutput * g)]
      /\ operands (bdata g)
         = [mkPtr BDerOutput (imageOffset + stride BDerOutput * g);
            mkPtr BFilters (stride BFilters * g);
            mkPtr BTemp (0 + stride BTemp * g)]
      /\ operands (bfilt g)
         = [mkPtr BTemp (0 + stride BTemp * g);
            mkPtr BDerOutput (imageOffset + stride BDerOutput * g);
            mkPtr BDerFilters (stride BDerFilters * g)])
  /\ (within_group_blocks fwd stride base
      /\ within_group_blocks bdata stride base
      /\ within_group_blocks bfilt stride base)
  /\ (forall g g' b a,
         g <> g' ->
         (touches (fwd g) b a = true -> touches (fwd g') b a = false)
         /\ (touches (bdata g) b a = true -> touches (bdata g') b a = false)
         /\ (touches (bfilt g) b a = true -> touches (bfilt g') b a = false)).
Proof.
  cbv zeta.
  assert (Hf : within_group_blocks
                 (forward_group_call dataType outputMult dataMult
                    numFiltersPerGroup numOutputPixels filtersVolume
                    (mkPtr BTemp 0) imageOffset)
                 (group_stride numOutputPixels numFiltersPerGroup filtersVolume)
                 (group_base imageOffset)).
  { intros g b a H. apply forward_group_call_blocks in H.
    destruct H as [[-> H]|[[-> H]|[-> H]]]; exact H. }
  assert (Hd : within_group_blocks
                 (backward_data_call numFiltersPerGroup numOutputPixels
                    filtersVolume (mkPtr BTemp 0) imageOffset)
                 (group_stride numOutputPixels numFiltersPerGroup filtersVolume)
                 (group_base imageOffset)).
  { intros g b a H. apply backward_data_call_blocks in H.
    destruct H as [[-> H]|[[-> H]|[-> H]]]; exact H. }
  assert (Hw : within_group_blocks
                 (backward_filter_call dataType numFiltersPerGroup
                    numOutputPixels filtersVolume (mkPtr BTemp 0) imageOffset
                    image)
                 (group_stride numOutputPixels numFiltersPerGroup filtersVolume)
                 (group_base imageOffset)).
  { intros g b a H. apply backward_filter_call_blocks in H.
    destruct H as [[-> H]|[[-> H]|[-> H]]]; exact H. }
  split; [|split].
  - intros g. repeat split.
  - split; [exact Hf|split; [exact Hd|exact Hw]].
  - intros g g' b a Hne. split; [|split].
    + apply (within_group_blocks_no_overlap _ _ _ Hf); exact Hne.
    + apply (within_group_blocks_no_overlap _ _ _ Hd); exact Hne.
    + apply (within_group_blocks_no_overlap _ _ _ Hw); exact Hne.
Qed.

(** ** Types of the scale factors *)

(** C6. In a double-precision backward call that requests the input
    gradient, the first per-group multiply of the input-gradient branch is
    one of the calls made, and both its scale factors are declared
    [float], not [double]. *)
Theorem input_gradient_scales_are_float
    derData derFilters derBiases data filters derOutput cp :
  present derData = true ->
  (0 < backward_numGroups derData derFilters data filters)%Z ->
  (0 < getDimension derOutput 4)%Z ->
  let numGroups := backward_numGroups derData derFilters data filters in
  let c := backward_data_call
             (Z.quot (getDimension derOutput 3) numGroups)
             (getDimension derOutput 0 * getDimension derOutput 1
              * getDimension derOutput 2)
             (backward_filtersVolume derData derFilters filters)
             (mkPtr BTemp 0) (image_size derOutput * 0) 0 in
  In c (backward_calls vlTypeDouble derData derFilters derBiases data filters
          derOutput cp)
  /\ scale_types c = [vlTypeFloat; vlTypeFloat]
  /\ ~ In vlTypeDouble (scale_types c).
Proof.
  intros Hd Hg Hn. cbv zeta. split; [|split].
  - unfold backward_calls. apply in_or_app. right. apply in_or_app. right.
    unfold backward_loop_plan. cbv zeta.
    destruct (upto_nonempty _ Hn) as [l ->]. cbn [flat_map].
    apply in_or_app. left. unfold backward_image_plan. cbv zeta.
    apply in_or_app. right. rewrite Hd. apply in_or_app. left.
    apply in_or_app. left.
    destruct (upto_nonempty _ Hg) as [l' ->]. cbn [map]. left. reflexivity.
  - reflexivity.
  - simpl. intros [H|[H|[]]]; discriminate.
Qed.

(** ** Values *)

(** *** Sums *)

Lemma ssum_ext (n : nat) (f g : Z -> K) :
  (forall l, (0 <= l < Z.of_nat n)%Z -> f l = g l) -> ssum n f = ssum n g.
Proof.
  induction n as [|n IH]; intros H; simpl; [reflexivity|].
  rewrite IH, (H (Z.of_nat n)) by (intros; try apply H; lia). reflexivity.
Qed.

Lemma ssum_one (f : Z -> K) : ssum 1 f = f 0%Z.
Proof. simpl. ring. Qed.

(** *** Matrix addressing *)

Lemma in_matrix_inside (i j r c : Z) :
  (0 <= i < r)%Z -> (0 <= j < c)%Z ->
  in_matrix (i + r * j) r r c = true
  /\ ((i + r * j) mod r = i)%Z /\ ((i + r * j) / r = j)%Z.
Proof.
  intros Hi Hj.
  assert (Hm : ((i + r * j) mod r = i)%Z).
  { rewrite Z.mul_comm, Z.mod_add by lia. apply Z.mod_small. lia. }
  assert (Hd : ((i + r * j) / r = j)%Z).
  { rewrite Z.mul_comm, Z.div_add by lia. rewrite Z.div_small by lia. lia. }
  split; [|split; assumption].
  unfold in_matrix. rewrite Hm, Hd.
  apply andb_true_iff. split; [apply andb_true_iff; split|].
  - apply Z.leb_le. nia.
  - apply Z.ltb_lt. lia.
  - apply Z.ltb_lt. lia.
Qed.

Lemma in_matrix_outside (d r c : Z) :
  ~ (0 <= d < r * c)%Z -> in_matrix d r r c = false.
Proof.
  intros H. destruct (in_matrix d r r c) eqn:E; [|reflexivity].
  apply in_matrix_block in E. contradiction.
Qed.

(** *** The multiply *)

Lemma exec_gemm_other ta tb m n k alpha A lda B ldb beta C ldc
    (st : Store) (b : Buf) (a : Z) :
  b <> pbuf C ->
  exec_gemm ta tb m n k alpha A lda B ldb beta C ldc st b a = st b a.
Proof.
  intros H. unfold exec_gemm. cbv zeta.
  rewrite (Buf_eqb_neq _ _ H). reflexivity.
Qed.

Lemma exec_gemm_outside ta tb m n k alpha A lda B ldb beta C
    (st : Store) (a : Z) :
  ~ (poff C <= a < poff C + m * n)%Z ->
  exec_gemm ta tb m n k alpha A lda B ldb beta C m st (pbuf C) a
  = st (pbuf C) a.
Proof.
  intros H. unfold exec_gemm. cbv zeta.
  rewrite in_matrix_outside by lia. rewrite andb_false_r. reflexivity.
Qed.

Lemma exec_gemm_inside ta tb m n k alpha A lda B ldb beta C
    (st : Store) (i j : Z) :
  (0 <= i < m)%Z -> (0 <= j < n)%Z ->
  exec_gemm ta tb m n k alpha A lda B ldb beta C m st (pbuf C)
            (poff C + (i + m * j))
  = (alpha * gemm_entry st ta tb k A lda B ldb i j
     + beta * st (pbuf C) (poff C + (i + m * j))%Z)%K.
Proof.
  intros Hi Hj. unfold exec_gemm. cbv zeta.
  replace (poff C + (i + m * j) - poff C)%Z with (i + m * j)%Z by lia.
  destruct (in_matrix_inside i j m n Hi Hj) as (-> & -> & ->).
  rewrite Buf_eqb_refl. reflexivity.
Qed.

(** *** The reduce *)

Lemma exec_gemv_other t m n alpha A lda x incx beta y incy
    (st : Store) (b : Buf) (a : Z) :
  b <> pbuf y ->
  exec_gemv t m n alpha A lda x incx beta y incy st b a = st b a.
Proof.
  intros H. unfold exec_gemv. cbv zeta.
  rewrite (Buf_eqb_neq _ _ H). reflexivity.
Qed.

Lemma exec_gemv_inside m n alpha A lda x incx beta y (st : Store) (i : Z) :
  (0 <= i < n)%Z ->
  exec_gemv Transposed m n alpha A lda x incx beta y 1 st (pbuf y)
            (poff y + i)
  = (alpha * gemv_entry st Transposed m n A lda x incx i
     + beta * st (pbuf y) (poff y + i)%Z)%K.
Proof.
  intros Hi. unfold exec_gemv. cbv zeta.
  replace (poff y + i - poff y)%Z with (0 + 1 * i)%Z by lia.
  destruct (in_matrix_inside 0 i 1 n ltac:(lia) Hi) as (-> & _ & ->).
  rewrite Buf_eqb_refl. reflexivity.
Qed.

(** *** Unfold and fold *)

Lemma exec_vol2row_other dst src a (st : Store) (b : Buf) (x : Z) :
  b <> pbuf dst -> exec_vol2row dst src a st b x = st b x.
Proof.
  intros H. unfold exec_vol2row. cbv zeta.
  rewrite (Buf_eqb_neq _ _ H). reflexivity.
Qed.

Lemma exec_vol2row_inside dst src a (st : Store) (p q : Z) :
  (0 <= p < patch_rows ext a)%Z -> (0 <= q < patch_cols a)%Z ->
  exec_vol2row dst src a st (pbuf dst)
               (poff dst + (p + patch_rows ext a * q))
  = match patch_src ext a p q with
    | Some j => load st src j
    | None => szero
    end.
Proof.
  intros Hp Hq. unfold exec_vol2row. cbv zeta.
  replace (poff dst + (p + patch_rows ext a * q) - poff dst)%Z
    with (p + patch_rows ext a * q)%Z by lia.
  destruct (in_matrix_inside p q _ _ Hp Hq) as (-> & -> & ->).
  rewrite Buf_eqb_refl. reflexivity.
Qed.

Lemma exec_row2vol_other dst src a (st : Store) (b : Buf) (x : Z) :
  b <> pbuf dst -> exec_row2vol dst src a st b x = st b x.
Proof.
  intros H. unfold exec_row2vol. cbv zeta.
  rewrite (Buf_eqb_neq _ _ H). reflexivity.
Qed.

Lemma exec_row2vol_outside dst src a (st : Store) (x : Z) :
  ~ (poff dst <= x < poff dst + vol_size a)%Z ->
  exec_row2vol dst src a st (pbuf dst) x = st (pbuf dst) x.
Proof.
  intros H. unfold exec_row2vol. cbv zeta.
  destruct (0 <=? x - poff dst)%Z eqn:E1;
    destruct (x - poff dst <? vol_size a)%Z eqn:E2;
    rewrite ?andb_false_r, ?andb_true_r; try reflexivity.
  apply Z.leb_le in E1. apply Z.ltb_lt in E2. lia.
Qed.

Lemma exec_row2vol_inside dst src a (st : Store) (j : Z) :
  (0 <= j < vol_size a)%Z ->
  exec_row2vol dst src a st (pbuf dst) (poff dst + j) = fold_entry st src a j.
Proof.
  intros H. unfold exec_row2vol. cbv zeta.
  replace (poff dst + j - poff dst)%Z with j by lia.
  rewrite Buf_eqb_refl.
  destruct (Z.leb_spec 0 j); [|lia].
  destruct (Z.ltb_spec j (vol_size a)); [|lia]. reflexivity.
Qed.

(** *** Loops over the store *)

Lemma exec_calls_map_inv (P : Z -> Store -> Prop) (f : Z -> Call) (n : nat) :
  forall i st,
    P i st ->
    (forall j st', (i <= j < i + Z.of_nat n)%Z -> P j st' ->
                   P (j + 1)%Z (exec_call (f j) st')) ->
    P (i + Z.of_nat n)%Z (exec_calls (map f (range i n)) st).
Proof.
  induction n as [|n IH]; intros i st H0 Hstep.
  - simpl. rewrite Z.add_0_r. exact H0.
  - cbn [range map exec_calls fold_left].
    replace (i + Z.of_nat (S n))%Z with (i + 1 + Z.of_nat n)%Z by lia.
    apply IH.
    + apply Hstep; [lia|exact H0].
    + intros j st' Hj. apply Hstep. lia.
Qed.

Lemma exec_calls_flat_map_inv (P : Z -> Store -> Prop) (f : Z -> list Call)
    (n : nat) :
  forall i st,
    P i st ->
    (forall j st', (i <= j < i + Z.of_nat n)%Z -> P j st' ->
                   P (j + 1)%Z (exec_calls (f j) st')) ->
    P (i + Z.of_nat n)%Z (exec_calls (flat_map f (range i n)) st).
Proof.
  induction n as [|n IH]; intros i st H0 Hstep.
  - simpl. rewrite Z.add_0_r. exact H0.
  - cbn [range flat_map]. rewrite exec_calls_app.
    replace (i + Z.of_nat (S n))%Z with (i + 1 + Z.of_nat n)%Z by lia.
    apply IH.
    + apply Hstep; [lia|exact H0].
    + intros j st' Hj. apply Hstep. lia.
Qed.

(** ** The forward pipeline computes the convolution *)

Lemma exec_calls_cons (c : Call) (l : list Call) (st : Store) :
  exec_calls (c :: l) st = exec_calls l (exec_call c st).
Proof. reflexivity. Qed.

Lemma upto_range (bound : Z) :
  (0 <= bound)%Z -> (0 + Z.of_nat (Z.to_nat bound) = bound)%Z.
Proof. lia. Qed.

Section ForwardValues.

Variable dataType : vlType.
Variables output data filters biases : Tensor.
Variables outputMult dataMult : K.
Variable cp : ConvParams.
Hypothesis Hvalid : valid_forward output data filters biases cp.

Let numGroups := Z.quot (getDimension data 3) (getDimension filters 3).
Let numFiltersPerGroup := Z.quot (getDimension filters 4) numGroups.
Let numOutputPixels :=
  (getDimension output 0 * getDimension output 1 * getDimension output 2)%Z.
Let filtersVolume := filter_volume filters.
Let args := vol_args data filters cp.

(** The workspace after the unfold of image [image]. *)
Lemma forward_unfold_effect (image : Z) (st : Store) :
  let st' := exec_call (unfold_call data filters cp (mkPtr BTemp 0) image) st in
  (forall b a, b <> BTemp -> st' b a = st b a)
  /\ forall p q,
       (0 <= p < numOutputPixels)%Z ->
       (0 <= q < filtersVolume * numGroups)%Z ->
       st' BTemp (p + numOutputPixels * q)%Z
       = patch st args (image_size data * image) p q.
Proof.
  destruct Hvalid as (Hfc & Hg & Hdc & Hn & Hnf & Hoc & Hb & Hnop & Hfv & Hrows & Hbias).
  cbv zeta. unfold unfold_call. cbn [exec_call]. split.
  - intros b a Hb'. apply exec_vol2row_other. exact Hb'.
  - intros p q Hp Hq. fold args in Hrows.
    assert (Hrows' : patch_rows ext args = numOutputPixels) by exact Hrows.
    assert (Hcols : patch_cols args = (filtersVolume * numGroups)%Z).
    { unfold patch_cols, args, vol_args, filtersVolume, filter_volume.
      cbn [va_windowHeight va_windowWidth va_windowTime va_depth].
      fold numGroups in Hdc. rewrite Hdc. ring. }
    replace (p + numOutputPixels * q)%Z
      with (poff (mkPtr BTemp 0) + (p + patch_rows ext args * q))%Z
      by (rewrite Hrows'; cbn [poff]; lia).
    apply (exec_vol2row_inside (mkPtr BTemp 0)
             (mkPtr BData (image_size data * image)) args st p q).
    + rewrite Hrows'. exact Hp.
    + rewrite Hcols. exact Hq.
Qed.

(** The output after the group loop of one image. [st0] is the store the
    patch matrix and the filters are read from. *)
Lemma forward_groups_effect (st0 stA : Store) (image off : Z) :
  (forall p q,
      (0 <= p < numOutputPixels)%Z ->
      (0 <= q < filtersVolume * numGroups)%Z ->
      stA BTemp (p + numOutputPixels * q)%Z
      = patch st0 args (image_size data * image) p q) ->
  (forall a, stA BFilters a = st0 BFilters a) ->
  let stB :=
    exec_calls
      (map (forward_group_call dataType outputMult dataMult
              numFiltersPerGroup numOutputPixels filtersVolume
              (mkPtr BTemp 0) off)
           (upto numGroups)) stA in
  (forall b a, b <> BOutput -> stB b a = stA b a)
  /\ (forall a,
         ~ (off <= a < off + numOutputPixels * (numFiltersPerGroup * numGroups))%Z ->
         stB BOutput a = stA BOutput a)
  /\ (forall p c,
         (0 <= p < numOutputPixels)%Z ->
         (0 <= c < numFiltersPerGroup * numGroups)%Z ->
         stB BOutput (off + (p + numOutputPixels * c))%Z
         = (dataMult * conv st0 data filters cp numFiltersPerGroup image p c
            + outputMult * stA BOutput (off + (p + numOutputPixels * c))%Z)%K).
Proof.
  destruct Hvalid as (Hfc & Hg & Hdc & Hn & Hnf & Hoc & Hb & Hnop & Hfv & Hrows & Hbias).
  fold numGroups in Hg, Hdc, Hn, Hnf. fold numFiltersPerGroup in Hn, Hnf.
  fold numOutputPixels in Hnop. fold filtersVolume in Hfv.
  intros Htemp Hfilt. cbv zeta.
  set (P := fun (g : Z) (st : Store) =>
    (forall b a, b <> BOutput -> st b a = stA b a)
    /\ (forall a,
           ~ (off <= a < off + numOutputPixels * (numFiltersPerGroup * g))%Z ->
           st BOutput a = stA BOutput a)
    /\ (forall p c,
           (0 <= p < numOutputPixels)%Z ->
           (0 <= c < numFiltersPerGroup * g)%Z ->
           st BOutput (off + (p + numOutputPixels * c))%Z
           = (dataMult * conv st0 data filters cp numFiltersPerGroup image p c
              + outputMult * stA BOutput (off + (p + numOutputPixels * c))%Z)%K)).
  assert (HP : P (0 + Z.of_nat (Z.to_nat numGroups))%Z
                 (exec_calls
                    (map (forward_group_call dataType outputMult dataMult
                            numFiltersPerGroup numOutputPixels filtersVolume
                            (mkPtr BTemp 0) off)
                         (range 0 (Z.to_nat numGroups))) stA)).
  { apply exec_calls_map_inv.
    - unfold P. repeat split; intros; try reflexivity. lia.
    - intros g st Hgr (I1 & I2 & I3). unfold P.
      unfold forward_group_call. cbv zeta. cbn [exec_call typed sc_val padd pbuf poff].
      split; [|split].
      + intros b a Hb'. rewrite exec_gemm_other by exact Hb'. apply I1, Hb'.
      + intros a Ha.
        change BOutput with
          (pbuf (mkPtr BOutput (off + numOutputPixels * numFiltersPerGroup * g))) at 1.
        rewrite exec_gemm_outside by (cbn [poff]; nia).
        apply I2. nia.
      + intros p c Hp Hc.
        destruct (Z.lt_ge_cases c (numFiltersPerGroup * g)) as [Hlt|Hge].
        * change BOutput with
            (pbuf (mkPtr BOutput
                     (off + numOutputPixels * numFiltersPerGroup * g))) at 1.
          rewrite exec_gemm_outside by (cbn [poff]; nia).
          apply I3; [exact Hp|lia].
        * set (f := (c - numFiltersPerGroup * g)%Z).
          assert (Hf : (0 <= f < numFiltersPerGroup)%Z) by (unfold f; nia).
          replace (off + (p + numOutputPixels * c))%Z
            with (poff (mkPtr BOutput
                          (off + numOutputPixels * numFiltersPerGroup * g))
                  + (p + numOutputPixels * f))%Z
            by (cbn [poff]; unfold f; ring).
          change BOutput with
            (pbuf (mkPtr BOutput
                     (off + numOutputPixels * numFiltersPerGroup * g))) at 1.
          rewrite exec_gemm_inside by assumption.
          cbn [pbuf poff].
          rewrite I2 by nia. f_equal. f_equal.
          unfold gemm_entry, conv. cbv zeta. fold filtersVolume.
          apply ssum_ext. intros l Hl. unfold load. cbn [padd pbuf poff].
          rewrite !I1 by discriminate.
          assert (Hcg : (c / numFiltersPerGroup = g)%Z).
          { symmetry. apply (Z.div_unique c numFiltersPerGroup g f); [lia|].
            unfold f. ring. }
          rewrite Hcg. f_equal.
          -- replace (0 + numOutputPixels * filtersVolume * g
                      + (p + l * numOutputPixels))%Z
               with (p + numOutputPixels * (g * filtersVolume + l))%Z by ring.
             apply Htemp; [exact Hp|nia].
          -- rewrite Hfilt. f_equal. unfold f. ring. }
  rewrite upto_range in HP by lia. exact HP.
Qed.

Lemma patch_ext (st st' : Store) (a : VolArgs) (off p q : Z) :
  (forall x, st BData x = st' BData x) -> patch st a off p q = patch st' a off p q.
Proof. intros H. unfold patch. destruct (patch_src ext a p q); auto. Qed.

(** The output after one iteration of the forward loop. [st0] is the store
    the call started in. *)
Lemma forward_image_effect (st0 stX : Store) (image : Z) :
  (forall a, stX BData a = st0 BData a) ->
  (forall a, stX BFilters a = st0 BFilters a) ->
  (forall a, stX BBiases a = st0 BBiases a) ->
  (forall p, (0 <= p < numOutputPixels)%Z -> stX BAllOnes p = sone) ->
  let off := (image_size output * image)%Z in
  let stY :=
    exec_calls
      (forward_image_plan dataType output outputMult data dataMult filters
         biases cp numGroups numFiltersPerGroup numOutputPixels filtersVolume
         (mkPtr BTemp 0) (mkPtr BAllOnes 0) image) stX in
  (forall b a, b <> BOutput -> b <> BTemp -> stY b a = stX b a)
  /\ (forall a,
         ~ (off <= a < off + numOutputPixels * (numFiltersPerGroup * numGroups))%Z ->
         stY BOutput a = stX BOutput a)
  /\ (forall p c,
         (0 <= p < numOutputPixels)%Z ->
         (0 <= c < numFiltersPerGroup * numGroups)%Z ->
         stY BOutput (off + (p + numOutputPixels * c))%Z
         = (outputMult * stX BOutput (off + (p + numOutputPixels * c))%Z
            + dataMult * conv st0 data filters cp numFiltersPerGroup image p c
            + (if present biases then st0 BBiases c else szero))%K).
Proof.
  intros Hdata Hfilt Hbia Hones. cbv zeta.
  unfold forward_image_plan. cbv zeta.
  rewrite exec_calls_cons, exec_calls_app.
  destruct (forward_unfold_effect image stX) as [A1 A2].
  set (stA := exec_call (unfold_call data filters cp (mkPtr BTemp 0) image) stX)
    in *.
  assert (Htemp : forall p q,
             (0 <= p < numOutputPixels)%Z ->
             (0 <= q < filtersVolume * numGroups)%Z ->
             stA BTemp (p + numOutputPixels * q)%Z
             = patch st0 args (image_size data * image) p q).
  { intros p q Hp Hq. rewrite A2 by assumption. apply patch_ext, Hdata. }
  assert (HfA : forall a, stA BFilters a = st0 BFilters a).
  { intros a. rewrite A1 by discriminate. apply Hfilt. }
  destruct (forward_groups_effect st0 stA image (image_size output * image)
              Htemp HfA) as (B1 & B2 & B3).
  set (stB := exec_calls (map _ (upto numGroups)) stA) in *.
  destruct Hvalid as (Hfc & Hg & Hdc & Hn & Hnf & Hoc & Hb & Hnop & Hfv & Hrows & Hbias).
  fold numGroups in Hg, Hdc, Hn, Hnf. fold numFiltersPerGroup in Hn, Hnf.
  fold numOutputPixels in Hnop. fold filtersVolume in Hfv.
  destruct (present biases) eqn:Ebias.
  - specialize (Hbias eq_refl). rewrite Hnf in Hbias.
    cbn [exec_calls fold_left]. unfold forward_bias_call. cbv zeta.
    cbn [exec_call typed sc_val]. rewrite Hbias.
    split; [|split].
    + intros b a Hb1 Hb2. rewrite exec_gemm_other by exact Hb1.
      rewrite B1 by exact Hb1. apply A1. exact Hb2.
    + intros a Ha.
      change BOutput with (pbuf (mkPtr BOutput (image_size output * image))) at 1.
      rewrite exec_gemm_outside by (cbn [poff]; lia).
      cbn [pbuf]. rewrite B2 by exact Ha. apply A1. discriminate.
    + intros p c Hp Hc.
      change (image_size output * image + (p + numOutputPixels * c))%Z
        with (poff (mkPtr BOutput (image_size output * image))
              + (p + numOutputPixels * c))%Z at 1.
      change BOutput with (pbuf (mkPtr BOutput (image_size output * image))) at 1.
      rewrite exec_gemm_inside by assumption.
      cbn [pbuf poff]. rewrite B3 by assumption.
      rewrite A1 by discriminate.
      unfold gemm_entry. change (Z.to_nat 1) with 1%nat. rewrite ssum_one.
      unfold load. cbn [pbuf poff].
      replace (0 + (p + 0 * numOutputPixels))%Z with p by lia.
      replace (0 + (0 + c * 1))%Z with c by lia.
      rewrite !B1 by discriminate. rewrite !A1 by discriminate.
      rewrite Hones by exact Hp. rewrite Hbia. ring.
  - cbn [exec_calls fold_left].
    split; [|split].
    + intros b a Hb1 Hb2. rewrite B1 by exact Hb1. apply A1. exact Hb2.
    + intros a Ha. rewrite B2 by exact Ha. apply A1. discriminate.
    + intros p c Hp Hc. rewrite B3 by assumption.
      rewrite A1 by discriminate. ring.
Qed.

(** The output after the whole forward loop, started in [st1], which is
    the caller's store [st0] with the ones vector in place. *)
Lemma forward_loop_effect (st0 st1 : Store) :
  (forall b a, b <> BAllOnes -> st1 b a = st0 b a) ->
  (forall p, (0 <= p < numOutputPixels)%Z -> st1 BAllOnes p = sone) ->
  let stF :=
    exec_calls
      (forward_loop_plan dataType output outputMult data dataMult filters
         biases cp) st1 in
  forall image p c,
    (0 <= image < getDimension data 4)%Z ->
    (0 <= p < numOutputPixels)%Z ->
    (0 <= c < getDimension output 3)%Z ->
    stF BOutput (image_size output * image + (p + numOutputPixels * c))%Z
    = (outputMult
       * st0 BOutput (image_size output * image + (p + numOutputPixels * c))%Z
       + dataMult * conv st0 data filters cp numFiltersPerGroup image p c
       + (if present biases then st0 BBiases c else szero))%K.
Proof.
  intros Hst1 Hones. cbv zeta.
  pose proof Hvalid as Hv.
  destruct Hv as (Hfc & Hg & Hdc & Hn & Hnf & Hoc & Hb & Hnop & Hfv & Hrows & Hbias).
  fold numGroups in Hg, Hdc, Hn, Hnf. fold numFiltersPerGroup in Hn, Hnf.
  fold numOutputPixels in Hnop. fold filtersVolume in Hfv.
  assert (Hisz : image_size output
                 = (numOutputPixels * (numFiltersPerGroup * numGroups))%Z).
  { unfold image_size. rewrite Hoc, Hnf. reflexivity. }
  set (Q := fun (i : Z) (st : Store) =>
    (forall b a, b <> BOutput -> b <> BTemp -> st b a = st1 b a)
    /\ (forall a, (image_size output * i <= a)%Z ->
                  st BOutput a = st1 BOutput a)
    /\ (forall image p c,
           (0 <= image < i)%Z ->
           (0 <= p < numOutputPixels)%Z ->
           (0 <= c < numFiltersPerGroup * numGroups)%Z ->
           st BOutput (image_size output * image + (p + numOutputPixels * c))%Z
           = (outputMult
              * st0 BOutput
                  (image_size output * image + (p + numOutputPixels * c))%Z
              + dataMult * conv st0 data filters cp numFiltersPerGroup image p c
              + (if present biases then st0 BBiases c else szero))%K)).
  destruct (Z.le_gt_cases 0 (getDimension data 4)) as [Hn0|Hn0].
  2:{ intros image p c Hi. lia. }
  assert (HQ : Q (0 + Z.of_nat (Z.to_nat (getDimension data 4)))%Z
                 (exec_calls
                    (forward_loop_plan dataType output outputMult data
                       dataMult filters biases cp) st1)).
  { unfold forward_loop_plan. cbv zeta. unfold upto.
    apply exec_calls_flat_map_inv.
    - unfold Q. repeat split; intros; try reflexivity. lia.
    - intros i st Hi (Q1 & Q2 & Q3).
      destruct (forward_image_effect st0 st i) as (E1 & E2 & E3).
      { intros a. rewrite Q1 by discriminate. apply Hst1. discriminate. }
      { intros a. rewrite Q1 by discriminate. apply Hst1. discriminate. }
      { intros a. rewrite Q1 by discriminate. apply Hst1. discriminate. }
      { intros p Hp. rewrite Q1 by discriminate. apply Hones, Hp. }
      unfold Q. split; [|split].
      + intros b a Hb1 Hb2. rewrite E1 by assumption. apply Q1; assumption.
      + intros a Ha. rewrite E2 by (rewrite Hisz in *; nia).
        apply Q2. rewrite Hisz in *. nia.
      + intros image p c Himg Hp Hc.
        destruct (Z.lt_ge_cases image i) as [Hlt|Hge].
        * rewrite E2 by (rewrite Hisz in *; nia).
          apply Q3; [lia|exact Hp|exact Hc].
        * assert (image = i) by lia. subst image.
          rewrite E3 by assumption.
          rewrite Q2 by (rewrite Hisz; nia).
          rewrite Hst1 by discriminate. reflexivity. }
  rewrite upto_range in HQ by exact Hn0.
  destruct HQ as (_ & _ & Q3).
  intros image p c Hi Hp Hc. apply Q3; [exact Hi|exact Hp|].
  rewrite Hoc, Hnf in Hc. exact Hc.
Qed.

(** C1. On consistent shapes and when nothing fails, the forward call
    returns [vlSuccess] (for a non-empty batch) and leaves, in every
    element of every image of the output, [outputMult] times its prior
    value plus [dataMult] times the convolution, plus the bias of its
    channel, with coefficient one, when a bias is supplied. *)
Theorem forward_computes_convolution (st : Store) (lastError : Error) :
  all_succeed ->
  let r := run (nnconv3d_forward_blas dataType output outputMult data
                  dataMult filters biases cp) (initial st lastError) in
  ((0 < getDimension data 4)%Z -> snd r = Returned (Some vlSuccess))
  /\ forall image p c,
       (0 <= image < getDimension data 4)%Z ->
       (0 <= p < numOutputPixels)%Z ->
       (0 <= c < getDimension output 3)%Z ->
       st_store (fst r) BOutput
         (image_size output * image + (p + numOutputPixels * c))%Z
       = (outputMult
          * st BOutput (image_size output * image + (p + numOutputPixels * c))%Z
          + dataMult * conv st data filters cp numFiltersPerGroup image p c
          + (if present biases then st BBiases c else szero))%K.
Proof.
  intros Hok. cbv zeta.
  pose proof Hvalid as Hv.
  destruct Hv as (Hfc & Hg & Hdc & Hn & Hnf & Hoc & Hb & Hnop & Hfv & Hrows & Hbias).
  split.
  - intros Hpos. apply forward_succeeds; [exact Hok|lia|lia|exact Hpos].
  - rewrite forward_run_ok by (try exact Hok; lia).
    cbn [fst st_store]. unfold forward_calls.
    rewrite !exec_calls_cons.
    apply forward_loop_effect.
    + intros b a Hb'. unfold forward_workspace_call, forward_allOnes_call.
      cbn [exec_call]. unfold exec_allOnes.
      rewrite (Buf_eqb_neq _ _ Hb'). reflexivity.
    + intros p Hp. unfold forward_workspace_call, forward_allOnes_call.
      cbn [exec_call]. unfold exec_allOnes. fold numOutputPixels.
      cbn [Buf_eqb].
      destruct (Z.leb_spec 0 p); [|lia].
      destruct (Z.ltb_spec p numOutputPixels); [|lia]. reflexivity.
Qed.

End ForwardValues.

(** ** The backward pipeline computes the three gradients *)

Lemma valid_backward_defined derData derFilters derBiases data filters
    derOutput cp :
  valid_backward derData derFilters derBiases data filters derOutput cp ->
  backward_divides_by_zero derData derFilters data filters = false.
Proof.
  intros (Hg & _ & _ & _ & _ & Hd & Hf & _).
  unfold backward_divides_by_zero.
  apply orb_false_iff. split; [|apply Z.eqb_neq; lia].
  destruct (present derData).
  - destruct (Hd eq_refl) as (H & _). apply Z.eqb_neq. lia.
  - destruct (present derFilters); [|reflexivity].
    destruct (Hf eq_refl) as (H & _). apply Z.eqb_neq. lia.
Qed.

(** The workspace after an unfold, for any window. *)
Lemma unfold_effect (vol flt : Tensor) (cp : ConvParams) (image : Z)
    (st : Store) (rows cols : Z) :
  patch_rows ext (vol_args vol flt cp) = rows ->
  patch_cols (vol_args vol flt cp) = cols ->
  let st' := exec_call (unfold_call vol flt cp (mkPtr BTemp 0) image) st in
  (forall b a, b <> BTemp -> st' b a = st b a)
  /\ forall p q,
       (0 <= p < rows)%Z -> (0 <= q < cols)%Z ->
       st' BTemp (p + rows * q)%Z
       = patch st (vol_args vol flt cp) (image_size vol * image) p q.
Proof.
  intros Hrows Hcols. cbv zeta. unfold unfold_call. cbn [exec_call]. split.
  - intros b a Hb'. apply exec_vol2row_other. exact Hb'.
  - intros p q Hp Hq.
    replace (p + rows * q)%Z
      with (poff (mkPtr BTemp 0)
            + (p + patch_rows ext (vol_args vol flt cp) * q))%Z
      by (rewrite Hrows; cbn [poff]; lia).
    apply (exec_vol2row_inside (mkPtr BTemp 0)
             (mkPtr BData (image_size vol * image)) (vol_args vol flt cp)
             st p q).
    + rewrite Hrows. exact Hp.
    + rewrite Hcols. exact Hq.
Qed.

Section BackwardValues.

Variable dataType : vlType.
Variables derData derFilters derBiases data filters derOutput : Tensor.
Variable cp : ConvParams.
Hypothesis Hvalid :
  valid_backward derData derFilters derBiases data filters derOutput cp.

Let numGroups := backward_numGroups derData derFilters data filters.
Let filtersVolume := backward_filtersVolume derData derFilters filters.
Let numFiltersPerGroup := Z.quot (getDimension derOutput 3) numGroups.
Let numOutputPixels :=
  (getDimension derOutput 0 * getDimension derOutput 1
   * getDimension derOutput 2)%Z.

(** The bias-gradient branch of one image. *)
Lemma backward_bias_effect (st0 stX : Store) (image : Z) :
  present derBiases = true ->
  (forall a, stX BDerOutput a = st0 BDerOutput a) ->
  (forall p, (0 <= p < numOutputPixels)%Z -> stX BAllOnes p = sone) ->
  let stY :=
    exec_call
      (backward_bias_call dataType derOutput numOutputPixels
         (mkPtr BAllOnes 0) (image_size derOutput * image) image) stX in
  (forall b a, b <> BDerBiases -> stY b a = stX b a)
  /\ (forall c,
         (0 <= c < getDimension derOutput 3)%Z ->
         stY BDerBiases c
         = (bias_gradient_image st0 derOutput image c
            + (if (image >? 0)%Z then sone else szero)
              * stX BDerBiases c)%K).
Proof.
  intros Hpb HdO Hones. cbv zeta.
  destruct Hvalid as (Hg & Hn & Hoc & Hnop & Hfv & Hd & Hf & Hb).
  specialize (Hb Hpb).
  unfold backward_bias_call. cbv zeta. cbn [exec_call typed sc_val].
  rewrite Hb. split.
  - intros b a Hb'. apply exec_gemv_other. exact Hb'.
  - intros c Hc.
    replace c with (poff (mkPtr BDerBiases 0) + c)%Z at 1 by (cbn [poff]; lia).
    change BDerBiases with (pbuf (mkPtr BDerBiases 0)) at 1.
    rewrite exec_gemv_inside by exact Hc.
    cbn [pbuf poff]. rewrite Z.add_0_l.
    f_equal. unfold gemv_entry, bias_gradient_image. cbv zeta.
    fold numOutputPixels.
    transitivity
      (ssum (Z.to_nat numOutputPixels) (fun l =>
         (load stX (mkPtr BDerOutput (image_size derOutput * image))
               (l + c * numOutputPixels)
          * load stX (mkPtr BAllOnes 0) (l * 1))%K)).
    { ring. }
    apply ssum_ext. intros l Hl. unfold load. cbn [pbuf poff].
    rewrite HdO.
    replace (0 + l * 1)%Z with l by lia.
    rewrite Hones by lia.
    replace (image_size derOutput * image + (l + c * numOutputPixels))%Z
      with (image_size derOutput * image + (l + numOutputPixels * c))%Z by ring.
    ring.
Qed.

(** The workspace after the group loop of the input-gradient branch. *)
Lemma backward_data_groups_effect (st0 stX : Store) (image : Z) :
  (forall a, stX BDerOutput a = st0 BDerOutput a) ->
  (forall a, stX BFilters a = st0 BFilters a) ->
  let stY :=
    exec_calls
      (map (backward_data_call numFiltersPerGroup numOutputPixels
              filtersVolume (mkPtr BTemp 0) (image_size derOutput * image))
           (upto numGroups)) stX in
  (forall b a, b <> BTemp -> stY b a = stX b a)
  /\ (forall p q,
         (0 <= p < numOutputPixels)%Z ->
         (0 <= q < filtersVolume * numGroups)%Z ->
         stY BTemp (p + numOutputPixels * q)%Z
         = output_gradient_patch st0 derOutput numFiltersPerGroup
             filtersVolume image p q).
Proof.
  destruct Hvalid as (Hg & Hn & Hoc & Hnop & Hfv & Hd & Hf & Hb).
  fold numGroups in Hg, Hn, Hoc. fold numFiltersPerGroup in Hn, Hoc.
  fold numOutputPixels in Hnop. fold filtersVolume in Hfv.
  intros HdO Hfilt. cbv zeta.
  set (P := fun (g : Z) (st : Store) =>
    (forall b a, b <> BTemp -> st b a = stX b a)
    /\ (forall p q,
           (0 <= p < numOutputPixels)%Z ->
           (0 <= q < filtersVolume * g)%Z ->
           st BTemp (p + numOutputPixels * q)%Z
           = output_gradient_patch st0 derOutput numFiltersPerGroup
               filtersVolume image p q)).
  assert (HP : P (0 + Z.of_nat (Z.to_nat numGroups))%Z
                 (exec_calls
                    (map (backward_data_call numFiltersPerGroup
                            numOutputPixels filtersVolume (mkPtr BTemp 0)
                            (image_size derOutput * image))
                         (range 0 (Z.to_nat numGroups))) stX)).
  { apply exec_calls_map_inv.
    - unfold P. split; intros; [reflexivity|lia].
    - intros g st Hgr (I1 & I2). unfold P.
      unfold backward_data_call, padd. cbv zeta.
      cbn [exec_call sc_val pbuf poff].
      split.
      + intros b a Hb'. rewrite exec_gemm_other by exact Hb'. apply I1, Hb'.
      + intros p q Hp Hq.
        destruct (Z.lt_ge_cases q (filtersVolume * g)) as [Hlt|Hge].
        * assert (Hx : (p + numOutputPixels * q
                        < numOutputPixels * (filtersVolume * g))%Z) by nia.
          change BTemp with
            (pbuf (mkPtr BTemp (0 + numOutputPixels * filtersVolume * g))) at 1.
          rewrite exec_gemm_outside
            by (cbn [poff];
                replace (numOutputPixels * filtersVolume * g)%Z
                  with (numOutputPixels * (filtersVolume * g))%Z by ring;
                lia).
          apply I2; [exact Hp|lia].
        * set (k := (q - filtersVolume * g)%Z).
          assert (Hk : (0 <= k < filtersVolume)%Z) by (unfold k; nia).
          replace (p + numOutputPixels * q)%Z
            with (poff (mkPtr BTemp (0 + numOutputPixels * filtersVolume * g))
                  + (p + numOutputPixels * k))%Z
            by (cbn [poff]; unfold k; ring).
          change BTemp with
            (pbuf (mkPtr BTemp (0 + numOutputPixels * filtersVolume * g))) at 1.
          rewrite exec_gemm_inside by assumption.
          transitivity
            (gemm_entry st NoTrans Transposed numFiltersPerGroup
               (mkPtr BDerOutput
                  (image_size derOutput * image
                   + numOutputPixels * numFiltersPerGroup * g))
               numOutputPixels
               (mkPtr BFilters (filtersVolume * numFiltersPerGroup * g))
               filtersVolume p k).
          { ring. }
          unfold gemm_entry, output_gradient_patch. cbv zeta.
          fold numOutputPixels.
          assert (Hqg : (q / filtersVolume = g)%Z).
          { symmetry. apply (Z.div_unique q filtersVolume g k); [lia|].
            unfold k. ring. }
          assert (Hqk : (q mod filtersVolume = k)%Z).
          { symmetry. apply (Z.mod_unique q filtersVolume g k); [lia|].
            unfold k. ring. }
          rewrite Hqg, Hqk.
          apply ssum_ext. intros l Hl. unfold load. cbn [pbuf poff].
          rewrite !I1 by discriminate. rewrite HdO, Hfilt.
          f_equal; f_equal; ring. }
  rewrite upto_range in HP by lia. exact HP.
Qed.

(** The input-gradient branch of one image. *)
Lemma backward_data_effect (st0 stX : Store) (image : Z) :
  present derData = true ->
  (forall a, stX BDerOutput a = st0 BDerOutput a) ->
  (forall a, stX BFilters a = st0 BFilters a) ->
  let off := (image_size derData * image)%Z in
  let stY :=
    exec_calls
      (map (backward_data_call numFiltersPerGroup numOutputPixels
              filtersVolume (mkPtr BTemp 0) (image_size derOutput * image))
           (upto numGroups)
       ++ [fold_call derData filters cp (mkPtr BTemp 0) image]) stX in
  (forall b a, b <> BTemp -> b <> BDerData -> stY b a = stX b a)
  /\ (forall a, ~ (off <= a < off + image_size derData)%Z ->
                stY BDerData a = stX BDerData a)
  /\ (forall j,
         (0 <= j < image_size derData)%Z ->
         stY BDerData (off + j)%Z
         = input_gradient st0 derData filters derOutput cp numGroups
             numFiltersPerGroup filtersVolume image j).
Proof.
  intros Hpd HdO Hfilt. cbv zeta.
  destruct (backward_data_groups_effect st0 stX image HdO Hfilt) as [G1 G2].
  rewrite exec_calls_app.
  set (stT := exec_calls (map _ (upto numGroups)) stX) in *.
  destruct Hvalid as (Hg & Hn & Hoc & Hnop & Hfv & Hd & Hf & Hb).
  destruct (Hd Hpd) as (Hfc & Hdc & Hsz & Hrows).
  fold numGroups in Hg, Hdc. fold numOutputPixels in Hnop, Hrows.
  fold filtersVolume in Hfv.
  assert (Hfvd : filtersVolume = filter_volume filters).
  { unfold filtersVolume, backward_filtersVolume. rewrite Hpd. reflexivity. }
  assert (Hcols : patch_cols (vol_args derData filters cp)
                  = (filtersVolume * numGroups)%Z).
  { unfold patch_cols, vol_args.
    cbn [va_windowHeight va_windowWidth va_windowTime va_depth].
    rewrite Hdc, Hfvd. unfold filter_volume. ring. }
  assert (Hvol : vol_size (vol_args derData filters cp) = image_size derData).
  { reflexivity. }
  unfold fold_call. cbv zeta. cbn [exec_calls fold_left exec_call].
  split; [|split].
  - intros b a Hb1 Hb2. rewrite exec_row2vol_other by exact Hb2.
    apply G1. exact Hb1.
  - intros a Ha.
    change BDerData with (pbuf (mkPtr BDerData (image_size derData * image))) at 1.
    rewrite exec_row2vol_outside by (cbn [poff]; rewrite Hvol; exact Ha).
    apply G1. discriminate.
  - intros j Hj.
    change (image_size derData * image + j)%Z
      with (poff (mkPtr BDerData (image_size derData * image)) + j)%Z.
    change BDerData with (pbuf (mkPtr BDerData (image_size derData * image))) at 1.
    rewrite exec_row2vol_inside by (rewrite Hvol; exact Hj).
    unfold fold_entry, input_gradient. cbv zeta.
    rewrite Hcols, Hrows. fold numOutputPixels.
    apply ssum_ext. intros q Hq. apply ssum_ext. intros p Hp.
    destruct (patch_src ext (vol_args derData filters cp) p q) as [j'|];
      [|reflexivity].
    destruct (j' =? j)%Z; [|reflexivity].
    unfold load. cbn [pbuf poff]. rewrite Z.add_0_l.
    apply G2; lia.
Qed.

(** The filter-gradient branch of one image. *)
Lemma backward_filter_effect (st0 stX : Store) (image : Z) :
  present derFilters = true ->
  (forall a, stX BData a = st0 BData a) ->
  (forall a, stX BDerOutput a = st0 BDerOutput a) ->
  let stY :=
    exec_calls
      (unfold_call data derFilters cp (mkPtr BTemp 0) image
       :: map (backward_filter_call dataType numFiltersPerGroup
                 numOutputPixels filtersVolume (mkPtr BTemp 0)
                 (image_size derOutput * image) image)
              (upto numGroups)) stX in
  (forall b a, b <> BTemp -> b <> BDerFilters -> stY b a = stX b a)
  /\ (forall k c,
         (0 <= k < filtersVolume)%Z ->
         (0 <= c < numFiltersPerGroup * numGroups)%Z ->
         stY BDerFilters (k + filtersVolume * c)%Z
         = (filter_gradient_image st0 data derFilters derOutput cp
              numFiltersPerGroup filtersVolume image k c
            + (if (image >? 0)%Z then sone else szero)
              * stX BDerFilters (k + filtersVolume * c)%Z)%K).
Proof.
  intros Hpf Hdata HdO. cbv zeta.
  destruct Hvalid as (Hg & Hn & Hoc & Hnop & Hfv & Hd & Hf & Hb).
  destruct (Hf Hpf) as (Hfc & Hdc & Hfvf & Hrows).
  fold numGroups in Hg, Hn, Hoc, Hdc. fold numFiltersPerGroup in Hn, Hoc.
  fold numOutputPixels in Hnop, Hrows. fold filtersVolume in Hfv, Hfvf.
  assert (Hcols : patch_cols (vol_args data derFilters cp)
                  = (filtersVolume * numGroups)%Z).
  { unfold patch_cols, vol_args.
    cbn [va_windowHeight va_windowWidth va_windowTime va_depth].
    rewrite Hdc, <- Hfvf. unfold filter_volume. ring. }
  rewrite exec_calls_cons.
  destruct (unfold_effect data derFilters cp image stX _ _ Hrows Hcols)
    as [A1 A2].
  set (stA := exec_call (unfold_call data derFilters cp (mkPtr BTemp 0) image)
                stX) in *.
  set (P := fun (g : Z) (st : Store) =>
    (forall b a, b <> BDerFilters -> st b a = stA b a)
    /\ (forall a,
           ~ (0 <= a < filtersVolume * (numFiltersPerGroup * g))%Z ->
           st BDerFilters a = stA BDerFilters a)
    /\ (forall k c,
           (0 <= k < filtersVolume)%Z ->
           (0 <= c < numFiltersPerGroup * g)%Z ->
           st BDerFilters (k + filtersVolume * c)%Z
           = (filter_gradient_image st0 data derFilters derOutput cp
                numFiltersPerGroup filtersVolume image k c
              + (if (image >? 0)%Z then sone else szero)
                * stA BDerFilters (k + filtersVolume * c)%Z)%K)).
  assert (HP : P (0 + Z.of_nat (Z.to_nat numGroups))%Z
                 (exec_calls
                    (map (backward_filter_call dataType numFiltersPerGroup
                            numOutputPixels filtersVolume (mkPtr BTemp 0)
                            (image_size derOutput * image) image)
                         (range 0 (Z.to_nat numGroups))) stA)).
  { apply exec_calls_map_inv.
    - unfold P. repeat split; intros; try reflexivity. lia.
    - intros g st Hgr (I1 & I2 & I3). unfold P.
      unfold backward_filter_call, padd. cbv zeta.
      cbn [exec_call typed sc_val pbuf poff].
      split; [|split].
      + intros b a Hb'. rewrite exec_gemm_other by exact Hb'. apply I1, Hb'.
      + intros a Ha.
        change BDerFilters with
          (pbuf (mkPtr BDerFilters (filtersVolume * numFiltersPerGroup * g))) at 1.
        rewrite exec_gemm_outside by (cbn [poff]; nia).
        apply I2. nia.
      + intros k c Hk Hc.
        destruct (Z.lt_ge_cases c (numFiltersPerGroup * g)) as [Hlt|Hge].
        * assert (Hx : (k + filtersVolume * c
                        < filtersVolume * (numFiltersPerGroup * g))%Z) by nia.
          change BDerFilters with
            (pbuf (mkPtr BDerFilters
                     (filtersVolume * numFiltersPerGroup * g))) at 1.
          rewrite exec_gemm_outside
            by (cbn [poff];
                replace (filtersVolume * numFiltersPerGroup * g)%Z
                  with (filtersVolume * (numFiltersPerGroup * g))%Z by ring;
                lia).
          apply I3; [exact Hk|lia].
        * set (f := (c - numFiltersPerGroup * g)%Z).
          assert (Hf' : (0 <= f < numFiltersPerGroup)%Z) by (unfold f; nia).
          replace (k + filtersVolume * c)%Z
            with (poff (mkPtr BDerFilters
                          (filtersVolume * numFiltersPerGroup * g))
                  + (k + filtersVolume * f))%Z
            by (cbn [poff]; unfold f; ring).
          change BDerFilters with
            (pbuf (mkPtr BDerFilters
                     (filtersVolume * numFiltersPerGroup * g))) at 1.
          rewrite exec_gemm_inside by assumption.
          cbn [pbuf poff].
          rewrite I2 by nia.
          transitivity
            (gemm_entry st Transposed NoTrans numOutputPixels
               (mkPtr BTemp (0 + numOutputPixels * filtersVolume * g))
               numOutputPixels
               (mkPtr BDerOutput
                  (image_size derOutput * image
                   + numOutputPixels * numFiltersPerGroup * g))
               numOutputPixels k f
             + (if (image >? 0)%Z then sone else szero)
               * stA BDerFilters
                   (filtersVolume * numFiltersPerGroup * g
                    + (k + filtersVolume * f))%Z)%K.
          { ring. }
          f_equal.
          unfold gemm_entry, filter_gradient_image. cbv zeta.
          fold numOutputPixels.
          assert (Hcg : (c / numFiltersPerGroup = g)%Z).
          { symmetry. apply (Z.div_unique c numFiltersPerGroup g f); [lia|].
            unfold f. ring. }
          rewrite Hcg.
          apply ssum_ext. intros l Hl. unfold load. cbn [pbuf poff].
          rewrite !I1 by discriminate.
          rewrite (A1 BDerOutput) by discriminate.
          rewrite HdO. f_equal.
          -- replace (0 + numOutputPixels * filtersVolume * g
                      + (l + k * numOutputPixels))%Z
               with (l + numOutputPixels * (g * filtersVolume + k))%Z by ring.
             rewrite A2 by nia. apply patch_ext, Hdata.
          -- f_equal. unfold f. ring. }
  rewrite upto_range in HP by lia.
  destruct HP as (P1 & P2 & P3).
  split.
  - intros b a Hb1 Hb2. rewrite P1 by exact Hb2. apply A1. exact Hb1.
  - intros k c Hk Hc. rewrite P3 by assumption.
    rewrite A1 by discriminate. reflexivity.
Qed.

(** One iteration of the backward loop. [st0] is the store the call
    started in. *)
Lemma backward_image_effect (st0 stX : Store) (image : Z) :
  (forall a, stX BData a = st0 BData a) ->
  (forall a, stX BFilters a = st0 BFilters a) ->
  (forall a, stX BDerOutput a = st0 BDerOutput a) ->
  (present derBiases = true ->
   forall p, (0 <= p < numOutputPixels)%Z -> stX BAllOnes p = sone) ->
  let stY :=
    exec_calls
      (backward_image_plan dataType derData derFilters derBiases data filters
         derOutput cp numGroups numFiltersPerGroup numOutputPixels
         filtersVolume (mkPtr BTemp 0) (mkPtr BAllOnes 0) image) stX in
  (forall b a,
      b <> BTemp -> b <> BDerBiases -> b <> BDerData -> b <> BDerFilters ->
      stY b a = stX b a)
  /\ (present derBiases = true ->
      forall c,
        (0 <= c < getDimension derOutput 3)%Z ->
        stY BDerBiases c
        = (bias_gradient_image st0 derOutput image c
           + (if (image >? 0)%Z then sone else szero) * stX BDerBiases c)%K)
  /\ (forall a,
         ~ (image_size derData * image <= a
            < image_size derData * image + image_size derData)%Z ->
         stY BDerData a = stX BDerData a)
  /\ (present derData = true ->
      forall j,
        (0 <= j < image_size derData)%Z ->
        stY BDerData (image_size derData * image + j)%Z
        = input_gradient st0 derData filters derOutput cp numGroups
            numFiltersPerGroup filtersVolume image j)
  /\ (present derFilters = true ->
      forall k c,
        (0 <= k < filtersVolume)%Z ->
        (0 <= c < numFiltersPerGroup * numGroups)%Z ->
        stY BDerFilters (k + filtersVolume * c)%Z
        = (filter_gradient_image st0 data derFilters derOutput cp
             numFiltersPerGroup filtersVolume image k c
           + (if (image >? 0)%Z then sone else szero)
             * stX BDerFilters (k + filtersVolume * c)%Z)%K).
Proof.
  intros Hdata Hfilt HdO Hones. cbv zeta.
  unfold backward_image_plan. cbv zeta. rewrite !exec_calls_app.
  (* the bias-gradient branch *)
  set (s1 := exec_calls
               (if present derBiases
                then [backward_bias_call dataType derOutput numOutputPixels
                        (mkPtr BAllOnes 0) (image_size derOutput * image) image]
                else []) stX).
  assert (H1 : (forall b a, b <> BDerBiases -> s1 b a = stX b a)
               /\ (present derBiases = true ->
                   forall c,
                     (0 <= c < getDimension derOutput 3)%Z ->
                     s1 BDerBiases c
                     = (bias_gradient_image st0 derOutput image c
                        + (if (image >? 0)%Z then sone else szero)
                          * stX BDerBiases c)%K)).
  { unfold s1. destruct (present derBiases) eqn:E.
    - destruct (backward_bias_effect st0 stX image E HdO (Hones eq_refl))
        as [F1 F2].
      split; [exact F1|intros _; exact F2].
    - split; [reflexivity|discriminate]. }
  destruct H1 as [F1 V1].
  (* the input-gradient branch *)
  set (s2 := exec_calls
               (if present derData
                then map (backward_data_call numFiltersPerGroup
                            numOutputPixels filtersVolume (mkPtr BTemp 0)
                            (image_size derOutput * image))
                         (upto numGroups)
                     ++ [fold_call derData filters cp (mkPtr BTemp 0) image]
                else []) s1).
  assert (H2 : (forall b a, b <> BTemp -> b <> BDerData -> s2 b a = s1 b a)
               /\ (forall a,
                      ~ (image_size derData * image <= a
                         < image_size derData * image + image_size derData)%Z ->
                      s2 BDerData a = s1 BDerData a)
               /\ (present derData = true ->
                   forall j,
                     (0 <= j < image_size derData)%Z ->
                     s2 BDerData (image_size derData * image + j)%Z
                     = input_gradient st0 derData filters derOutput cp
                         numGroups numFiltersPerGroup filtersVolume image j)).
  { unfold s2. destruct (present derData) eqn:E.
    - destruct (backward_data_effect st0 s1 image E) as (D1 & D2 & D3).
      + intros a. rewrite F1 by discriminate. apply HdO.
      + intros a. rewrite F1 by discriminate. apply Hfilt.
      + split; [exact D1|split; [exact D2|intros _; exact D3]].
    - split; [reflexivity|split; [reflexivity|discriminate]]. }
  destruct H2 as (F2 & O2 & V2).
  (* the filter-gradient branch *)
  set (s3 := exec_calls
               (if present derFilters
                then unfold_call data derFilters cp (mkPtr BTemp 0) image
                     :: map (backward_filter_call dataType numFiltersPerGroup
                               numOutputPixels filtersVolume (mkPtr BTemp 0)
                               (image_size derOutput * image) image)
                            (upto numGroups)
                else []) s2).
  assert (H3 : (forall b a, b <> BTemp -> b <> BDerFilters -> s3 b a = s2 b a)
               /\ (present derFilters = true ->
                   forall k c,
                     (0 <= k < filtersVolume)%Z ->
                     (0 <= c < numFiltersPerGroup * numGroups)%Z ->
                     s3 BDerFilters (k + filtersVolume * c)%Z
                     = (filter_gradient_image st0 data derFilters derOutput cp
                          numFiltersPerGroup filtersVolume image k c
                        + (if (image >? 0)%Z then sone else szero)
                          * s2 BDerFilters (k + filtersVolume * c)%Z)%K)).
  { unfold s3. destruct (present derFilters) eqn:E.
    - destruct (backward_filter_effect st0 s2 image E) as (W1 & W2).
      + intros a. rewrite F2 by discriminate. rewrite F1 by discriminate.
        apply Hdata.
      + intros a. rewrite F2 by discriminate. rewrite F1 by discriminate.
        apply HdO.
      + split; [exact W1|intros _; exact W2].
    - split; [reflexivity|discriminate]. }
  destruct H3 as (F3 & V3).
  split; [|split; [|split; [|split]]].
  - intros b a Hb1 Hb2 Hb3 Hb4.
    rewrite F3, F2, F1 by assumption. reflexivity.
  - intros Hp c Hc. rewrite F3, F2 by discriminate. apply V1; assumption.
  - intros a Ha. rewrite F3 by discriminate. rewrite O2 by exact Ha.
    apply F1. discriminate.
  - intros Hp j Hj. rewrite F3 by discriminate. apply V2; assumption.
  - intros Hp k c Hk Hc. rewrite V3 by assumption.
    rewrite F2, F1 by discriminate. reflexivity.
Qed.

Lemma ssum_succ (i : Z) (f : Z -> K) :
  (0 <= i)%Z ->
  ssum (Z.to_nat (i + 1)) f = (ssum (Z.to_nat i) f + f i)%K.
Proof.
  intros Hi. replace (Z.to_nat (i + 1)) with (S (Z.to_nat i)) by lia.
  simpl. rewrite Z2Nat.id by exact Hi. reflexivity.
Qed.

(** The three gradients after the whole backward loop, started in [st1],
    which is the caller's store [st0] with, when the bias gradient is
    requested, the ones vector in place. *)
Lemma backward_loop_effect (st0 st1 : Store) :
  (forall b a, b <> BAllOnes -> st1 b a = st0 b a) ->
  (present derBiases = true ->
   forall p, (0 <= p < numOutputPixels)%Z -> st1 BAllOnes p = sone) ->
  let stF :=
    exec_calls
      (backward_loop_plan dataType derData derFilters derBiases data filters
         derOutput cp) st1 in
  let batch := getDimension derOutput 4 in
  (present derBiases = true ->
   (0 < batch)%Z ->
   forall c,
     (0 <= c < getDimension derOutput 3)%Z ->
     stF BDerBiases c
     = ssum (Z.to_nat batch)
         (fun image => bias_gradient_image st0 derOutput image c))
  /\ (present derData = true ->
      forall image j,
        (0 <= image < batch)%Z ->
        (0 <= j < image_size derData)%Z ->
        stF BDerData (image_size derData * image + j)%Z
        = input_gradient st0 derData filters derOutput cp numGroups
            numFiltersPerGroup filtersVolume image j)
  /\ (present derFilters = true ->
      (0 < batch)%Z ->
      forall k c,
        (0 <= k < filtersVolume)%Z ->
        (0 <= c < numFiltersPerGroup * numGroups)%Z ->
        stF BDerFilters (k + filtersVolume * c)%Z
        = ssum (Z.to_nat batch)
            (fun image =>
               filter_gradient_image st0 data derFilters derOutput cp
                 numFiltersPerGroup filtersVolume image k c)).
Proof.
  intros Hst1 Hones. cbv zeta.
  pose proof Hvalid as Hv.
  destruct Hv as (Hg & Hn & Hoc & Hnop & Hfv & Hd & Hf & Hb).
  set (R := fun (i : Z) (st : Store) =>
    (forall b a,
        b <> BTemp -> b <> BDerBiases -> b <> BDerData -> b <> BDerFilters ->
        st b a = st1 b a)
    /\ (present derBiases = true ->
        (0 < i)%Z ->
        forall c,
          (0 <= c < getDimension derOutput 3)%Z ->
          st BDerBiases c
          = ssum (Z.to_nat i)
              (fun image => bias_gradient_image st0 derOutput image c))
    /\ (present derData = true ->
        forall image j,
          (0 <= image < i)%Z ->
          (0 <= j < image_size derData)%Z ->
          st BDerData (image_size derData * image + j)%Z
          = input_gradient st0 derData filters derOutput cp numGroups
              numFiltersPerGroup filtersVolume image j)
    /\ (present derFilters = true ->
        (0 < i)%Z ->
        forall k c,
          (0 <= k < filtersVolume)%Z ->
          (0 <= c < numFiltersPerGroup * numGroups)%Z ->
          st BDerFilters (k + filtersVolume * c)%Z
          = ssum (Z.to_nat i)
              (fun image =>
                 filter_gradient_image st0 data derFilters derOutput cp
                   numFiltersPerGroup filtersVolume image k c))).
  destruct (Z.le_gt_cases 0 (getDimension derOutput 4)) as [Hn0|Hn0].
  2:{ repeat split; intros; lia. }
  assert (HR : R (0 + Z.of_nat (Z.to_nat (getDimension derOutput 4)))%Z
                 (exec_calls
                    (backward_loop_plan dataType derData derFilters derBiases
                       data filters derOutput cp) st1)).
  { unfold backward_loop_plan. cbv zeta. unfold upto.
    fold numGroups. fold filtersVolume. fold numFiltersPerGroup.
    fold numOutputPixels.
    apply exec_calls_flat_map_inv.
    - unfold R. repeat split; intros; try reflexivity; lia.
    - intros i st Hi (R1 & R2 & R3 & R4).
      destruct (backward_image_effect st0 st i)
        as (E1 & E2 & E3 & E4 & E5).
      { intros a. rewrite R1 by discriminate. apply Hst1. discriminate. }
      { intros a. rewrite R1 by discriminate. apply Hst1. discriminate. }
      { intros a. rewrite R1 by discriminate. apply Hst1. discriminate. }
      { intros Hp p Hpr. rewrite R1 by discriminate. apply Hones; assumption. }
      unfold R. split; [|split; [|split]].
      + intros b a Hb1 Hb2 Hb3 Hb4. rewrite E1 by assumption.
        apply R1; assumption.
      + intros Hp _ c Hc. rewrite (E2 Hp c Hc).
        rewrite ssum_succ by lia.
        destruct (Z.eq_dec i 0) as [->|Hi0].
        * simpl. ring.
        * rewrite (R2 Hp ltac:(lia) c Hc).
          destruct (Z.gtb_spec i 0); [ring|lia].
      + intros Hp image j Himg Hj.
        destruct (Hd Hp) as (_ & _ & Hsz & _).
        destruct (Z.lt_ge_cases image i) as [Hlt|Hge].
        * rewrite E3 by nia. apply (R3 Hp); [lia|exact Hj].
        * assert (image = i) by lia. subst image.
          apply (E4 Hp). exact Hj.
      + intros Hp _ k c Hk Hc. rewrite (E5 Hp k c Hk Hc).
        rewrite ssum_succ by lia.
        destruct (Z.eq_dec i 0) as [->|Hi0].
        * simpl. ring.
        * rewrite (R4 Hp ltac:(lia) k c Hk Hc).
          destruct (Z.gtb_spec i 0); [ring|lia]. }
  rewrite upto_range in HR by exact Hn0.
  destruct HR as (_ & R2 & R3 & R4).
  split; [exact R2|split; [exact R3|exact R4]].
Qed.

(** The store a successful backward call ends in. *)
Lemma backward_gradients (st : Store) (lastError : Error) :
  all_succeed ->
  let r := run (nnconv3d_backward_blas dataType derData derFilters derBiases
                  data filters derOutput cp) (initial st lastError) in
  let batch := getDimension derOutput 4 in
  ((0 < batch)%Z -> snd r = Returned (Some vlSuccess))
  /\ (present derBiases = true ->
      (0 < batch)%Z ->
      forall c,
        (0 <= c < getDimension derOutput 3)%Z ->
        st_store (fst r) BDerBiases c
        = ssum (Z.to_nat batch)
            (fun image => bias_gradient_image st derOutput image c))
  /\ (present derData = true ->
      forall image j,
        (0 <= image < batch)%Z ->
        (0 <= j < image_size derData)%Z ->
        st_store (fst r) BDerData (image_size derData * image + j)%Z
        = input_gradient st derData filters derOutput cp numGroups
            numFiltersPerGroup filtersVolume image j)
  /\ (present derFilters = true ->
      (0 < batch)%Z ->
      forall k c,
        (0 <= k < filtersVolume)%Z ->
        (0 <= c < numFiltersPerGroup * numGroups)%Z ->
        st_store (fst r) BDerFilters (k + filtersVolume * c)%Z
        = ssum (Z.to_nat batch)
            (fun image =>
               filter_gradient_image st data derFilters derOutput cp
                 numFiltersPerGroup filtersVolume image k c)).
Proof.
  intros Hok. cbv zeta.
  pose proof (valid_backward_defined _ _ _ _ _ _ _ Hvalid) as Hz.
  split.
  - intros Hpos. apply backward_succeeds; assumption.
  - rewrite backward_run_ok by assumption.
    cbn [fst st_store]. unfold backward_calls. rewrite !exec_calls_app.
    apply backward_loop_effect.
    + intros b a Hb'.
      destruct (backward_tempVolume derData derFilters data filters derOutput
                =? 0)%Z;
        destruct (present derBiases);
        cbn [exec_calls fold_left exec_call backward_allOnes_call
             backward_workspace_call];
        try reflexivity;
        unfold exec_allOnes; rewrite (Buf_eqb_neq _ _ Hb'); reflexivity.
    + intros Hpb p Hp. rewrite Hpb.
      assert (Hone : exec_calls [backward_allOnes_call dataType derOutput] st
                       BAllOnes p = sone).
      { cbn [exec_calls fold_left exec_call backward_allOnes_call].
        unfold exec_allOnes. fold numOutputPixels. cbn [Buf_eqb].
        destruct (Z.leb_spec 0 p); [|lia].
        destruct (Z.ltb_spec p numOutputPixels); [|lia]. reflexivity. }
      destruct (backward_tempVolume derData derFilters data filters derOutput
                =? 0)%Z; exact Hone.
Qed.

Lemma input_gradient_ext (st st2 : Store) (image j : Z) :
  (forall a,
      (image_size derOutput * image <= a
       < image_size derOutput * image + image_size derOutput)%Z ->
      st2 BDerOutput a = st BDerOutput a) ->
  (forall a, st2 BFilters a = st BFilters a) ->
  input_gradient st2 derData filters derOutput cp numGroups
    numFiltersPerGroup filtersVolume image j
  = input_gradient st derData filters derOutput cp numGroups
      numFiltersPerGroup filtersVolume image j.
Proof.
  intros HdO Hfilt.
  destruct Hvalid as (Hg & Hn & Hoc & Hnop & Hfv & Hd & Hf & Hb).
  fold numGroups in Hg, Hn, Hoc. fold numFiltersPerGroup in Hn, Hoc.
  fold numOutputPixels in Hnop. fold filtersVolume in Hfv.
  assert (Hosz : image_size derOutput
                 = (numOutputPixels * (numFiltersPerGroup * numGroups))%Z).
  { unfold image_size. rewrite Hoc. reflexivity. }
  unfold input_gradient. cbv zeta. fold numOutputPixels.
  apply ssum_ext. intros q Hq. apply ssum_ext. intros p Hp.
  destruct (patch_src ext (vol_args derData filters cp) p q) as [j'|];
    [|reflexivity].
  destruct (j' =? j)%Z; [|reflexivity].
  unfold output_gradient_patch. cbv zeta. fold numOutputPixels.
  apply ssum_ext. intros f Hf'.
  rewrite Hfilt. f_equal. apply HdO. rewrite Hosz.
  assert (Hfvpos : (0 < filtersVolume)%Z) by nia.
  assert (Hq0 : (0 <= q / filtersVolume)%Z) by (apply Z.div_pos; lia).
  assert (Hq1 : (q / filtersVolume < numGroups)%Z)
    by (apply Z.div_lt_upper_bound; lia).
  set (g := (q / filtersVolume)%Z) in *.
  assert (Hc : (0 <= g * numFiltersPerGroup + f
                < numFiltersPerGroup * numGroups)%Z) by nia.
  set (c := (g * numFiltersPerGroup + f)%Z) in *.
  assert (Hpc : (0 <= p + numOutputPixels * c
                 < numOutputPixels * (numFiltersPerGroup * numGroups))%Z)
    by nia.
  lia.
Qed.

(** C3. When the input gradient is requested, on consistent shapes and when
    nothing fails: each per-group multiply of the branch has [alpha = 1] and
    [beta = 0]; the input gradient of every image is the fold of
    [outputGrad_g * filter_g^T] over the groups, every position receiving
    the sum of the patch entries taken from it; and it depends on the output
    gradient of that image and the filters only, not on other images nor on
    what the destination or the workspace held. *)
Theorem input_gradient_is_folded_per_image (st : Store) (lastError : Error) :
  all_succeed ->
  present derData = true ->
  let r := run (nnconv3d_backward_blas dataType derData derFilters derBiases
                  data filters derOutput cp) (initial st lastError) in
  let batch := getDimension derOutput 4 in
  (forall image g,
      exists ta tb m n k A lda B ldb C ldc,
        backward_data_call numFiltersPerGroup numOutputPixels filtersVolume
          (mkPtr BTemp 0) (image_size derOutput * image) g
        = CGemm ta tb m n k (mkScale vlTypeFloat sone) A lda B ldb
                (mkScale vlTypeFloat szero) C ldc)
  /\ (forall image j,
         (0 <= image < batch)%Z ->
         (0 <= j < image_size derData)%Z ->
         st_store (fst r) BDerData (image_size derData * image + j)%Z
         = input_gradient st derData filters derOutput cp numGroups
             numFiltersPerGroup filtersVolume image j)
  /\ (forall (st2 : Store) (lastError2 : Error) image j,
         (0 <= image < batch)%Z ->
         (0 <= j < image_size derData)%Z ->
         (forall a,
             (image_size derOutput * image <= a
              < image_size derOutput * image + image_size derOutput)%Z ->
             st2 BDerOutput a = st BDerOutput a) ->
         (forall a, st2 BFilters a = st BFilters a) ->
         st_store
           (fst (run (nnconv3d_backward_blas dataType derData derFilters
                        derBiases data filters derOutput cp)
                     (initial st2 lastError2)))
           BDerData (image_size derData * image + j)%Z
         = st_store (fst r) BDerData (image_size derData * image + j)%Z).
Proof.
  intros Hok Hpd. cbv zeta.
  destruct (backward_gradients st lastError Hok) as (_ & _ & HD & _).
  split; [|split].
  - intros image g. unfold backward_data_call. cbv zeta.
    do 11 eexists. reflexivity.
  - intros image j Hi Hj. apply (HD Hpd); assumption.
  - intros st2 lastError2 image j Hi Hj HdO Hfilt.
    destruct (backward_gradients st2 lastError2 Hok) as (_ & _ & HD2 & _).
    rewrite (HD2 Hpd image j Hi Hj), (HD Hpd image j Hi Hj).
    apply input_gradient_ext; assumption.
Qed.

End BackwardValues.

(** *** Batches *)

Lemma filter_gradient_second_image (st : Store)
    (data derFilters derOutput : Tensor) (cp : ConvParams)
    (numFiltersPerGroup filtersVolume k c : Z) :
  filter_gradient_image (second_image data derOutput st) data derFilters
    derOutput cp numFiltersPerGroup filtersVolume 0 k c
  = filter_gradient_image st data derFilters derOutput cp numFiltersPerGroup
      filtersVolume 1 k c.
Proof.
  unfold filter_gradient_image. cbv zeta.
  apply ssum_ext. intros p Hp. f_equal.
  - unfold patch.
    destruct (patch_src ext (vol_args data derFilters cp) p _); [|reflexivity].
    unfold second_image. f_equal. lia.
  - unfold second_image. f_equal. lia.
Qed.

(** C4. On consistent shapes and when nothing fails, the filter gradient a
    backward call leaves is, for every weight, the sum over the images of
    [patch_g^T * outputGrad_g], whatever the destination held (the first
    image overwrites, the later ones accumulate); so the gradient of a batch
    of two images is the sum of the gradients of two calls on one image
    each. *)
Theorem filter_gradient_is_additive_over_the_batch dataType
    derData derFilters derBiases data filters derOutput cp
    (st : Store) (lastError : Error) :
  valid_backward derData derFilters derBiases data filters derOutput cp ->
  valid_backward (with_batch derData 1) derFilters derBiases
    (with_batch data 1) filters (with_batch derOutput 1) cp ->
  all_succeed ->
  present derFilters = true ->
  let numGroups := backward_numGroups derData derFilters data filters in
  let filtersVolume := backward_filtersVolume derData derFilters filters in
  let numFiltersPerGroup := Z.quot (getDimension derOutput 3) numGroups in
  let grad := fun (dD dt dO : Tensor) (s : Store) =>
    st_store
      (fst (run (nnconv3d_backward_blas dataType dD derFilters derBiases dt
                   filters dO cp) (initial s lastError))) BDerFilters in
  forall k c,
    (0 <= k < filtersVolume)%Z ->
    (0 <= c < numFiltersPerGroup * numGroups)%Z ->
    ((0 < getDimension derOutput 4)%Z ->
     grad derData data derOutput st (k + filtersVolume * c)%Z
     = ssum (Z.to_nat (getDimension derOutput 4))
         (fun image =>
            filter_gradient_image st data derFilters derOutput cp
              numFiltersPerGroup filtersVolume image k c))
    /\ (getDimension derOutput 4 = 2%Z ->
        grad derData data derOutput st (k + filtersVolume * c)%Z
        = (grad (with_batch derData 1) (with_batch data 1)
                (with_batch derOutput 1) st (k + filtersVolume * c)%Z
           + grad (with_batch derData 1) (with_batch data 1)
                  (with_batch derOutput 1)
                  (second_image data derOutput st)
                  (k + filtersVolume * c)%Z)%K).
Proof.
  intros Hv2 Hv1 Hok Hpf. cbv zeta. intros k c Hk Hc.
  destruct (backward_gradients dataType _ _ _ _ _ _ cp Hv2 st lastError Hok)
    as (_ & _ & _ & HF).
  split.
  - intros Hpos. apply (HF Hpf Hpos k c Hk Hc).
  - intros H2.
    rewrite (HF Hpf ltac:(lia) k c Hk Hc). rewrite H2.
    destruct (backward_gradients dataType _ _ _ _ _ _ cp Hv1 st lastError Hok)
      as (_ & _ & _ & HF1).
    destruct (backward_gradients dataType _ _ _ _ _ _ cp Hv1
                (second_image data derOutput st) lastError Hok)
      as (_ & _ & _ & HF1').
    assert (G1 :
      st_store
        (fst (run (nnconv3d_backward_blas dataType (with_batch derData 1)
                     derFilters derBiases (with_batch data 1) filters
                     (with_batch derOutput 1) cp) (initial st lastError)))
        BDerFilters
        (k + backward_filtersVolume derData derFilters filters * c)%Z
      = ssum 1 (fun image =>
          filter_gradient_image st data derFilters derOutput cp
            (Z.quot (getDimension derOutput 3)
               (backward_numGroups derData derFilters data filters))
            (backward_filtersVolume derData derFilters filters) image k c)).
    { exact (HF1 Hpf ltac:(simpl; lia) k c Hk Hc). }
    assert (G2 :
      st_store
        (fst (run (nnconv3d_backward_blas dataType (with_batch derData 1)
                     derFilters derBiases (with_batch data 1) filters
                     (with_batch derOutput 1) cp)
                  (initial (second_image data derOutput st) lastError)))
        BDerFilters
        (k + backward_filtersVolume derData derFilters filters * c)%Z
      = ssum 1 (fun image =>
          filter_gradient_image (second_image data derOutput st) data
            derFilters derOutput cp
            (Z.quot (getDimension derOutput 3)
               (backward_numGroups derData derFilters data filters))
            (backward_filtersVolume derData derFilters filters) image k c)).
    { exact (HF1' Hpf ltac:(simpl; lia) k c Hk Hc). }
    rewrite G1, G2. change (Z.to_nat 2) with 2%nat.
    rewrite !ssum_one. cbn [ssum Z.of_nat].
    rewrite filter_gradient_second_image.
    change (Z.pos (Pos.of_succ_nat 0)) with 1%Z. ring.
Qed.

(** ** The footprint of a multiply *)

Lemma in_matrix_range (d r c : Z) :
  in_matrix d r r c = true ->
  (0 <= d mod r < r)%Z /\ (0 <= d / r < c)%Z.
Proof.
  intros H. pose proof (in_matrix_block d r c H) as Hb.
  unfold in_matrix in H.
  apply andb_true_iff in H. destruct H as [H Hc].
  apply andb_true_iff in H. destruct H as [Hd Hr].
  apply Z.ltb_lt in Hr, Hc.
  assert (Hpos : (0 < r)%Z).
  { destruct (Z.lt_trichotomy r 0) as [Hneg|[Hz|Hpos]]; [| |exact Hpos].
    - pose proof (Z.mod_neg_bound d r Hneg). lia.
    - subst r. lia. }
  pose proof (Z.mod_pos_bound d r Hpos).
  pose proof (Z.div_pos d r ltac:(lia) Hpos). lia.
Qed.

Lemma in_operand_entry (p : Ptr) (r c i j : Z) :
  (0 <= i < r)%Z -> (0 <= j < c)%Z ->
  in_operand p r r c (pbuf p) (poff p + (i + j * r)) = true.
Proof.
  intros Hi Hj. unfold in_operand. rewrite Buf_eqb_refl.
  replace (poff p + (i + j * r) - poff p)%Z with (i + r * j)%Z by ring.
  apply (in_matrix_inside i j r c Hi Hj).
Qed.

(** X2. [touches] is the footprint of a tight multiply: it changes no other
    element, and what it leaves in the elements it touches depends on those
    elements only. *)
Theorem touches_is_the_footprint (c : Call) (st1 st2 : Store) :
  tight c = true ->
  (forall b a, touches c b a = false -> exec_call c st1 b a = st1 b a)
  /\ ((forall b a, touches c b a = true -> st1 b a = st2 b a) ->
      forall b a,
        touches c b a = true -> exec_call c st1 b a = exec_call c st2 b a).
Proof.
  destruct c as [| | | |ta tb m n k alpha A lda B ldb beta C ldc|];
    try discriminate.
  cbn [tight exec_call touches]. intros Ht.
  apply andb_true_iff in Ht. destruct Ht as [Ht Hldb].
  apply andb_true_iff in Ht. destruct Ht as [Hldc Hlda].
  apply Z.eqb_eq in Hldc, Hlda, Hldb. subst ldc.
  split.
  - intros b a H. apply orb_false_iff in H. destruct H as [_ H].
    unfold exec_gemm. cbv zeta. unfold in_operand in H. rewrite H.
    reflexivity.
  - intros Hagree b a Hta.
    unfold exec_gemm. cbv zeta.
    destruct (Buf_eqb b (pbuf C) && in_matrix (a - poff C) m m n) eqn:E;
      [|apply Hagree, Hta].
    apply andb_true_iff in E. destruct E as [_ E].
    apply in_matrix_range in E. destruct E as [Hi Hj].
    rewrite (Hagree b a Hta). f_equal. f_equal.
    unfold gemm_entry. apply ssum_ext. intros l Hl.
    assert (Hl' : (0 <= l < k)%Z) by lia.
    unfold load. f_equal.
    + destruct ta; subst lda; apply Hagree;
        apply orb_true_iff; left; apply orb_true_iff; left.
      * apply in_operand_entry; assumption.
      * apply in_operand_entry; assumption.
    + destruct tb; subst ldb; apply Hagree;
        apply orb_true_iff; left; apply orb_true_iff; right.
      * apply in_operand_entry; assumption.
      * apply in_operand_entry; assumption.
Qed.

(** The per-group multiplies of both pipelines are tight. *)
Lemma group_calls_tight dataType outputMult dataMult numFiltersPerGroup
    numOutputPixels filtersVolume tempMemory imageOffset image g :
  tight (forward_group_call dataType outputMult dataMult numFiltersPerGroup
           numOutputPixels filtersVolume tempMemory imageOffset g) = true
  /\ tight (backward_data_call numFiltersPerGroup numOutputPixels
              filtersVolume tempMemory imageOffset g) = true
  /\ tight (backward_filter_call dataType numFiltersPerGroup numOutputPixels
              filtersVolume tempMemory imageOffset image g) = true.
Proof.
  cbn [tight forward_group_call backward_data_call backward_filter_call].
  rewrite !Z.eqb_refl. repeat split.
Qed.

(** ** What a run may change *)

Lemma exec_call_frame (c : Call) (st : Store) (b : Buf) (a : Z) :
  writes c b a = false -> exec_call c st b a = st b a.
Proof.
  destruct c; cbn [writes exec_call]; intros H.
  - reflexivity.
  - unfold exec_allOnes. rewrite H. reflexivity.
  - unfold exec_vol2row, in_operand in *. cbv zeta. rewrite H. reflexivity.
  - unfold exec_row2vol. cbv zeta. rewrite H. reflexivity.
  - unfold exec_gemm, in_operand in *. cbv zeta. rewrite H. reflexivity.
  - unfold exec_gemv, in_operand in *. cbv zeta. rewrite H. reflexivity.
Qed.

Lemma exec_calls_frame (l : list Call) (st : Store) (b : Buf) (a : Z) :
  (forall c, In c l -> writes c b a = false) -> exec_calls l st b a = st b a.
Proof.
  revert st. induction l as [|c l IH]; intros st H; [reflexivity|].
  rewrite exec_calls_cons, IH by (intros c' Hc'; apply H; right; exact Hc').
  apply exec_call_frame, H. left. reflexivity.
Qed.

Lemma fst_finish (x : St * Res unit) : fst (finish x) = fst x.
Proof. destruct x as [s [u|[|e|]]]; reflexivity. Qed.

(** Whatever the context answers, a sequence of calls leaves the memory as
    the calls before the first failing one made it. *)
Lemma run_calls_store (fail : Error -> Exit) (l : list Call) (s : St) :
  exists l1 l2,
    l = l1 ++ l2
    /\ st_store (fst (run_calls fail l s)) = exec_calls l1 (st_store s).
Proof.
  destruct (run_calls_spec fail l s)
    as [[E _]|(l1 & c & l2 & e & El & _ & _ & E)].
  - exists l, []. rewrite app_nil_r, E. split; reflexivity.
  - exists l1, (c :: l2). rewrite E. split; [exact El|reflexivity].
Qed.

Lemma forward_store dataType output outputMult data dataMult filters biases
    cp (st : Store) (lastError : Error) :
  exists l1 l2,
    forward_calls dataType output outputMult data dataMult filters biases cp
    = l1 ++ l2
    /\ st_store
         (fst (run (nnconv3d_forward_blas dataType output outputMult data
                      dataMult filters biases cp) (initial st lastError)))
       = exec_calls l1 st.
Proof.
  unfold run. rewrite fst_finish, forward_unfold.
  destruct (getDimension filters 3 =? 0)%Z;
    [exists []; eexists; split; reflexivity|].
  destruct (Z.quot (getDimension data 3) (getDimension filters 3) =? 0)%Z;
    [exists []; eexists; split; reflexivity|].
  cbv zeta. cbn [initial st_trace st_store length].
  destruct (is_success (oracle 0)); destruct (is_success (oracle 1)).
  - match goal with
    | |- context [run_calls ?f ?l ?s] =>
        destruct (run_calls_store f l s) as (l1 & l2 & El & Es)
    end.
    exists (forward_workspace_call dataType output data filters
            :: forward_allOnes_call dataType output :: l1), l2.
    split.
    + unfold forward_calls. rewrite El. reflexivity.
    + rewrite Es. reflexivity.
  - exists []; eexists; split; reflexivity.
  - exists [forward_workspace_call dataType output data filters;
            forward_allOnes_call dataType output]; eexists.
    split; reflexivity.
  - exists []; eexists; split; reflexivity.
Qed.

Lemma backward_store dataType derData derFilters derBiases data filters
    derOutput cp (st : Store) (lastError : Error) :
  exists l1 l2,
    backward_calls dataType derData derFilters derBiases data filters
      derOutput cp = l1 ++ l2
    /\ st_store
         (fst (run (nnconv3d_backward_blas dataType derData derFilters
                      derBiases data filters derOutput cp)
                   (initial st lastError)))
       = exec_calls l1 st.
Proof.
  unfold run. rewrite fst_finish, backward_unfold. cbv zeta.
  cbn [initial st_trace st_store length].
  destruct (present derBiases && negb (is_success (oracle 0))) eqn:E0;
    [exists []; eexists; split; reflexivity|].
  set (pre := if present derBiases
              then [backward_allOnes_call dataType derOutput] else []).
  assert (Hs1 : st_store (backward_after_allOnes dataType derBiases derOutput
                            (initial st lastError)) = exec_calls pre st).
  { unfold backward_after_allOnes, pre.
    destruct (present derBiases); reflexivity. }
  unfold backward_calls. fold pre.
  destruct (backward_divides_by_zero derData derFilters data filters).
  { exists pre; eexists. split; [reflexivity|exact Hs1]. }
  destruct (backward_tempVolume derData derFilters data filters derOutput
            =? 0)%Z.
  - match goal with
    | |- context [run_calls ?f ?l ?s] =>
        destruct (run_calls_store f l s) as (l1 & l2 & El & Es)
    end.
    exists (pre ++ l1), l2. split.
    + rewrite El. cbn [app]. rewrite app_assoc. reflexivity.
    + rewrite Es, Hs1, exec_calls_app. reflexivity.
  - match goal with
    | |- context [is_success ?e] => destruct (is_success e)
    end.
    + match goal with
      | |- context [run_calls ?f ?l ?s] =>
          destruct (run_calls_store f l s) as (l1 & l2 & El & Es)
      end.
      exists (pre ++ backward_workspace_call dataType derData derFilters data
                       filters derOutput :: l1), l2.
      split.
      * rewrite El. rewrite <- app_assoc. reflexivity.
      * rewrite Es. cbn [st_store]. rewrite Hs1, exec_calls_app.
        reflexivity.
    + exists pre; eexists. split; [reflexivity|exact Hs1].
Qed.

Lemma In_range (i : Z) (n : nat) (x : Z) :
  In x (range i n) -> (i <= x < i + Z.of_nat n)%Z.
Proof.
  revert i. induction n as [|n IH]; intros i; simpl; [tauto|].
  intros [<-|H]; [lia|]. apply IH in H. lia.
Qed.

Lemma In_upto (bound x : Z) : In x (upto bound) -> (0 <= x < bound)%Z.
Proof. unfold upto. intros H. apply In_range in H. lia. Qed.

(** The calls of a forward run, by their place in the loop. *)
Lemma forward_calls_cases dataType output outputMult data dataMult filters
    biases cp (c : Call) :
  let numGroups := Z.quot (getDimension data 3) (getDimension filters 3) in
  let numFiltersPerGroup := Z.quot (getDimension filters 4) numGroups in
  let numOutputPixels :=
    (getDimension output 0 * getDimension output 1
     * getDimension output 2)%Z in
  In c (forward_calls dataType output outputMult data dataMult filters biases
          cp) ->
  c = forward_workspace_call dataType output data filters
  \/ c = forward_allOnes_call dataType output
  \/ exists image,
       (0 <= image < getDimension data 4)%Z
       /\ (c = unfold_call data filters cp (mkPtr BTemp 0) image
           \/ (exists g,
                  (0 <= g < numGroups)%Z
                  /\ c = forward_group_call dataType outputMult dataMult
                           numFiltersPerGroup numOutputPixels
                           (filter_volume filters) (mkPtr BTemp 0)
                           (image_size output * image) g)
           \/ (present biases = true
               /\ c = forward_bias_call dataType biases numOutputPixels
                        (mkPtr BAllOnes 0) (image_size output * image))).
Proof.
  cbv zeta. unfold forward_calls. intros [<-|[<-|H]]; [tauto|tauto|].
  right. right. unfold forward_loop_plan in H. cbv zeta in H.
  apply in_flat_map in H. destruct H as (image & Hi & H).
  exists image. split; [apply In_upto, Hi|].
  unfold forward_image_plan in H. cbv zeta in H.
  destruct H as [<-|H]; [tauto|].
  apply in_app_or in H. destruct H as [H|H].
  - apply in_map_iff in H. destruct H as (g & <- & Hg).
    right. left. exists g. split; [apply In_upto, Hg|reflexivity].
  - destruct (present biases); [|destruct H].
    destruct H as [<-|[]]. right. right. split; reflexivity.
Qed.

(** The calls of a backward run, by their place in the loop. *)
Lemma backward_calls_cases dataType derData derFilters derBiases data filters
    derOutput cp (c : Call) :
  let numGroups := backward_numGroups derData derFilters data filters in
  let numFiltersPerGroup := Z.quot (getDimension derOutput 3) numGroups in
  let numOutputPixels :=
    (getDimension derOutput 0 * getDimension derOutput 1
     * getDimension derOutput 2)%Z in
  let filtersVolume := backward_filtersVolume derData derFilters filters in
  In c (backward_calls dataType derData derFilters derBiases data filters
          derOutput cp) ->
  (present derBiases = true /\ c = backward_allOnes_call dataType derOutput)
  \/ c = backward_workspace_call dataType derData derFilters data filters
           derOutput
  \/ exists image,
       (0 <= image < getDimension derOutput 4)%Z
       /\ ((present derBiases = true
            /\ c = backward_bias_call dataType derOutput numOutputPixels
                     (mkPtr BAllOnes 0) (image_size derOutput * image) image)
           \/ (present derData = true
               /\ ((exists g,
                       (0 <= g < numGroups)%Z
                       /\ c = backward_data_call numFiltersPerGroup
                                numOutputPixels filtersVolume (mkPtr BTemp 0)
                                (image_size derOutput * image) g)
                   \/ c = fold_call derData filters cp (mkPtr BTemp 0) image))
           \/ (present derFilters = true
               /\ (c = unfold_call data derFilters cp (mkPtr BTemp 0) image
                   \/ exists g,
                        (0 <= g < numGroups)%Z
                        /\ c = backward_filter_call dataType
                                 numFiltersPerGroup numOutputPixels
                                 filtersVolume (mkPtr BTemp 0)
                                 (image_size derOutput * image) image g))).
Proof.
  cbv zeta. unfold backward_calls. intros H.
  apply in_app_or in H. destruct H as [H|H].
  { destruct (present derBiases); [|destruct H].
    destruct H as [<-|[]]. left. split; reflexivity. }
  apply in_app_or in H. destruct H as [H|H].
  { destruct (_ =? 0)%Z; [destruct H|]. destruct H as [<-|[]]. tauto. }
  right. right. unfold backward_loop_plan in H. cbv zeta in H.
  apply in_flat_map in H. destruct H as (image & Hi & H).
  exists image. split; [apply In_upto, Hi|].
  unfold backward_image_plan in H. cbv zeta in H.
  apply in_app_or in H. destruct H as [H|H].
  { destruct (present derBiases); [|destruct H].
    destruct H as [<-|[]]. left. split; reflexivity. }
  apply in_app_or in H. destruct H as [H|H].
  { destruct (present derData); [|destruct H].
    right. left. split; [reflexivity|].
    apply in_app_or in H. destruct H as [H|[<-|[]]].
    - apply in_map_iff in H. destruct H as (g & <- & Hg).
      left. exists g. split; [apply In_upto, Hg|reflexivity].
    - right. reflexivity. }
  destruct (present derFilters); [|destruct H].
  right. right. split; [reflexivity|].
  destruct H as [<-|H]; [left; reflexivity|].
  apply in_map_iff in H. destruct H as (g & <- & Hg).
  right. exists g. split; [apply In_upto, Hg|reflexivity].
Qed.

(** X4. On consistent shapes, whatever the context answers, a forward call
    changes no element of the data, the filters or the biases, nor of any
    buffer other than the output, the workspace and the ones vector. *)
Theorem forward_changes_only_output_and_scratch dataType output outputMult
    data dataMult filters biases cp (st : Store) (lastError : Error)
    (b : Buf) (a : Z) :
  valid_forward output data filters biases cp ->
  b <> BOutput -> b <> BTemp -> b <> BAllOnes ->
  st_store
    (fst (run (nnconv3d_forward_blas dataType output outputMult data dataMult
                 filters biases cp) (initial st lastError))) b a
  = st b a.
Proof.
  intros _ Ho Ht Ha.
  destruct (forward_store dataType output outputMult data dataMult filters
              biases cp st lastError) as (l1 & l2 & El & Es).
  rewrite Es. apply exec_calls_frame. intros c Hc.
  assert (Hin : In c (forward_calls dataType output outputMult data dataMult
                        filters biases cp)).
  { rewrite El. apply in_or_app. left. exact Hc. }
  apply forward_calls_cases in Hin.
  destruct Hin as [->|[->|(image & _ & [->|[(g & _ & ->)|(_ & ->)]])]];
    cbn [writes forward_workspace_call forward_allOnes_call unfold_call
         forward_group_call forward_bias_call];
    unfold in_operand; cbn [pbuf];
    try reflexivity;
    rewrite ?(Buf_eqb_neq _ _ Ho), ?(Buf_eqb_neq _ _ Ht),
            ?(Buf_eqb_neq _ _ Ha); reflexivity.
Qed.

(** X5. On consistent shapes, whatever the context answers, a forward call
    writes the output inside the output tensor only: an element of the
    output buffer outside the tensor's
    [getDimension 0 * ... * getDimension 4] elements is left as it was. *)
Theorem forward_writes_stay_in_bounds dataType output outputMult
    data dataMult filters biases cp (st : Store) (lastError : Error)
    (a : Z) :
  valid_forward output data filters biases cp ->
  ~ (0 <= a < tensor_size output)%Z ->
  st_store
    (fst (run (nnconv3d_forward_blas dataType output outputMult data dataMult
                 filters biases cp) (initial st lastError))) BOutput a
  = st BOutput a.
Proof.
  intros Hv Hm.
  destruct Hv as (Hfc & Hg & Hdc & Hn & Hnf & Hoc & Hb & Hnop & Hfv & Hrows
                  & Hbias).
  destruct (forward_store dataType output outputMult data dataMult filters
              biases cp st lastError) as (l1 & l2 & El & Es).
  rewrite Es. apply exec_calls_frame. intros c Hc.
  assert (Hin : In c (forward_calls dataType output outputMult data dataMult
                        filters biases cp)).
  { rewrite El. apply in_or_app. left. exact Hc. }
  apply forward_calls_cases in Hin.
  unfold tensor_size in Hm. rewrite Hb in Hm.
  set (numGroups := Z.quot (getDimension data 3) (getDimension filters 3))
    in *.
  set (numFiltersPerGroup := Z.quot (getDimension filters 4) numGroups) in *.
  set (numOutputPixels := (getDimension output 0 * getDimension output 1
                           * getDimension output 2)%Z) in *.
  assert (Hisz : image_size output
                 = (numOutputPixels * numFiltersPerGroup * numGroups)%Z).
  { unfold image_size. fold numOutputPixels. rewrite Hoc, Hnf. ring. }
  assert (Hblk : (0 <= numOutputPixels * numFiltersPerGroup)%Z) by nia.
  destruct (writes c BOutput a) eqn:W; [exfalso|reflexivity].
  destruct Hin as [->|[->|(image & Hi & [->|[(g & Hgr & ->)|(Hpb & ->)]])]].
  - discriminate W.
  - discriminate W.
  - cbn [writes unfold_call] in W. unfold in_operand in W.
    cbn [pbuf Buf_eqb andb] in W. discriminate W.
  - cbn [writes forward_group_call] in W.
    apply in_operand_block in W. cbn [pbuf poff] in W.
    destruct W as [_ W]. rewrite Hisz in *.
    set (S := (numOutputPixels * numFiltersPerGroup)%Z) in *.
    assert (H1 : (0 <= S * numGroups)%Z) by nia.
    assert (H2 : (0 <= S * numGroups * image)%Z) by nia.
    assert (H3 : (0 <= S * g /\ S * g + S <= S * numGroups)%Z) by nia.
    assert (H4 : (S * numGroups * image + S * numGroups
                  <= S * numGroups * getDimension data 4)%Z) by nia.
    lia.
  - cbn [writes forward_bias_call] in W.
    apply in_operand_block in W. cbn [pbuf poff] in W.
    destruct W as [_ W]. rewrite (Hbias Hpb), Hnf in W. rewrite Hisz in *.
    set (S := (numOutputPixels * numFiltersPerGroup)%Z) in *.
    assert (H1 : (0 <= S * numGroups)%Z) by nia.
    assert (H2 : (0 <= S * numGroups * image)%Z) by nia.
    assert (H4 : (S * numGroups * image + S * numGroups
                  <= S * numGroups * getDimension data 4)%Z) by nia.
    nia.
Qed.

(** X6. On consistent shapes, whatever the context answers, a backward call
    changes no element of the data, the filters or the output gradient, and
    no element of a gradient it was not asked for: the bias gradient and
    the ones vector only when [derBiases] is supplied, the input gradient
    only when [derData] is, the filter gradient only when [derFilters]
    is. *)
Theorem backward_changes_only_requested_gradients dataType
    derData derFilters derBiases data filters derOutput cp
    (st : Store) (lastError : Error) (b : Buf) (a : Z) :
  consistent_backward derData derFilters derBiases data filters derOutput
    cp ->
  backward_destination derData derFilters derBiases b = false ->
  st_store
    (fst (run (nnconv3d_backward_blas dataType derData derFilters derBiases
                 data filters derOutput cp) (initial st lastError))) b a
  = st b a.
Proof.
  intros _ Hd.
  destruct (backward_store dataType derData derFilters derBiases data filters
              derOutput cp st lastError) as (l1 & l2 & El & Es).
  rewrite Es. apply exec_calls_frame. intros c Hc.
  assert (Hin : In c (backward_calls dataType derData derFilters derBiases
                        data filters derOutput cp)).
  { rewrite El. apply in_or_app. left. exact Hc. }
  apply backward_calls_cases in Hin.
  destruct Hin
    as [(Hp & ->)
       |[->
        |(image & _
          & [(Hp & ->)
            |[(Hp & [(g & _ & ->)| ->])
             |(Hp & [->|(g & _ & ->)])]])]];
    cbn [writes backward_allOnes_call backward_workspace_call
         backward_bias_call backward_data_call fold_call unfold_call
         backward_filter_call];
    unfold in_operand; cbn [pbuf padd];
    try reflexivity;
    destruct b; try reflexivity;
    cbn [backward_destination] in Hd; rewrite Hp in Hd;
    try discriminate Hd;
    rewrite orb_true_r in Hd; discriminate Hd.
Qed.

(** X7. On consistent shapes, whatever the context answers, a backward call
    writes each gradient inside its own tensor only: an element of the
    input-gradient, filter-gradient or bias-gradient buffer outside the
    [getDimension 0 * ... * getDimension 4] elements of [derData],
    [derFilters] or [derBiases] is left as it was. *)
Theorem backward_writes_stay_in_bounds dataType
    derData derFilters derBiases data filters derOutput cp
    (st : Store) (lastError : Error) (a : Z) :
  consistent_backward derData derFilters derBiases data filters derOutput
    cp ->
  let final :=
    st_store
      (fst (run (nnconv3d_backward_blas dataType derData derFilters derBiases
                   data filters derOutput cp) (initial st lastError))) in
  (~ (0 <= a < tensor_size derData)%Z -> final BDerData a = st BDerData a)
  /\ (~ (0 <= a < tensor_size derFilters)%Z ->
      final BDerFilters a = st BDerFilters a)
  /\ (~ (0 <= a < tensor_size derBiases)%Z ->
      final BDerBiases a = st BDerBiases a).
Proof.
  intros (Hv & HtD & HtF & HtB). cbv zeta.
  destruct Hv as (Hg & Hn & Hoc & Hnop & Hfv & Hd & Hf & _).
  destruct (backward_store dataType derData derFilters derBiases data filters
              derOutput cp st lastError) as (l1 & l2 & El & Es).
  rewrite Es.
  assert (Hcases : forall c, In c l1 ->
            In c (backward_calls dataType derData derFilters derBiases
                    data filters derOutput cp)).
  { intros c Hc. rewrite El. apply in_or_app. left. exact Hc. }
  set (numGroups := backward_numGroups derData derFilters data filters) in *.
  set (filtersVolume := backward_filtersVolume derData derFilters filters)
    in *.
  set (numFiltersPerGroup := Z.quot (getDimension derOutput 3) numGroups)
    in *.
  set (numOutputPixels := (getDimension derOutput 0 * getDimension derOutput 1
                           * getDimension derOutput 2)%Z) in *.
  split; [|split]; intros Hm; apply exec_calls_frame; intros c Hc;
    apply Hcases, backward_calls_cases in Hc;
    fold numGroups filtersVolume numFiltersPerGroup numOutputPixels in Hc;
    match goal with
    | |- writes c ?b a = false =>
        destruct (writes c b a) eqn:W; [exfalso|reflexivity]
    end;
    destruct Hc
      as [(Hp & ->)
         |[->
          |(image & Hi
            & [(Hp & ->)
              |[(Hp & [(g & Hgr & ->)| ->])
               |(Hp & [->|(g & Hgr & ->)])]])]];
    cbn [writes backward_allOnes_call backward_workspace_call
         backward_bias_call backward_data_call fold_call unfold_call
         backward_filter_call] in W;
    unfold in_operand in W; cbn [pbuf poff padd Buf_eqb andb] in W;
    try discriminate W.
  - (* the fold writes one image of the input gradient *)
    apply andb_prop in W. destruct W as [W2 W3].
    apply Z.leb_le in W2. apply Z.ltb_lt in W3.
    destruct (Hd Hp) as (_ & _ & Hsz & _).
    destruct (HtD Hp) as (HbD & _).
    assert (Hvs : vol_size (vol_args derData filters cp) = image_size derData)
      by reflexivity.
    rewrite Hvs in W3. unfold tensor_size in Hm. rewrite HbD in Hm.
    set (S := image_size derData) in *.
    assert (H2 : (0 <= S * image)%Z) by nia.
    assert (H4 : (S * image + S <= S * getDimension derOutput 4)%Z) by nia.
    lia.
  - (* a multiply of the filter-gradient branch writes one group of filters *)
    destruct (Hf Hp) as (Hf3 & Hdc & Hfvol & Hrows).
    fold filtersVolume in Hfvol.
    destruct (HtF Hp) as (_ & HcF).
    apply in_matrix_block in W.
    unfold tensor_size in Hm. rewrite HcF, Hoc in Hm.
    assert (Hi' : image_size derFilters = filtersVolume) by exact Hfvol.
    rewrite Hi' in Hm.
    set (S := (filtersVolume * numFiltersPerGroup)%Z) in *.
    assert (H0 : (0 <= S)%Z) by nia.
    assert (H3 : (0 <= S * g /\ S * g + S <= S * numGroups)%Z) by nia.
    nia.
  - (* the reduce writes [getDepth] entries of the bias gradient *)
    destruct (HtB Hp) as (_ & HbB).
    replace (a - 0)%Z with a in W by lia.
    apply in_matrix_block in W. lia.
Qed.

(** ** The status a run returns *)

Lemma last_failure_app (tr1 tr2 : list (Call * Error)) :
  last_failure (tr1 ++ tr2)
  = match last_failure tr2 with
    | Some e => Some e
    | None => last_failure tr1
    end.
Proof.
  induction tr1 as [|[c e] tr1 IH]; simpl.
  - destruct (last_failure tr2); reflexivity.
  - rewrite IH. destruct (last_failure tr2); reflexivity.
Qed.

Lemma last_failure_succeeded (l : list Call) :
  last_failure (succeeded l) = None.
Proof. induction l as [|c l IH]; simpl; [|rewrite IH]; reflexivity. Qed.

Lemma ran_primitive_app (tr1 tr2 : list (Call * Error)) :
  ran_primitive (tr1 ++ tr2) = ran_primitive tr1 || ran_primitive tr2.
Proof. apply existsb_app. Qed.

Lemma ran_primitive_succeeded (l : list Call) :
  (forall c, In c l -> is_primitive c = true) ->
  ran_primitive (succeeded l) = match l with [] => false | _ => true end.
Proof.
  destruct l as [|c l]; intros H; [reflexivity|].
  unfold ran_primitive. simpl. rewrite (H c) by (left; reflexivity).
  reflexivity.
Qed.

(** A loop of primitive calls entered with nothing failed, no primitive
    called and [error] unassigned ends with the status its trace
    determines. *)
Lemma run_calls_status (fail : Error -> Exit) (l : list Call) (s : St) :
  (forall e, fail e = ExDone \/ fail e = ExReturn e) ->
  (forall c, In c l -> is_primitive c = true) ->
  last_failure (st_trace s) = None ->
  ran_primitive (st_trace s) = false ->
  st_error s = None ->
  snd (finish (run_calls fail l s))
  = Returned (status_of (st_trace (fst (finish (run_calls fail l s))))).
Proof.
  intros Hfail Hprim Hlf Hrp Herr.
  destruct (run_calls_spec fail l s)
    as [[E _]|(l1 & c & l2 & e & El & Ee & Hne & E)]; rewrite E.
  - cbn [finish fst snd st_trace st_error passError]. unfold status_of.
    rewrite last_failure_app, last_failure_succeeded, Hlf.
    rewrite ran_primitive_app, Hrp, (ran_primitive_succeeded l Hprim).
    destruct l; [exact (f_equal Returned Herr)|reflexivity].
  - assert (Hlast : last_failure (st_trace s ++ succeeded l1 ++ [(c, e)])
                    = Some e).
    { rewrite !last_failure_app. simpl.
      apply is_success_false in Hne. rewrite Hne. reflexivity. }
    destruct (Hfail e) as [Hx|Hx]; rewrite Hx;
      cbn [finish fst snd st_trace st_error passError];
      unfold status_of; rewrite Hlast; reflexivity.
Qed.

Lemma forward_loop_plan_primitive dataType output outputMult data dataMult
    filters biases cp (c : Call) :
  In c (forward_loop_plan dataType output outputMult data dataMult filters
          biases cp) ->
  is_primitive c = true.
Proof.
  intros H.
  assert (Hin : In c (forward_calls dataType output outputMult data dataMult
                        filters biases cp)).
  { unfold forward_calls. right. right. exact H. }
  unfold forward_loop_plan in H. cbv zeta in H.
  apply in_flat_map in H. destruct H as (image & _ & H).
  unfold forward_image_plan in H. cbv zeta in H.
  destruct H as [<-|H]; [reflexivity|].
  apply in_app_or in H. destruct H as [H|H].
  - apply in_map_iff in H. destruct H as (g & <- & _). reflexivity.
  - destruct (present biases); [|destruct H].
    destruct H as [<-|[]]. reflexivity.
Qed.

Lemma backward_loop_plan_primitive dataType derData derFilters derBiases data
    filters derOutput cp (c : Call) :
  In c (backward_loop_plan dataType derData derFilters derBiases data filters
          derOutput cp) ->
  is_primitive c = true.
Proof.
  intros H. unfold backward_loop_plan in H. cbv zeta in H.
  apply in_flat_map in H. destruct H as (image & _ & H).
  unfold backward_image_plan in H. cbv zeta in H.
  apply in_app_or in H. destruct H as [H|H].
  { destruct (present derBiases); [|destruct H].
    destruct H as [<-|[]]. reflexivity. }
  apply in_app_or in H. destruct H as [H|H].
  { destruct (present derData); [|destruct H].
    apply in_app_or in H. destruct H as [H|[<-|[]]]; [|reflexivity].
    apply in_map_iff in H. destruct H as (g & <- & _). reflexivity. }
  destruct (present derFilters); [|destruct H].
  destruct H as [<-|H]; [reflexivity|].
  apply in_map_iff in H. destruct H as (g & <- & _). reflexivity.
Qed.

(** X8. What a forward call gives its caller, whatever the shapes and
    whatever the context answers: a division by zero, before any call is
    made, exactly when the filters have no input channel or the data has
    fewer input channels than the filters; otherwise the status of the last
    call that failed, [vlSuccess] when none failed and a primitive was
    called, and the never-assigned [error] when none failed and none was
    called. *)
Theorem forward_returns_the_status_of_its_trace dataType output outputMult
    data dataMult filters biases cp (st : Store) (lastError : Error) :
  let r := run (nnconv3d_forward_blas dataType output outputMult data
                  dataMult filters biases cp) (initial st lastError) in
  snd r = (if forward_divides_by_zero data filters then DivisionByZero
           else Returned (status_of (st_trace (fst r))))
  /\ (forward_divides_by_zero data filters = true ->
      fst r = initial st lastError).
Proof.
  cbv zeta. unfold run. rewrite forward_unfold. unfold forward_divides_by_zero.
  destruct (getDimension filters 3 =? 0)%Z; [split; reflexivity|].
  destruct (Z.quot (getDimension data 3) (getDimension filters 3) =? 0)%Z;
    [split; reflexivity|].
  cbn [orb]. split; [|discriminate].
  cbv zeta. cbn [initial st_trace st_store st_error st_lastError length app].
  destruct (is_success (oracle 0)) eqn:E1;
    destruct (is_success (oracle 1)) eqn:E2.
  - apply run_calls_status.
    + intros e. left. reflexivity.
    + apply forward_loop_plan_primitive.
    + cbn [st_trace last_failure]. rewrite E1, E2. reflexivity.
    + reflexivity.
    + reflexivity.
  - cbn [finish fst snd st_trace st_error passError].
    unfold status_of. cbn [last_failure]. rewrite E2. reflexivity.
  - cbn [finish fst snd st_trace st_error passError].
    unfold status_of. cbn [last_failure]. rewrite E1, E2. reflexivity.
  - cbn [finish fst snd st_trace st_error passError].
    unfold status_of. cbn [last_failure]. rewrite E2. reflexivity.
Qed.

(** X9. What a backward call gives its caller, whatever the shapes and
    whatever the context answers: a division by zero exactly when the
    ones-vector acquisition, if there is one, succeeded and a divisor of
    the planner is zero (in particular when neither the input nor the
    filter gradient is requested); otherwise the status of the call that
    failed, [vlSuccess] when none failed and a primitive was called, and
    the never-assigned [error] when none failed and none was called. *)
Theorem backward_returns_the_status_of_its_trace dataType
    derData derFilters derBiases data filters derOutput cp
    (st : Store) (lastError : Error) :
  let r := run (nnconv3d_backward_blas dataType derData derFilters derBiases
                  data filters derOutput cp) (initial st lastError) in
  snd r
  = if (negb (present derBiases) || is_success (oracle 0))
       && backward_divides_by_zero derData derFilters data filters
    then DivisionByZero
    else Returned (status_of (st_trace (fst r))).
Proof.
  cbv zeta. unfold run. rewrite backward_unfold. cbv zeta.
  cbn [initial st_trace length].
  destruct (present derBiases) eqn:Hpb;
    destruct (is_success (oracle 0)) eqn:E0; cbn [andb negb orb].
  2:{ cbn [finish fst snd st_trace st_error passError app].
      unfold status_of. cbn [last_failure]. rewrite E0. reflexivity. }
  all: unfold backward_after_allOnes; rewrite Hpb;
    destruct (backward_divides_by_zero derData derFilters data filters);
    [reflexivity|];
    destruct (backward_tempVolume derData derFilters data filters derOutput
              =? 0)%Z;
    [apply run_calls_status;
     [intros e; right; reflexivity
     |apply backward_loop_plan_primitive
     |reflexivity|reflexivity|reflexivity]|];
    cbn [st_trace st_store st_error st_lastError length app];
    match goal with
    | |- context [is_success ?e] => destruct (is_success e) eqn:E1
    end;
    [apply run_calls_status;
     [intros e; right; reflexivity
     |apply backward_loop_plan_primitive
     |cbn [st_trace]; rewrite !last_failure_app; cbn [last_failure];
      rewrite E1; reflexivity
     |reflexivity|reflexivity]
    |cbn [finish fst snd st_trace st_error passError];
     unfold status_of; rewrite !last_failure_app; cbn [last_failure];
     rewrite E1; reflexivity].
Qed.

Lemma upto_empty (bound : Z) : (bound <= 0)%Z -> upto bound = [].
Proof.
  intros H. unfold upto. replace (Z.to_nat bound) with O by lia. reflexivity.
Qed.

(** X10. A forward call on an empty batch, with non-zero divisors and both
    acquisitions succeeding, calls no primitive, changes nothing but the
    ones vector, and returns the local [error] without it ever having been
    assigned. *)
Theorem forward_on_an_empty_batch dataType output outputMult
    data dataMult filters biases cp (st : Store) (lastError : Error) :
  (getDimension data 4 <= 0)%Z ->
  forward_divides_by_zero data filters = false ->
  oracle 0 = vlSuccess ->
  oracle 1 = vlSuccess ->
  let r := run (nnconv3d_forward_blas dataType output outputMult data
                  dataMult filters biases cp) (initial st lastError) in
  snd r = Returned None
  /\ st_trace (fst r)
     = succeeded [forward_workspace_call dataType output data filters;
                  forward_allOnes_call dataType output]
  /\ forall b a, b <> BAllOnes -> st_store (fst r) b a = st b a.
Proof.
  intros Hb Hz H0 H1. cbv zeta. unfold run. rewrite forward_unfold.
  unfold forward_divides_by_zero in Hz. apply orb_false_iff in Hz.
  destruct Hz as [Hz1 Hz2]. rewrite Hz1, Hz2. cbv zeta.
  cbn [initial st_trace st_store st_error st_lastError length app].
  rewrite H0, H1. cbn [is_success].
  unfold forward_loop_plan. cbv zeta. rewrite (upto_empty _ Hb).
  cbn [flat_map run_calls ret finish fst snd st_trace st_store st_error
       passError].
  split; [reflexivity|split; [reflexivity|]].
  intros b a Hne. unfold forward_allOnes_call. cbn [exec_call].
  unfold exec_allOnes. rewrite (Buf_eqb_neq _ _ Hne). reflexivity.
Qed.

(** X11. A backward call on an empty batch, with non-zero divisors and its
    acquisitions succeeding, calls no primitive, leaves every gradient
    destination as it was, and returns the local [error] without it ever
    having been assigned. *)
Theorem backward_on_an_empty_batch dataType
    derData derFilters derBiases data filters derOutput cp
    (st : Store) (lastError : Error) :
  (getDimension derOutput 4 <= 0)%Z ->
  backward_divides_by_zero derData derFilters data filters = false ->
  oracle 0 = vlSuccess ->
  oracle 1 = vlSuccess ->
  let r := run (nnconv3d_backward_blas dataType derData derFilters derBiases
                  data filters derOutput cp) (initial st lastError) in
  snd r = Returned None
  /\ ran_primitive (st_trace (fst r)) = false
  /\ forall b a, b <> BAllOnes -> st_store (fst r) b a = st b a.
Proof.
  intros Hb Hz H0 H1. cbv zeta. unfold run. rewrite backward_unfold.
  cbv zeta. cbn [initial st_trace length]. rewrite H0. cbn [is_success negb].
  rewrite andb_false_r, Hz.
  assert (Hplan : backward_loop_plan dataType derData derFilters derBiases
                    data filters derOutput cp = []).
  { unfold backward_loop_plan. cbv zeta. rewrite (upto_empty _ Hb).
    reflexivity. }
  rewrite Hplan. cbn [run_calls]. unfold ret.
  assert (Hst : forall b a,
             b <> BAllOnes ->
             st_store (backward_after_allOnes dataType derBiases derOutput
                         (initial st lastError)) b a = st b a).
  { intros b a Hne. unfold backward_after_allOnes.
    destruct (present derBiases); [|reflexivity].
    cbn [st_store backward_allOnes_call exec_call]. unfold exec_allOnes.
    rewrite (Buf_eqb_neq _ _ Hne). reflexivity. }
  assert (He : st_error (backward_after_allOnes dataType derBiases derOutput
                           (initial st lastError)) = None).
  { unfold backward_after_allOnes. destruct (present derBiases); reflexivity. }
  assert (Hl : length (st_trace (backward_after_allOnes dataType derBiases
                                   derOutput (initial st lastError)))
               = O
               \/ length (st_trace (backward_after_allOnes dataType derBiases
                                      derOutput (initial st lastError)))
                  = 1%nat).
  { unfold backward_after_allOnes.
    destruct (present derBiases); [right|left]; reflexivity. }
  assert (Hp : ran_primitive
                 (st_trace (backward_after_allOnes dataType derBiases
                              derOutput (initial st lastError)))
               = false).
  { unfold backward_after_allOnes. destruct (present derBiases); reflexivity. }
  destruct (backward_tempVolume derData derFilters data filters derOutput
            =? 0)%Z.
  - cbn [finish fst snd passError]. rewrite He.
    split; [reflexivity|split; [exact Hp|exact Hst]].
  - assert (Ho : oracle
                   (length
                      (st_trace (backward_after_allOnes dataType derBiases
                                   derOutput (initial st lastError))))
                 = vlSuccess).
    { destruct Hl as [-> | ->]; assumption. }
    rewrite Ho. cbn [is_success finish fst snd passError st_error st_trace
                     st_store].
    rewrite He. split; [reflexivity|split; [|exact Hst]].
    rewrite ran_primitive_app, Hp. reflexivity.
Qed.

(** ** Sums *)

Lemma ssum_zero (n : nat) : ssum n (fun _ => szero) = szero.
Proof. induction n as [|n IH]; simpl; [reflexivity|]. rewrite IH. ring. Qed.

Lemma ssum_add (n : nat) (f g : Z -> K) :
  ssum n (fun i => (f i + g i)%K) = (ssum n f + ssum n g)%K.
Proof. induction n as [|n IH]; simpl; [ring|]. rewrite IH. ring. Qed.

Lemma ssum_mul_l (n : nat) (c : K) (f : Z -> K) :
  ssum n (fun i => (c * f i)%K) = (c * ssum n f)%K.
Proof. induction n as [|n IH]; simpl; [ring|]. rewrite IH. ring. Qed.

Lemma ssum_mul_r (n : nat) (c : K) (f : Z -> K) :
  ssum n (fun i => (f i * c)%K) = (ssum n f * c)%K.
Proof. induction n as [|n IH]; simpl; [ring|]. rewrite IH. ring. Qed.

Lemma ssum_swap (n m : nat) (f : Z -> Z -> K) :
  ssum n (fun i => ssum m (fun j => f i j))
  = ssum m (fun j => ssum n (fun i => f i j)).
Proof.
  induction n as [|n IH]; simpl.
  - symmetry. apply ssum_zero.
  - rewrite IH. symmetry. apply ssum_add.
Qed.

Lemma ssum_app (n m : nat) (h : Z -> K) :
  ssum (n + m) h
  = (ssum n h + ssum m (fun i => h (Z.of_nat n + i)%Z))%K.
Proof.
  induction m as [|m IH].
  - rewrite Nat.add_0_r. simpl. ring.
  - rewrite Nat.add_succ_r. simpl. rewrite IH.
    replace (Z.of_nat (n + m)) with (Z.of_nat n + Z.of_nat m)%Z by lia.
    ring.
Qed.

(** A sum over [b] blocks of [a] consecutive indices. *)
Lemma ssum_blocks (a b : Z) (h : Z -> K) :
  (0 <= a)%Z -> (0 <= b)%Z ->
  ssum (Z.to_nat (a * b)) h
  = ssum (Z.to_nat b) (fun g => ssum (Z.to_nat a) (fun f => h (g * a + f)%Z)).
Proof.
  intros Ha Hb.
  replace (Z.to_nat (a * b)) with (Z.to_nat b * Z.to_nat a)%nat by nia.
  induction (Z.to_nat b) as [|n IH]; [reflexivity|].
  cbn [Nat.mul ssum]. rewrite Nat.add_comm, ssum_app, IH.
  f_equal. apply ssum_ext. intros l _. f_equal. nia.
Qed.

(** Summing against the indicator of one index picks its term. *)
Lemma ssum_pick (n : nat) (j : Z) (v : Z -> K) :
  (0 <= j < Z.of_nat n)%Z ->
  ssum n (fun i => if (j =? i)%Z then v i else szero) = v j.
Proof.
  induction n as [|n IH]; intros Hj; [lia|].
  cbn [ssum]. destruct (Z.eqb_spec j (Z.of_nat n)) as [->|Hne].
  - rewrite (ssum_ext n _ (fun _ => szero)).
    + rewrite ssum_zero. ring.
    + intros l Hl. destruct (Z.eqb_spec (Z.of_nat n) l); [lia|reflexivity].
  - rewrite IH by lia. ring.
Qed.

(** The output a forward call ends with when nothing fails: the store-level
    form of the convolution. *)
Lemma forward_output dataType output data filters biases outputMult dataMult
    cp (st : Store) (lastError : Error) :
  valid_forward output data filters biases cp ->
  all_succeed ->
  let numGroups := Z.quot (getDimension data 3) (getDimension filters 3) in
  let numFiltersPerGroup := Z.quot (getDimension filters 4) numGroups in
  let numOutputPixels :=
    (getDimension output 0 * getDimension output 1
     * getDimension output 2)%Z in
  forall image p c,
    (0 <= image < getDimension data 4)%Z ->
    (0 <= p < numOutputPixels)%Z ->
    (0 <= c < getDimension output 3)%Z ->
    st_store
      (fst (run (nnconv3d_forward_blas dataType output outputMult data
                   dataMult filters biases cp) (initial st lastError)))
      BOutput (image_size output * image + (p + numOutputPixels * c))%Z
    = (outputMult
       * st BOutput (image_size output * image + (p + numOutputPixels * c))%Z
       + dataMult * conv st data filters cp numFiltersPerGroup image p c
       + (if present biases then st BBiases c else szero))%K.
Proof.
  intros Hvalid Hok. cbv zeta.
  pose proof Hvalid as Hv.
  destruct Hv as (Hfc & Hg & Hdc & Hn & Hnf & Hoc & Hb & Hnop & Hfv & Hrows
                  & Hbias).
  rewrite forward_run_ok by (try exact Hok; lia).
  cbn [fst st_store]. unfold forward_calls.
  rewrite !exec_calls_cons.
  apply forward_loop_effect.
  - exact Hvalid.
  - intros b a Hb'. unfold forward_workspace_call, forward_allOnes_call.
    cbn [exec_call]. unfold exec_allOnes.
    rewrite (Buf_eqb_neq _ _ Hb'). reflexivity.
  - intros p Hp. unfold forward_workspace_call, forward_allOnes_call.
    cbn [exec_call]. unfold exec_allOnes.
    cbn [Buf_eqb].
    destruct (Z.leb_spec 0 p); [|lia].
    match goal with |- context [(p <? ?n)%Z] => destruct (Z.ltb_spec p n) end;
      [reflexivity|lia].
Qed.

(** ** The backward call is the transpose of the forward call *)

Lemma transpose_sums (B C N V : nat) (Pt : Z -> Z -> Z -> Z -> K)
    (Fl : Z -> Z -> K) (Dy : Z -> Z -> Z -> K) :
  ssum B (fun i => ssum C (fun c => ssum N (fun p =>
    (ssum V (fun k => (Pt i p c k * Fl k c)%K) * Dy i p c)%K)))
  = ssum C (fun c => ssum V (fun k =>
      (Fl k c * ssum B (fun i => ssum N (fun p =>
                  (Pt i p c k * Dy i p c)%K)))%K)).
Proof.
  rewrite ssum_swap. apply ssum_ext. intros c _.
  transitivity
    (ssum B (fun i => ssum V (fun k => ssum N (fun p =>
       (Fl k c * (Pt i p c k * Dy i p c))%K)))).
  - apply ssum_ext. intros i _. rewrite ssum_swap.
    apply ssum_ext. intros p _. rewrite <- ssum_mul_r.
    apply ssum_ext. intros k _. ring.
  - rewrite ssum_swap. apply ssum_ext. intros k _.
    rewrite <- ssum_mul_l. apply ssum_ext. intros i _.
    rewrite <- ssum_mul_l. reflexivity.
Qed.

(** The inner product of an output-shaped buffer with another, by image,
    channel and position. *)
Lemma dot_output (nop C B : Z) (x y : Z -> K) :
  (0 <= nop)%Z -> (0 <= C)%Z -> (0 <= B)%Z ->
  dot (nop * C * B) x y
  = ssum (Z.to_nat B) (fun i => ssum (Z.to_nat C) (fun c =>
      ssum (Z.to_nat nop) (fun p =>
        (x (nop * C * i + (p + nop * c))%Z
         * y (nop * C * i + (p + nop * c))%Z)%K))).
Proof.
  intros Hn HC HB. unfold dot.
  rewrite ssum_blocks by nia. apply ssum_ext. intros i _.
  rewrite ssum_blocks by assumption. apply ssum_ext. intros c _.
  apply ssum_ext. intros p _.
  replace (i * (nop * C) + (c * nop + p))%Z
    with (nop * C * i + (p + nop * c))%Z by ring.
  reflexivity.
Qed.

(** X13. In exact arithmetic the filter gradient is the transpose of the
    forward map applied to the output gradient: on consistent shapes and
    when nothing fails, the inner product of the output gradient with the
    output of a forward call ([outputMult = 0], [dataMult = 1], no bias)
    equals the inner product of the filters with the filter gradient a
    backward call computes from the same data and output gradient. *)
Theorem filter_gradient_is_the_transpose_of_forward dataType
    output data filters derData derBiases cp (st : Store)
    (lastError : Error) :
  valid_forward output data filters nullTensor cp ->
  valid_backward derData filters derBiases data filters output cp ->
  present filters = true ->
  all_succeed ->
  (0 < getDimension output 4)%Z ->
  let Y :=
    st_store
      (fst (run (nnconv3d_forward_blas dataType output szero data sone
                   filters nullTensor cp) (initial st lastError))) BOutput in
  let dF :=
    st_store
      (fst (run (nnconv3d_backward_blas dataType derData filters derBiases
                   data filters output cp) (initial st lastError)))
      BDerFilters in
  dot (image_size output * getDimension output 4) Y (st BDerOutput)
  = dot (filter_volume filters * getDimension filters 4) (st BFilters) dF.
Proof.
  intros Hvf Hvb Hpf Hok Hpos. cbv zeta.
  pose proof (forward_output dataType output data filters nullTensor szero
                sone cp st lastError Hvf Hok) as HY.
  pose proof (backward_gradients dataType derData filters derBiases data
                filters output cp Hvb st lastError Hok) as HB.
  cbv zeta in HY, HB. destruct HB as (_ & _ & _ & HF).
  specialize (HF Hpf Hpos).
  destruct Hvf as (Hfc & Hg & Hdc & Hn & Hnf & Hoc & Hb & Hnop & Hfv & Hrows
                   & _).
  destruct Hvb as (_ & _ & _ & _ & _ & _ & Hf & _).
  destruct (Hf Hpf) as (_ & Hdc' & _ & _).
  set (G := Z.quot (getDimension data 3) (getDimension filters 3)) in *.
  set (nfpg := Z.quot (getDimension filters 4) G) in *.
  set (nop := (getDimension output 0 * getDimension output 1
               * getDimension output 2)%Z) in *.
  assert (HG : backward_numGroups derData filters data filters = G).
  { assert (HG' : backward_numGroups derData filters data filters
                  * getDimension filters 3 = G * getDimension filters 3)
      by lia.
    nia. }
  assert (HV : backward_filtersVolume derData filters filters
               = filter_volume filters).
  { unfold backward_filtersVolume. rewrite Hpf.
    destruct (present derData); reflexivity. }
  rewrite HG, HV, Hoc in HF. fold nfpg in HF.
  set (fv := filter_volume filters) in *.
  assert (Hisz : image_size output = (nop * (nfpg * G))%Z).
  { unfold image_size. fold nop. rewrite Hoc, Hnf. reflexivity. }
  rewrite Hisz, dot_output by nia.
  rewrite Hnf. unfold dot at 1. rewrite ssum_blocks by nia.
  rewrite <- Hb in HY. rewrite Hoc, Hnf, Hisz in HY.
  transitivity
    (ssum (Z.to_nat (getDimension output 4)) (fun i =>
       ssum (Z.to_nat (nfpg * G)) (fun c =>
         ssum (Z.to_nat nop) (fun p =>
           (ssum (Z.to_nat fv) (fun k =>
              (patch st (vol_args data filters cp) (image_size data * i) p
                 (c / nfpg * fv + k)
               * st BFilters (k + fv * c)%Z)%K)
            * st BDerOutput (nop * (nfpg * G) * i + (p + nop * c))%Z)%K)))).
  { apply ssum_ext. intros i Hi. apply ssum_ext. intros c Hc.
    apply ssum_ext. intros p Hp.
    rewrite HY by lia. unfold conv. fold fv. cbn [present nullTensor]. ring. }
  rewrite transpose_sums.
  apply ssum_ext. intros c Hc. apply ssum_ext. intros k Hk.
  replace (c * fv + k)%Z with (k + fv * c)%Z by ring.
  rewrite HF by lia. f_equal.
  apply ssum_ext. intros i Hi. unfold filter_gradient_image. fold nop.
  rewrite Hisz. reflexivity.
Qed.

Lemma transpose_sums_data (Nf Np Nk : nat) (Pt Fl Dy : Z -> Z -> K) :
  ssum Nf (fun f => ssum Np (fun p =>
    (ssum Nk (fun k => (Pt p k * Fl k f)%K) * Dy p f)%K))
  = ssum Nk (fun k => ssum Np (fun p =>
      (Pt p k * ssum Nf (fun f => (Dy p f * Fl k f)%K))%K)).
Proof.
  transitivity
    (ssum Np (fun p => ssum Nk (fun k => ssum Nf (fun f =>
       (Pt p k * (Dy p f * Fl k f))%K)))).
  - rewrite ssum_swap. apply ssum_ext. intros p _.
    rewrite ssum_swap. apply ssum_ext. intros f _.
    rewrite <- ssum_mul_r. apply ssum_ext. intros k _. ring.
  - rewrite ssum_swap. apply ssum_ext. intros k _.
    apply ssum_ext. intros p _. apply ssum_mul_l.
Qed.

(** Summing a volume against the fold of one patch entry gives the patch
    entry times the value folded. *)
Lemma fold_against (isz : Z) (X : Z -> K) (src : option Z) (v : K) :
  (forall j', src = Some j' -> (0 <= j' < isz)%Z) ->
  ssum (Z.to_nat isz) (fun j =>
    (X j * match src with
           | Some j' => if (j' =? j)%Z then v else szero
           | None => szero
           end)%K)
  = (match src with Some j' => X j' | None => szero end * v)%K.
Proof.
  intros Hsrc. destruct src as [j'|].
  - specialize (Hsrc j' eq_refl).
    rewrite <- (ssum_pick (Z.to_nat isz) j' (fun j => (X j * v)%K)) by lia.
    apply ssum_ext. intros j _. destruct (j' =? j)%Z; ring.
  - rewrite (ssum_ext _ _ (fun _ => szero)).
    + rewrite ssum_zero. ring.
    + intros j _. ring.
Qed.

(** X14. In exact arithmetic the input gradient is the transpose of the
    forward map applied to the output gradient: on consistent shapes, when
    nothing fails and every patch entry is taken from inside the volume,
    the inner product of the output gradient with the output of a forward
    call ([outputMult = 0], [dataMult = 1], no bias) equals the inner
    product of the data with the input gradient a backward call computes
    from the same filters and output gradient. *)
Theorem input_gradient_is_the_transpose_of_forward dataType
    output data filters derFilters derBiases cp (st : Store)
    (lastError : Error) :
  let numOutputPixels :=
    (getDimension output 0 * getDimension output 1
     * getDimension output 2)%Z in
  valid_forward output data filters nullTensor cp ->
  valid_backward data derFilters derBiases data filters output cp ->
  present data = true ->
  (forall p q j,
      (0 <= p < numOutputPixels)%Z ->
      (0 <= q < patch_cols (vol_args data filters cp))%Z ->
      patch_src ext (vol_args data filters cp) p q = Some j ->
      (0 <= j < image_size data)%Z) ->
  all_succeed ->
  let Y :=
    st_store
      (fst (run (nnconv3d_forward_blas dataType output szero data sone
                   filters nullTensor cp) (initial st lastError))) BOutput in
  let dX :=
    st_store
      (fst (run (nnconv3d_backward_blas dataType data derFilters derBiases
                   data filters output cp) (initial st lastError)))
      BDerData in
  dot (image_size output * getDimension output 4) Y (st BDerOutput)
  = dot (image_size data * getDimension output 4) (st BData) dX.
Proof.
  cbv zeta. intros Hvf Hvb Hpd Hsrc Hok.
  pose proof (forward_output dataType output data filters nullTensor szero
                sone cp st lastError Hvf Hok) as HY.
  pose proof (backward_gradients dataType data derFilters derBiases data
                filters output cp Hvb st lastError Hok) as HB.
  cbv zeta in HY, HB. destruct HB as (_ & _ & HX & _).
  specialize (HX Hpd).
  destruct Hvf as (Hfc & Hg & Hdc & Hn & Hnf & Hoc & Hb & Hnop & Hfv & Hrows
                   & _).
  destruct Hvb as (_ & _ & _ & _ & _ & Hd & _ & _).
  destruct (Hd Hpd) as (_ & _ & Hsz & _).
  set (G := Z.quot (getDimension data 3) (getDimension filters 3)) in *.
  set (nfpg := Z.quot (getDimension filters 4) G) in *.
  set (nop := (getDimension output 0 * getDimension output 1
               * getDimension output 2)%Z) in *.
  set (args := vol_args data filters cp) in *.
  assert (HG : backward_numGroups data derFilters data filters = G).
  { unfold backward_numGroups. rewrite Hpd. reflexivity. }
  assert (HV : backward_filtersVolume data derFilters filters
               = filter_volume filters).
  { unfold backward_filtersVolume. rewrite Hpd. reflexivity. }
  rewrite HG, HV, Hoc in HX. fold nfpg in HX.
  set (fv := filter_volume filters) in *.
  assert (Hcols : patch_cols args = (fv * G)%Z).
  { unfold patch_cols, args, vol_args, fv, filter_volume.
    cbn [va_windowHeight va_windowWidth va_windowTime va_depth].
    rewrite Hdc. ring. }
  rewrite Hcols in Hsrc.
  assert (Hisz : image_size output = (nop * (nfpg * G))%Z).
  { unfold image_size. fold nop. rewrite Hoc, Hnf. reflexivity. }
  set (isz := image_size data) in *.
  set (B := getDimension output 4) in *.
  destruct (Z.le_gt_cases B 0) as [HB0|HB0].
  { unfold dot. replace (Z.to_nat (image_size output * B)) with O by nia.
    replace (Z.to_nat (isz * B)) with O by nia. reflexivity. }
  rewrite Hisz, dot_output by nia.
  unfold dot. rewrite ssum_blocks by lia.
  rewrite <- Hb in HY. rewrite Hoc, Hnf, Hisz in HY. fold B in HY.
  apply ssum_ext. intros i Hi.
  (* the forward side, by group *)
  transitivity
    (ssum (Z.to_nat G) (fun g => ssum (Z.to_nat nfpg) (fun f =>
       ssum (Z.to_nat nop) (fun p =>
         (ssum (Z.to_nat fv) (fun k =>
            (patch st args (isz * i) p (g * fv + k)
             * st BFilters (k + fv * (g * nfpg + f))%Z)%K)
          * st BDerOutput
              (nop * (nfpg * G) * i + (p + nop * (g * nfpg + f)))%Z)%K)))).
  { rewrite ssum_blocks by lia. apply ssum_ext. intros g Hg'.
    apply ssum_ext. intros f Hf'. apply ssum_ext. intros p Hp.
    rewrite HY by nia. unfold conv. fold fv args isz.
    cbn [present nullTensor].
    replace ((g * nfpg + f) / nfpg)%Z with g
      by (apply (Z.div_unique _ _ g f); lia).
    ring. }
  (* the backward side, by group *)
  transitivity
    (ssum (Z.to_nat G) (fun g => ssum (Z.to_nat fv) (fun k =>
       ssum (Z.to_nat nop) (fun p =>
         (patch st args (isz * i) p (g * fv + k)
          * ssum (Z.to_nat nfpg) (fun f =>
              (st BDerOutput
                 (nop * (nfpg * G) * i + (p + nop * (g * nfpg + f)))%Z
               * st BFilters (k + fv * (g * nfpg + f))%Z)%K))%K)))).
  { apply ssum_ext. intros g _. apply transpose_sums_data. }
  symmetry.
  transitivity
    (ssum (Z.to_nat (fv * G)) (fun q => ssum (Z.to_nat nop) (fun p =>
       (patch st args (isz * i) p q
        * output_gradient_patch st output nfpg fv i p q)%K))).
  { transitivity
      (ssum (Z.to_nat isz) (fun j =>
         ssum (Z.to_nat (fv * G)) (fun q => ssum (Z.to_nat nop) (fun p =>
           (st BData (isz * i + j)%Z
            * match patch_src ext args p q with
              | Some j' =>
                  if (j' =? j)%Z
                  then output_gradient_patch st output nfpg fv i p q
                  else szero
              | None => szero
              end)%K)))).
    { apply ssum_ext. intros j Hj.
      replace (i * isz + j)%Z with (isz * i + j)%Z by ring.
      rewrite HX by lia. unfold input_gradient. fold nop args.
      rewrite <- ssum_mul_l. apply ssum_ext. intros q _.
      rewrite <- ssum_mul_l. reflexivity. }
    rewrite ssum_swap. apply ssum_ext. intros q Hq.
    rewrite ssum_swap. apply ssum_ext. intros p Hp.
    rewrite (fold_against isz (fun j => st BData (isz * i + j)%Z)).
    - unfold patch. reflexivity.
    - intros j' Hj'. apply (Hsrc p q j'); [lia|lia|exact Hj']. }
  rewrite ssum_blocks by lia. apply ssum_ext. intros g Hg'.
  apply ssum_ext. intros k Hk. apply ssum_ext. intros p Hp.
  unfold output_gradient_patch. fold nop.
  replace ((g * fv + k) / fv)%Z with g
    by (apply (Z.div_unique _ _ g k); lia).
  replace ((g * fv + k) mod fv)%Z with k
    by (apply (Z.mod_unique _ _ g k); lia).
  rewrite Hisz. reflexivity.
Qed.

(** ** The calls a run makes *)

Lemma map_fst_succeeded (l : list Call) : map fst (succeeded l) = l.
Proof.
  unfold succeeded. rewrite map_map. cbn [fst]. apply map_id.
Qed.

Lemma length_range (i : Z) (n : nat) : length (range i n) = n.
Proof. revert i. induction n as [|n IH]; intros i; simpl; congruence. Qed.

Lemma length_flat_map_const {A B} (f : A -> list B) (l : list A) (n : nat) :
  (forall x, length (f x) = n) ->
  length (flat_map f l) = (length l * n)%nat.
Proof.
  intros H. induction l as [|x l IH]; simpl; [reflexivity|].
  rewrite length_app, H, IH. reflexivity.
Qed.

(** Whatever the context answers, the calls a loop made are an initial
    part of its plan. *)
Lemma run_calls_trace (fail : Error -> Exit) (l : list Call) (s : St) :
  exists done rest,
    l = done ++ rest
    /\ map fst (st_trace (fst (finish (run_calls fail l s))))
       = map fst (st_trace s) ++ done.
Proof.
  rewrite fst_finish.
  destruct (run_calls_spec fail l s)
    as [[E _]|(l1 & c & l2 & e & El & _ & _ & E)]; rewrite E.
  - exists l, []. rewrite app_nil_r. split; [reflexivity|].
    cbn [fst st_trace]. rewrite map_app, map_fst_succeeded. reflexivity.
  - exists (l1 ++ [c]), l2. split.
    + rewrite <- app_assoc. exact El.
    + cbn [fst st_trace]. rewrite !map_app, map_fst_succeeded. reflexivity.
Qed.

(** X16. Whatever the context answers, the calls a forward call makes are
    an initial part of one fixed sequence: the workspace acquisition, the
    ones-vector acquisition, then for each image one unfold, one multiply
    per group and, when a bias is supplied, one bias multiply; when nothing
    fails they are the whole sequence. *)
Theorem forward_calls_follow_the_plan dataType output outputMult
    data dataMult filters biases cp (st : Store) (lastError : Error) :
  forward_divides_by_zero data filters = false ->
  let r := run (nnconv3d_forward_blas dataType output outputMult data
                  dataMult filters biases cp) (initial st lastError) in
  let calls := forward_calls dataType output outputMult data dataMult
                 filters biases cp in
  let numGroups := Z.quot (getDimension data 3) (getDimension filters 3) in
  (exists rest, calls = map fst (st_trace (fst r)) ++ rest)
  /\ (all_succeed -> map fst (st_trace (fst r)) = calls)
  /\ length calls
     = (2 + Z.to_nat (getDimension data 4)
            * (1 + Z.to_nat numGroups
               + (if present biases then 1 else 0)))%nat.
Proof.
  intros Hz. cbv zeta.
  unfold forward_divides_by_zero in Hz. apply orb_false_iff in Hz.
  destruct Hz as [Hz1 Hz2].
  split; [|split].
  - unfold run. rewrite forward_unfold, Hz1, Hz2. cbv zeta.
    cbn [initial st_trace st_store st_error st_lastError length app].
    destruct (is_success (oracle 0)); destruct (is_success (oracle 1));
      try (exists (forward_loop_plan dataType output outputMult data dataMult
                     filters biases cp); reflexivity).
    match goal with
    | |- context [run_calls ?f ?l ?s] =>
        destruct (run_calls_trace f l s) as (done & rest & El & Et)
    end.
    exists rest. rewrite Et. cbn [st_trace map fst app].
    unfold forward_calls. rewrite El. reflexivity.
  - intros Hok. apply Z.eqb_neq in Hz1. apply Z.eqb_neq in Hz2.
    rewrite forward_run_ok by assumption.
    cbn [fst st_trace]. apply map_fst_succeeded.
  - unfold forward_calls, forward_loop_plan. cbv zeta. cbn [length].
    rewrite (length_flat_map_const _ _
               (1 + Z.to_nat
                      (Z.quot (getDimension data 3) (getDimension filters 3))
                + (if present biases then 1 else 0))%nat).
    + unfold upto. rewrite length_range. reflexivity.
    + intros image. unfold forward_image_plan. cbv zeta. cbn [length].
      rewrite length_app, length_map. unfold upto. rewrite length_range.
      destruct (present biases); reflexivity.
Qed.

(** X17. Whatever the context answers, the calls a backward call makes are
    an initial part of one fixed sequence: the ones-vector acquisition when
    the bias gradient is requested, the workspace acquisition when
    [tempVolume] is not zero, then for each image one reduce when the bias
    gradient is requested, one multiply per group and one fold when the
    input gradient is, one unfold and one multiply per group when the
    filter gradient is; when nothing fails and no divisor is zero they are
    the whole sequence. *)
Theorem backward_calls_follow_the_plan dataType
    derData derFilters derBiases data filters derOutput cp
    (st : Store) (lastError : Error) :
  let r := run (nnconv3d_backward_blas dataType derData derFilters derBiases
                  data filters derOutput cp) (initial st lastError) in
  let calls := backward_calls dataType derData derFilters derBiases data
                 filters derOutput cp in
  let numGroups := backward_numGroups derData derFilters data filters in
  (exists rest, calls = map fst (st_trace (fst r)) ++ rest)
  /\ (all_succeed ->
      backward_divides_by_zero derData derFilters data filters = false ->
      map fst (st_trace (fst r)) = calls)
  /\ length calls
     = ((if present derBiases then 1 else 0)
        + (if (backward_tempVolume derData derFilters data filters derOutput
               =? 0)%Z then 0 else 1)
        + Z.to_nat (getDimension derOutput 4)
          * ((if present derBiases then 1 else 0)
             + (if present derData then Z.to_nat numGroups + 1 else 0)
             + (if present derFilters then 1 + Z.to_nat numGroups else 0)))%nat.
Proof.
  cbv zeta. split; [|split].
  - unfold run. rewrite backward_unfold. cbv zeta.
    cbn [initial st_trace length]. unfold backward_calls.
    set (pre := if present derBiases
                then [backward_allOnes_call dataType derOutput] else []).
    destruct (present derBiases && negb (is_success (oracle 0))) eqn:E0.
    { apply andb_prop in E0. destruct E0 as [Hp _].
      unfold pre. rewrite Hp. eexists. reflexivity. }
    assert (Ht : map fst (st_trace (backward_after_allOnes dataType derBiases
                                      derOutput (initial st lastError)))
                 = pre).
    { unfold backward_after_allOnes, pre.
      destruct (present derBiases); reflexivity. }
    destruct (backward_divides_by_zero derData derFilters data filters).
    { cbn [finish fst]. rewrite Ht. eexists. reflexivity. }
    destruct (backward_tempVolume derData derFilters data filters derOutput
              =? 0)%Z.
    + match goal with
      | |- context [run_calls ?f ?l ?s] =>
          destruct (run_calls_trace f l s) as (done & rest & El & Et)
      end.
      exists rest. rewrite Et, Ht, El. cbn [app].
      rewrite app_assoc. reflexivity.
    + match goal with
      | |- context [is_success ?e] => destruct (is_success e)
      end.
      * match goal with
        | |- context [run_calls ?f ?l ?s] =>
            destruct (run_calls_trace f l s) as (done & rest & El & Et)
        end.
        exists rest. rewrite Et. cbn [st_trace]. rewrite map_app, Ht, El.
        cbn [map fst]. rewrite <- !app_assoc. reflexivity.
      * cbn [finish fst st_trace]. rewrite map_app, Ht. cbn [map fst].
        eexists. rewrite <- app_assoc. reflexivity.
  - intros Hok Hz. rewrite backward_run_ok by assumption.
    cbn [fst st_trace]. apply map_fst_succeeded.
  - unfold backward_calls, backward_loop_plan. cbv zeta.
    rewrite !length_app.
    rewrite (length_flat_map_const _ _
               ((if present derBiases then 1 else 0)
                + (if present derData
                   then Z.to_nat (backward_numGroups derData derFilters data
                                    filters) + 1
                   else 0)
                + (if present derFilters
                   then 1 + Z.to_nat (backward_numGroups derData derFilters
                                        data filters)
                   else 0))%nat).
    + unfold upto. rewrite length_range.
      destruct (present derBiases);
        destruct (backward_tempVolume derData derFilters data filters
                    derOutput =? 0)%Z; cbn [length]; lia.
    + intros image. unfold backward_image_plan. cbv zeta.
      rewrite !length_app.
      destruct (present derBiases); destruct (present derData);
        destruct (present derFilters);
        cbn [length]; rewrite ?length_app, ?length_map; unfold upto;
        rewrite ?length_range; cbn [length]; lia.
Qed.

(** ** The planner of a backward call, as its calls show it *)

(** Whatever the context answers, the calls a backward call makes are an
    initial part of [backward_calls], and all of it when nothing fails and
    no divisor is zero. *)
Lemma backward_trace dataType derData derFilters derBiases data filters
    derOutput cp (st : Store) (lastError : Error) :
  let r := run (nnconv3d_backward_blas dataType derData derFilters derBiases
                  data filters derOutput cp) (initial st lastError) in
  let calls := backward_calls dataType derData derFilters derBiases data
                 filters derOutput cp in
  (exists rest, calls = map fst (st_trace (fst r)) ++ rest)
  /\ (all_succeed ->
      backward_divides_by_zero derData derFilters data filters = false ->
      map fst (st_trace (fst r)) = calls).
Proof.
  cbv zeta. split.
  - unfold run. rewrite backward_unfold. cbv zeta.
    cbn [initial st_trace length]. unfold backward_calls.
    set (pre := if present derBiases
                then [backward_allOnes_call dataType derOutput] else []).
    destruct (present derBiases && negb (is_success (oracle 0))) eqn:E0.
    { apply andb_prop in E0. destruct E0 as [Hp _].
      unfold pre. rewrite Hp. eexists. reflexivity. }
    assert (Ht : map fst (st_trace (backward_after_allOnes dataType derBiases
                                      derOutput (initial st lastError)))
                 = pre).
    { unfold backward_after_allOnes, pre.
      destruct (present derBiases); reflexivity. }
    destruct (backward_divides_by_zero derData derFilters data filters).
    { cbn [finish fst]. rewrite Ht. eexists. reflexivity. }
    destruct (backward_tempVolume derData derFilters data filters derOutput
              =? 0)%Z.
    + match goal with
      | |- context [run_calls ?f ?l ?s] =>
          destruct (run_calls_trace f l s) as (done & rest & El & Et)
      end.
      exists rest. rewrite Et, Ht, El. cbn [app].
      rewrite app_assoc. reflexivity.
    + match goal with
      | |- context [is_success ?e] => destruct (is_success e)
      end.
      * match goal with
        | |- context [run_calls ?f ?l ?s] =>
            destruct (run_calls_trace f l s) as (done & rest & El & Et)
        end.
        exists rest. rewrite Et. cbn [st_trace]. rewrite map_app, Ht, El.
        cbn [map fst]. rewrite <- !app_assoc. reflexivity.
      * cbn [finish fst st_trace]. rewrite map_app, Ht. cbn [map fst].
        eexists. rewrite <- app_assoc. reflexivity.
  - intros Hok Hz. rewrite backward_run_ok by assumption.
    cbn [fst st_trace]. apply map_fst_succeeded.
Qed.

(** C7, amended. The calls a backward run makes show which tensors its
    planner read. When the input gradient is requested, whether or not the
    filter gradient is requested too, the run asks for a workspace of
    [numOutputPixels * filtersVolume * numGroups] elements and makes its
    multiplies, folds and unfolds with [numGroups] groups and
    [filtersVolume] weights, where [numGroups] is
    [derData.getDimension(3) / filters.getDimension(3)] and [filtersVolume]
    is the volume of [filters]: the dimensions of [derFilters] enter neither.
    When the input gradient is not requested and the filter gradient is,
    they are [data.getDimension(3) / derFilters.getDimension(3)] and the
    volume of [derFilters]. This holds whatever the context answers; when
    nothing fails and the two divisors are not zero the run makes all of
    these calls and returns [vlSuccess], no agreement between the two
    filter volumes being asked for. *)
Theorem input_gradient_request_takes_precedence dataType
    derData derFilters derBiases data filters derOutput cp
    (st : Store) (lastError : Error) :
  let numOutputPixels :=
    (getDimension derOutput 0 * getDimension derOutput 1
     * getDimension derOutput 2)%Z in
  let planned := fun (numGroups filtersVolume : Z) =>
    (if present derBiases then [CGetAllOnes dataType numOutputPixels] else [])
    ++ (if (numOutputPixels * filtersVolume * numGroups =? 0)%Z then []
        else [CGetWorkspace
                (numOutputPixels * filtersVolume * numGroups
                 * sizeof dataType)])
    ++ flat_map
         (backward_image_plan dataType derData derFilters derBiases data
            filters derOutput cp numGroups
            (Z.quot (getDimension derOutput 3) numGroups) numOutputPixels
            filtersVolume (mkPtr BTemp 0) (mkPtr BAllOnes 0))
         (upto (getDimension derOutput 4)) in
  let r := run (nnconv3d_backward_blas dataType derData derFilters derBiases
                  data filters derOutput cp) (initial st lastError) in
  let follows := fun (numGroups filtersVolume divisor : Z) =>
    (exists rest,
        planned numGroups filtersVolume = map fst (st_trace (fst r)) ++ rest)
    /\ (all_succeed ->
        divisor <> 0%Z ->
        numGroups <> 0%Z ->
        map fst (st_trace (fst r)) = planned numGroups filtersVolume
        /\ ((0 < getDimension derOutput 4)%Z ->
            snd r = Returned (Some vlSuccess))) in
  (present derData = true ->
   follows (Z.quot (getDimension derData 3) (getDimension filters 3))
           (filter_volume filters) (getDimension filters 3))
  /\ (present derData = false ->
      present derFilters = true ->
      follows (Z.quot (getDimension data 3) (getDimension derFilters 3))
              (filter_volume derFilters) (getDimension derFilters 3)).
Proof.
  cbv zeta.
  destruct (backward_trace dataType derData derFilters derBiases data filters
              derOutput cp st lastError) as [Hpre Hall].
  cbv zeta in Hpre, Hall.
  split.
  - intros Hpd.
    assert (Hcalls : backward_calls dataType derData derFilters derBiases
                       data filters derOutput cp
                     = (if present derBiases
                        then [CGetAllOnes dataType
                                (getDimension derOutput 0
                                 * getDimension derOutput 1
                                 * getDimension derOutput 2)]
                        else [])
                       ++ (if (getDimension derOutput 0
                               * getDimension derOutput 1
                               * getDimension derOutput 2
                               * filter_volume filters
                               * Z.quot (getDimension derData 3)
                                   (getDimension filters 3) =? 0)%Z
                           then []
                           else [CGetWorkspace
                                   (getDimension derOutput 0
                                    * getDimension derOutput 1
                                    * getDimension derOutput 2
                                    * filter_volume filters
                                    * Z.quot (getDimension derData 3)
                                        (getDimension filters 3)
                                    * sizeof dataType)])
                       ++ flat_map
                            (backward_image_plan dataType derData derFilters
                               derBiases data filters derOutput cp
                               (Z.quot (getDimension derData 3)
                                  (getDimension filters 3))
                               (Z.quot (getDimension derOutput 3)
                                  (Z.quot (getDimension derData 3)
                                     (getDimension filters 3)))
                               (getDimension derOutput 0
                                * getDimension derOutput 1
                                * getDimension derOutput 2)
                               (filter_volume filters) (mkPtr BTemp 0)
                               (mkPtr BAllOnes 0))
                            (upto (getDimension derOutput 4))).
    { unfold backward_calls, backward_loop_plan, backward_workspace_call,
        backward_allOnes_call, backward_tempVolume, backward_numGroups,
        backward_filtersVolume.
      rewrite Hpd. reflexivity. }
    rewrite <- Hcalls. split; [exact Hpre|].
    intros Hok Hf Hg.
    assert (Hz : backward_divides_by_zero derData derFilters data filters
                 = false).
    { unfold backward_divides_by_zero, backward_numGroups. rewrite Hpd.
      apply Z.eqb_neq in Hf, Hg. rewrite Hf, Hg. reflexivity. }
    split; [exact (Hall Hok Hz)|].
    intros Hn. apply backward_succeeds; assumption.
  - intros Hpd Hpf.
    assert (Hcalls : backward_calls dataType derData derFilters derBiases
                       data filters derOutput cp
                     = (if present derBiases
                        then [CGetAllOnes dataType
                                (getDimension derOutput 0
                                 * getDimension derOutput 1
                                 * getDimension derOutput 2)]
                        else [])
                       ++ (if (getDimension derOutput 0
                               * getDimension derOutput 1
                               * getDimension derOutput 2
                               * filter_volume derFilters
                               * Z.quot (getDimension data 3)
                                   (getDimension derFilters 3) =? 0)%Z
                           then []
                           else [CGetWorkspace
                                   (getDimension derOutput 0
                                    * getDimension derOutput 1
                                    * getDimension derOutput 2
                                    * filter_volume derFilters
                                    * Z.quot (getDimension data 3)
                                        (getDimension derFilters 3)
                                    * sizeof dataType)])
                       ++ flat_map
                            (backward_image_plan dataType derData derFilters
                               derBiases data filters derOutput cp
                               (Z.quot (getDimension data 3)
                                  (getDimension derFilters 3))
                               (Z.quot (getDimension derOutput 3)
                                  (Z.quot (getDimension data 3)
                                     (getDimension derFilters 3)))
                               (getDimension derOutput 0
                                * getDimension derOutput 1
                                * getDimension derOutput 2)
                               (filter_volume derFilters) (mkPtr BTemp 0)
                               (mkPtr BAllOnes 0))
                            (upto (getDimension derOutput 4))).
    { unfold backward_calls, backward_loop_plan, backward_workspace_call,
        backward_allOnes_call, backward_tempVolume, backward_numGroups,
        backward_filtersVolume.
      rewrite Hpd, Hpf. reflexivity. }
    rewrite <- Hcalls. split; [exact Hpre|].
    intros Hok Hf Hg.
    assert (Hz : backward_divides_by_zero derData derFilters data filters
                 = false).
    { unfold backward_divides_by_zero, backward_numGroups.
      rewrite Hpd, Hpf.
      apply Z.eqb_neq in Hf, Hg. rewrite Hf, Hg. reflexivity. }
    split; [exact (Hall Hok Hz)|].
    intros Hn. apply backward_succeeds; assumption.
Qed.

(** ** The bias gradient, whatever [getDepth] returns *)

Lemma ssum_step (i : Z) (f : Z -> K) :
  (0 <= i)%Z ->
  ssum (Z.to_nat (i + 1)) f = (ssum (Z.to_nat i) f + f i)%K.
Proof.
  intros H. replace (Z.to_nat (i + 1)) with (S (Z.to_nat i)) by lia.
  cbn [ssum]. rewrite Z2Nat.id by exact H. reflexivity.
Qed.

(** The reduce of one image covers [getDepth] entries. *)
Lemma bias_call_effect dataType derOutput (st0 stX : Store) (image : Z) :
  let numOutputPixels :=
    (getDimension derOutput 0 * getDimension derOutput 1
     * getDimension derOutput 2)%Z in
  (forall a, stX BDerOutput a = st0 BDerOutput a) ->
  (forall p, (0 <= p < numOutputPixels)%Z -> stX BAllOnes p = sone) ->
  let stY :=
    exec_call
      (backward_bias_call dataType derOutput numOutputPixels
         (mkPtr BAllOnes 0) (image_size derOutput * image) image) stX in
  (forall b a, b <> BDerBiases -> stY b a = stX b a)
  /\ (forall c,
         (0 <= c < getDepth ext derOutput)%Z ->
         stY BDerBiases c
         = (bias_gradient_image st0 derOutput image c
            + (if (image >? 0)%Z then sone else szero)
              * stX BDerBiases c)%K)
  /\ (forall a,
         ~ (0 <= a < getDepth ext derOutput)%Z ->
         stY BDerBiases a = stX BDerBiases a).
Proof.
  cbv zeta. intros HdO Hones.
  set (numOutputPixels := (getDimension derOutput 0 * getDimension derOutput 1
                           * getDimension derOutput 2)%Z) in *.
  split; [|split].
  - intros b a Hb'. unfold backward_bias_call. cbv zeta.
    cbn [exec_call typed sc_val]. apply exec_gemv_other. exact Hb'.
  - intros c Hc. unfold backward_bias_call. cbv zeta.
    cbn [exec_call typed sc_val].
    replace c with (poff (mkPtr BDerBiases 0) + c)%Z at 1 by (cbn [poff]; lia).
    change BDerBiases with (pbuf (mkPtr BDerBiases 0)) at 1.
    rewrite exec_gemv_inside by exact Hc.
    cbn [pbuf poff]. rewrite Z.add_0_l.
    f_equal. unfold gemv_entry, bias_gradient_image. cbv zeta.
    fold numOutputPixels.
    transitivity
      (ssum (Z.to_nat numOutputPixels) (fun l =>
         (load stX (mkPtr BDerOutput (image_size derOutput * image))
               (l + c * numOutputPixels)
          * load stX (mkPtr BAllOnes 0) (l * 1))%K)).
    { ring. }
    apply ssum_ext. intros l Hl. unfold load. cbn [pbuf poff].
    rewrite HdO.
    replace (0 + l * 1)%Z with l by lia.
    rewrite Hones by lia.
    replace (image_size derOutput * image + (l + c * numOutputPixels))%Z
      with (image_size derOutput * image + (l + numOutputPixels * c))%Z by ring.
    ring.
  - intros a Ha. apply exec_call_frame.
    cbn [writes backward_bias_call]. unfold in_operand.
    cbn [pbuf poff Buf_eqb andb].
    apply in_matrix_outside. lia.
Qed.

(** The calls of one image that follow the reduce leave the output
    gradient, the ones vector and the bias gradient alone. *)
Lemma backward_image_rest_frame dataType derData derFilters data filters
    derOutput cp numGroups numFiltersPerGroup numOutputPixels filtersVolume
    (image : Z) (st : Store) (b : Buf) (a : Z) :
  b = BDerOutput \/ b = BAllOnes \/ b = BDerBiases ->
  exec_calls
    (backward_image_plan dataType derData derFilters nullTensor data filters
       derOutput cp numGroups numFiltersPerGroup numOutputPixels
       filtersVolume (mkPtr BTemp 0) (mkPtr BAllOnes 0) image) st b a
  = st b a.
Proof.
  intros Hb. apply exec_calls_frame. intros c Hc.
  unfold backward_image_plan in Hc. cbv zeta in Hc.
  cbn [present nullTensor app] in Hc.
  apply in_app_or in Hc. destruct Hc as [Hc|Hc].
  - destruct (present derData); [|destruct Hc].
    apply in_app_or in Hc. destruct Hc as [Hc|[<-|[]]].
    + apply in_map_iff in Hc. destruct Hc as (g & <- & _).
      cbn [writes backward_data_call]. unfold in_operand. cbn [pbuf padd].
      destruct Hb as [->|[->| ->]]; reflexivity.
    + cbn [writes fold_call pbuf].
      destruct Hb as [->|[->| ->]]; reflexivity.
  - destruct (present derFilters); [|destruct Hc].
    destruct Hc as [<-|Hc].
    + cbn [writes unfold_call]. unfold in_operand. cbn [pbuf].
      destruct Hb as [->|[->| ->]]; reflexivity.
    + apply in_map_iff in Hc. destruct Hc as (g & <- & _).
      cbn [writes backward_filter_call]. unfold in_operand. cbn [pbuf].
      destruct Hb as [->|[->| ->]]; reflexivity.
Qed.

(** The bias gradient after the loop. *)
Lemma backward_bias_loop dataType derData derFilters derBiases data filters
    derOutput cp (st0 st1 : Store) :
  let numOutputPixels :=
    (getDimension derOutput 0 * getDimension derOutput 1
     * getDimension derOutput 2)%Z in
  present derBiases = true ->
  (forall b a, b <> BAllOnes -> st1 b a = st0 b a) ->
  (forall p, (0 <= p < numOutputPixels)%Z -> st1 BAllOnes p = sone) ->
  let stF :=
    exec_calls
      (backward_loop_plan dataType derData derFilters derBiases data filters
         derOutput cp) st1 in
  ((0 < getDimension derOutput 4)%Z ->
   forall c,
     (0 <= c < getDepth ext derOutput)%Z ->
     stF BDerBiases c
     = ssum (Z.to_nat (getDimension derOutput 4))
         (fun image => bias_gradient_image st0 derOutput image c))
  /\ (forall a,
         ~ (0 <= a < getDepth ext derOutput)%Z ->
         stF BDerBiases a = st0 BDerBiases a).
Proof.
  cbv zeta. intros Hpb Hst1 Hones.
  set (numOutputPixels := (getDimension derOutput 0 * getDimension derOutput 1
                           * getDimension derOutput 2)%Z) in *.
  set (R := fun (i : Z) (st : Store) =>
    (forall a, st BDerOutput a = st0 BDerOutput a)
    /\ (forall p, (0 <= p < numOutputPixels)%Z -> st BAllOnes p = sone)
    /\ ((0 < i)%Z ->
        forall c,
          (0 <= c < getDepth ext derOutput)%Z ->
          st BDerBiases c
          = ssum (Z.to_nat i)
              (fun image => bias_gradient_image st0 derOutput image c))
    /\ (forall a,
           ~ (0 <= a < getDepth ext derOutput)%Z ->
           st BDerBiases a = st0 BDerBiases a)).
  destruct (Z.le_gt_cases 0 (getDimension derOutput 4)) as [Hn0|Hn0].
  2:{ split; [intros; lia|].
      intros a Ha. unfold backward_loop_plan. cbv zeta.
      rewrite upto_empty by lia. cbn [flat_map exec_calls fold_left].
      apply Hst1. discriminate. }
  assert (HR : R (0 + Z.of_nat (Z.to_nat (getDimension derOutput 4)))%Z
                 (exec_calls
                    (backward_loop_plan dataType derData derFilters derBiases
                       data filters derOutput cp) st1)).
  { unfold backward_loop_plan. cbv zeta. unfold upto.
    fold numOutputPixels.
    apply exec_calls_flat_map_inv.
    - unfold R. split; [|split; [|split]].
      + intros a. apply Hst1. discriminate.
      + exact Hones.
      + intros; lia.
      + intros a _. apply Hst1. discriminate.
    - intros i st Hi (R1 & R2 & R3 & R4).
      unfold backward_image_plan. cbv zeta. rewrite Hpb. cbn [app].
      rewrite exec_calls_cons.
      destruct (bias_call_effect dataType derOutput st0 st i R1 R2)
        as (E1 & E2 & E3).
      fold numOutputPixels in E1, E2, E3.
      match goal with
      | |- R _ (exec_calls ?l ?s) =>
          assert (Hfr : forall b a,
                     b = BDerOutput \/ b = BAllOnes \/ b = BDerBiases ->
                     exec_calls l s b a = s b a)
      end.
      { intros b a Hb.
        exact (backward_image_rest_frame dataType derData derFilters data
                 filters derOutput cp _ _ _ _ i _ b a Hb). }
      unfold R. split; [|split; [|split]].
      + intros a. rewrite Hfr by tauto. rewrite E1 by discriminate. apply R1.
      + intros p Hp. rewrite Hfr by tauto. rewrite E1 by discriminate.
        apply R2, Hp.
      + intros _ c Hc. rewrite Hfr by tauto. rewrite (E2 c Hc).
        rewrite ssum_step by lia.
        destruct (Z.eq_dec i 0) as [->|Hi0].
        * simpl. ring.
        * rewrite (R3 ltac:(lia) c Hc).
          destruct (Z.gtb_spec i 0); [ring|lia].
      + intros a Ha. rewrite Hfr by tauto. rewrite (E3 a Ha). apply R4, Ha. }
  rewrite upto_range in HR by exact Hn0.
  destruct HR as (_ & _ & R3 & R4).
  split; [exact R3|exact R4].
Qed.

(** The bias gradient a backward call ends with when nothing fails. *)
Lemma backward_bias_sum dataType derData derFilters derBiases data filters
    derOutput cp (st : Store) (lastError : Error) :
  all_succeed ->
  backward_divides_by_zero derData derFilters data filters = false ->
  present derBiases = true ->
  let r := run (nnconv3d_backward_blas dataType derData derFilters derBiases
                  data filters derOutput cp) (initial st lastError) in
  ((0 < getDimension derOutput 4)%Z ->
   forall c,
     (0 <= c < getDepth ext derOutput)%Z ->
     st_store (fst r) BDerBiases c
     = ssum (Z.to_nat (getDimension derOutput 4))
         (fun image => bias_gradient_image st derOutput image c))
  /\ (forall a,
         ~ (0 <= a < getDepth ext derOutput)%Z ->
         st_store (fst r) BDerBiases a = st BDerBiases a).
Proof.
  intros Hok Hz Hpb. cbv zeta.
  rewrite backward_run_ok by assumption.
  cbn [fst st_store]. unfold backward_calls. rewrite !exec_calls_app.
  rewrite Hpb.
  apply backward_bias_loop.
  - exact Hpb.
  - intros b a Hb'.
    destruct (backward_tempVolume derData derFilters data filters derOutput
              =? 0)%Z;
      cbn [exec_calls fold_left exec_call backward_allOnes_call
           backward_workspace_call];
      unfold exec_allOnes; rewrite (Buf_eqb_neq _ _ Hb'); reflexivity.
  - intros p Hp.
    assert (Hone : exec_calls [backward_allOnes_call dataType derOutput] st
                     BAllOnes p = sone).
    { cbn [exec_calls fold_left exec_call backward_allOnes_call].
      unfold exec_allOnes. cbn [Buf_eqb].
      destruct (Z.leb_spec 0 p); [|lia].
      match goal with
      | |- context [(p <? ?n)%Z] => destruct (Z.ltb_spec p n)
      end; [reflexivity|lia]. }
    destruct (backward_tempVolume derData derFilters data filters derOutput
              =? 0)%Z; exact Hone.
Qed.

Lemma consistent_backward_defined derData derFilters derBiases data filters
    derOutput cp :
  consistent_backward derData derFilters derBiases data filters derOutput
    cp ->
  backward_divides_by_zero derData derFilters data filters = false.
Proof.
  intros (Hv & _). exact (valid_backward_defined _ _ _ _ _ _ _ Hv).
Qed.

(** X1. The bias gradient of a call that also requests the input or the
    filter gradient, on consistent shapes, over a non-empty batch and when
    nothing fails. The reduce covers [derOutput.getDepth()] entries,
    whatever that accessor returns: each of them ends as the sum, over the
    output positions and the images, of the slice of the output gradient
    that starts [numOutputPixels] times its index into the image, whatever
    the destination held; every other entry of the bias gradient is left as
    it was. *)
Theorem bias_gradient_is_the_batch_sum dataType
    derData derFilters derBiases data filters derOutput cp
    (st : Store) (lastError : Error) :
  consistent_backward derData derFilters derBiases data filters derOutput
    cp ->
  all_succeed ->
  present derBiases = true ->
  (0 < getDimension derOutput 4)%Z ->
  let r := run (nnconv3d_backward_blas dataType derData derFilters derBiases
                  data filters derOutput cp) (initial st lastError) in
  snd r = Returned (Some vlSuccess)
  /\ (forall c,
         (0 <= c < getDepth ext derOutput)%Z ->
         st_store (fst r) BDerBiases c
         = ssum (Z.to_nat (getDimension derOutput 4))
             (fun image => bias_gradient_image st derOutput image c))
  /\ (forall a,
         ~ (0 <= a < getDepth ext derOutput)%Z ->
         st_store (fst r) BDerBiases a = st BDerBiases a).
Proof.
  intros Hc Hok Hpb Hpos. cbv zeta.
  pose proof (consistent_backward_defined _ _ _ _ _ _ _ Hc) as Hz.
  destruct (backward_bias_sum dataType derData derFilters derBiases data
              filters derOutput cp st lastError Hok Hz Hpb) as (HB & HU).
  split; [apply backward_succeeds; assumption|].
  split; [exact (HB Hpos)|exact HU].
Qed.

(** X15. In exact arithmetic, over the [getDepth] channels the reduce
    covers, the bias gradient is the transpose of the bias broadcast: on
    consistent shapes, over a non-empty batch and when nothing fails, the
    inner product, over those channels, of the output gradient with the
    output of a forward call that only broadcasts the bias
    ([outputMult = 0], [dataMult = 0]) equals the inner product of the bias
    with the bias gradient a backward call computes from the same output
    gradient. Nothing is assumed of what [getDepth] returns but that it
    does not exceed the channel count. *)
Theorem bias_gradient_is_the_transpose_of_broadcast dataType
    output data filters biases derData derFilters derBiases cp (st : Store)
    (lastError : Error) :
  let numOutputPixels :=
    (getDimension output 0 * getDimension output 1
     * getDimension output 2)%Z in
  valid_forward output data filters biases cp ->
  consistent_backward derData derFilters derBiases data filters output cp ->
  present biases = true ->
  present derBiases = true ->
  all_succeed ->
  (0 < getDimension output 4)%Z ->
  let Y :=
    st_store
      (fst (run (nnconv3d_forward_blas dataType output szero data szero
                   filters biases cp) (initial st lastError))) BOutput in
  let dB :=
    st_store
      (fst (run (nnconv3d_backward_blas dataType derData derFilters derBiases
                   data filters output cp) (initial st lastError)))
      BDerBiases in
  ssum (Z.to_nat (getDimension output 4)) (fun image =>
    ssum (Z.to_nat (getDepth ext output)) (fun c =>
      ssum (Z.to_nat numOutputPixels) (fun p =>
        (Y (image_size output * image + (p + numOutputPixels * c))%Z
         * st BDerOutput
             (image_size output * image + (p + numOutputPixels * c))%Z)%K)))
  = dot (getDepth ext output) (st BBiases) dB.
Proof.
  cbv zeta. intros Hvf Hcb Hpb Hpdb Hok Hpos.
  pose proof (forward_output dataType output data filters biases szero
                szero cp st lastError Hvf Hok) as HY.
  pose proof (consistent_backward_defined _ _ _ _ _ _ _ Hcb) as Hz.
  destruct (backward_bias_sum dataType derData derFilters derBiases data
              filters output cp st lastError Hok Hz Hpdb) as (HB & _).
  specialize (HB Hpos). cbv zeta in HY.
  destruct Hcb as (_ & _ & _ & HtB). destruct (HtB Hpdb) as (Hdepth & _).
  destruct Hvf as (Hfc & Hg & Hdc & Hn & Hnf & Hoc & Hb & Hnop & Hfv & Hrows
                   & _).
  rewrite <- Hb in HY.
  rewrite ssum_swap. unfold dot.
  apply ssum_ext. intros c Hc.
  rewrite HB by lia. rewrite <- ssum_mul_l.
  apply ssum_ext. intros i Hi.
  unfold bias_gradient_image. cbv zeta. rewrite <- ssum_mul_l.
  apply ssum_ext. intros p Hp.
  rewrite HY by lia. rewrite Hpb. ring.
Qed.

(** ** What a failing forward call leaves behind *)

Lemma range_app (i : Z) (n m : nat) :
  range i (n + m) = range i n ++ range (i + Z.of_nat n) m.
Proof.
  revert i. induction n as [|n IH]; intros i.
  - cbn [Nat.add range app]. f_equal. lia.
  - cbn [Nat.add range app]. rewrite IH. do 3 f_equal. lia.
Qed.

Lemma app_prefix_split {A} (a0 l1 l2 b0 : list A) :
  l1 ++ l2 = a0 ++ b0 ->
  (length a0 <= length l1)%nat ->
  exists l1', l1 = a0 ++ l1' /\ b0 = l1' ++ l2.
Proof.
  revert l1. induction a0 as [|x a0 IH]; intros l1 H Hlen.
  - exists l1. split; [reflexivity|]. symmetry. exact H.
  - destruct l1 as [|y l1]; [simpl in Hlen; lia|].
    simpl in H. injection H as -> H. simpl in Hlen.
    destruct (IH l1 H ltac:(lia)) as (l1' & -> & ->).
    exists l1'. split; reflexivity.
Qed.

(** X18. A forward call does not undo what it has done: on consistent
    shapes, if the two acquisitions and the calls of the first [i] images
    succeed, then the first [i] images of the output hold
    [outputMult * prior + dataMult * convolution + bias] when the call
    returns, whatever the context answers to the calls that follow. *)
Theorem completed_images_survive_a_failure dataType output outputMult
    data dataMult filters biases cp (st : Store) (lastError : Error)
    (i : Z) :
  let numGroups := Z.quot (getDimension data 3) (getDimension filters 3) in
  let numFiltersPerGroup := Z.quot (getDimension filters 4) numGroups in
  let numOutputPixels :=
    (getDimension output 0 * getDimension output 1
     * getDimension output 2)%Z in
  let callsPerImage :=
    (1 + Z.to_nat numGroups + (if present biases then 1 else 0))%nat in
  valid_forward output data filters biases cp ->
  (0 <= i <= getDimension data 4)%Z ->
  (forall n, (n < 2 + Z.to_nat i * callsPerImage)%nat ->
             oracle n = vlSuccess) ->
  forall image p c,
    (0 <= image < i)%Z ->
    (0 <= p < numOutputPixels)%Z ->
    (0 <= c < getDimension output 3)%Z ->
    st_store
      (fst (run (nnconv3d_forward_blas dataType output outputMult data
                   dataMult filters biases cp) (initial st lastError)))
      BOutput (image_size output * image + (p + numOutputPixels * c))%Z
    = (outputMult
       * st BOutput (image_size output * image + (p + numOutputPixels * c))%Z
       + dataMult * conv st data filters cp numFiltersPerGroup image p c
       + (if present biases then st BBiases c else szero))%K.
Proof.
  cbv zeta. intros Hvalid Hi Hor image p c Himg Hp Hc.
  pose proof Hvalid as Hv.
  destruct Hv as (Hfc & Hg & Hdc & Hn & Hnf & Hoc & Hb & Hnop & Hfv & Hrows
                  & Hbias).
  set (numGroups := Z.quot (getDimension data 3) (getDimension filters 3))
    in *.
  set (numFiltersPerGroup := Z.quot (getDimension filters 4) numGroups) in *.
  set (numOutputPixels := (getDimension output 0 * getDimension output 1
                           * getDimension output 2)%Z) in *.
  set (cpi := (1 + Z.to_nat numGroups
               + (if present biases then 1 else 0))%nat) in *.
  set (f := forward_image_plan dataType output outputMult data dataMult
              filters biases cp numGroups numFiltersPerGroup numOutputPixels
              (filter_volume filters) (mkPtr BTemp 0) (mkPtr BAllOnes 0)).
  set (planA := flat_map f (range 0 (Z.to_nat i))).
  set (planB := flat_map f
                  (range (0 + Z.of_nat (Z.to_nat i))
                     (Z.to_nat (getDimension data 4) - Z.to_nat i))).
  set (st1 := exec_call (forward_allOnes_call dataType output) st).
  assert (Hplan : forward_loop_plan dataType output outputMult data dataMult
                    filters biases cp = planA ++ planB).
  { unfold forward_loop_plan. cbv zeta. fold numGroups numFiltersPerGroup
      numOutputPixels f. unfold upto, planA, planB.
    rewrite <- flat_map_app, <- range_app. do 2 f_equal. lia. }
  assert (Hlen : forall image', length (f image') = cpi).
  { intros image'. unfold f, forward_image_plan. cbv zeta. cbn [length].
    rewrite length_app, length_map. unfold upto. rewrite length_range.
    unfold cpi. destruct (present biases); cbn [length]; lia. }
  assert (HlenA : length planA = (Z.to_nat i * cpi)%nat).
  { unfold planA. rewrite (length_flat_map_const f _ cpi Hlen), length_range.
    reflexivity. }
  assert (Hisz : image_size output
                 = (numOutputPixels * (numFiltersPerGroup * numGroups))%Z).
  { unfold image_size. fold numOutputPixels. rewrite Hoc, Hnf. reflexivity. }
  (* the store the call ends with *)
  assert (Hstore : exists l1',
             (exists l2, planB = l1' ++ l2)
             /\ st_store
                  (fst (run (nnconv3d_forward_blas dataType output outputMult
                               data dataMult filters biases cp)
                            (initial st lastError)))
                = exec_calls l1' (exec_calls planA st1)).
  { unfold run. rewrite fst_finish, forward_unfold.
    replace (getDimension filters 3 =? 0)%Z with false
      by (symmetry; apply Z.eqb_neq; lia).
    fold numGroups.
    replace (numGroups =? 0)%Z with false by (symmetry; apply Z.eqb_neq; lia).
    cbv zeta. cbn [initial st_trace st_store st_error st_lastError length].
    rewrite (Hor 0%nat) by lia. rewrite (Hor 1%nat) by lia.
    cbn [is_success]. fold st1. rewrite Hplan.
    match goal with
    | |- context [run_calls ?fl ?l ?s] =>
        destruct (run_calls_spec fl l s)
          as [[E _]|(l1 & c0 & l2 & e & El & Ee & Hne & E)]; rewrite E
    end.
    - exists planB. split; [exists []; rewrite app_nil_r; reflexivity|].
      cbn [fst st_store]. apply exec_calls_app.
    - cbn [st_trace length app] in Ee.
      assert (Hge : (length planA <= length l1)%nat).
      { rewrite HlenA.
        destruct (Nat.le_gt_cases (Z.to_nat i * cpi) (length l1))
          as [Hle|Hgt]; [exact Hle|].
        exfalso. apply Hne. rewrite Ee. apply Hor. lia. }
      symmetry in El.
      destruct (app_prefix_split planA l1 (c0 :: l2) planB El Hge)
        as (l1' & -> & HB).
      exists l1'. split; [exists (c0 :: l2); exact HB|].
      cbn [fst st_store]. apply exec_calls_app. }
  destruct Hstore as (l1' & (l2 & HB) & ->).
  assert (Ha : (image_size output * image + (p + numOutputPixels * c)
                < image_size output * i)%Z).
  { rewrite Hisz. rewrite Hoc, Hnf in Hc.
    set (C := (numFiltersPerGroup * numGroups)%Z) in *.
    assert (H1 : (p + numOutputPixels * c < numOutputPixels * C)%Z) by nia.
    assert (H2 : (numOutputPixels * C * image + numOutputPixels * C
                  <= numOutputPixels * C * i)%Z) by nia.
    lia. }
  (* the calls of the later images leave the first images alone *)
  rewrite exec_calls_frame.
  2:{ intros c' Hc'.
      assert (Hin : In c' planB) by (rewrite HB; apply in_or_app; left;
                                     exact Hc').
      unfold planB in Hin. apply in_flat_map in Hin.
      destruct Hin as (image' & Hi' & Hin). apply In_range in Hi'.
      unfold f, forward_image_plan in Hin. cbv zeta in Hin.
      destruct (writes c' BOutput
                  (image_size output * image + (p + numOutputPixels * c)))
        eqn:W; [exfalso|reflexivity].
      assert (Hoff : (image_size output * i <= image_size output * image')%Z).
      { rewrite Hisz. nia. }
      destruct Hin as [<-|Hin].
      { cbn [writes unfold_call] in W. unfold in_operand in W.
        cbn [pbuf Buf_eqb andb] in W. discriminate W. }
      apply in_app_or in Hin. destruct Hin as [Hin|Hin].
      - apply in_map_iff in Hin. destruct Hin as (g & <- & Hg').
        apply In_upto in Hg'.
        cbn [writes forward_group_call] in W.
        apply in_operand_block in W. cbn [pbuf poff] in W.
        destruct W as [_ W]. nia.
      - destruct (present biases); [|destruct Hin].
        destruct Hin as [<-|[]].
        cbn [writes forward_bias_call] in W.
        apply in_operand_block in W. cbn [pbuf poff] in W.
        destruct W as [_ W]. lia. }
  (* the calls of the first images *)
  assert (Hv' : valid_forward (with_batch output i) (with_batch data i)
                  filters biases cp).
  { unfold valid_forward. cbv zeta.
    exact (conj Hfc (conj Hg (conj Hdc (conj Hn (conj Hnf (conj Hoc
            (conj eq_refl (conj Hnop (conj Hfv (conj Hrows Hbias)))))))))). }
  pose proof (forward_loop_effect dataType (with_batch output i)
                (with_batch data i) filters biases outputMult dataMult cp
                Hv' st st1) as HE.
  cbv zeta in HE.
  assert (H1 : forall b a, b <> BAllOnes -> st1 b a = st b a).
  { intros b a Hne. unfold st1, forward_allOnes_call. cbn [exec_call].
    unfold exec_allOnes. rewrite (Buf_eqb_neq _ _ Hne). reflexivity. }
  assert (H2 : forall p0, (0 <= p0 < numOutputPixels)%Z ->
                          st1 BAllOnes p0 = sone).
  { intros p0 Hp0. unfold st1, forward_allOnes_call. cbn [exec_call].
    unfold exec_allOnes. fold numOutputPixels. cbn [Buf_eqb].
    destruct (Z.leb_spec 0 p0); [|lia].
    destruct (Z.ltb_spec p0 numOutputPixels); [reflexivity|lia]. }
  exact (HE H1 H2 image p c Himg Hp Hc).
Qed.

(** ** What a run reads *)

Lemma Buf_eqb_false (a b : Buf) : Buf_eqb a b = false -> a <> b.
Proof. intros H ->. rewrite Buf_eqb_refl in H. discriminate H. Qed.

(** A call that does not read buffer [X] acts alike on memories that
    differ in [X] only. *)
Lemma exec_call_agree (X : Buf) (c : Call) (st st' : Store) :
  reads c X = false ->
  (forall b a, b <> X -> st b a = st' b a) ->
  forall b a, b <> X -> exec_call c st b a = exec_call c st' b a.
Proof.
  intros Hr Hag b a Hb.
  destruct c; cbn [reads] in Hr; cbn [exec_call].
  - apply Hag, Hb.
  - unfold exec_allOnes.
    destruct (Buf_eqb b BAllOnes && (0 <=? a)%Z && (a <? n)%Z);
      [reflexivity|apply Hag, Hb].
  - apply Buf_eqb_false in Hr. unfold exec_vol2row. cbv zeta.
    match goal with |- (if ?t then _ else _) = _ => destruct t end;
      [|apply Hag, Hb].
    destruct (patch_src ext a0 _ _); [|reflexivity].
    unfold load. apply Hag. congruence.
  - apply Buf_eqb_false in Hr. unfold exec_row2vol. cbv zeta.
    match goal with |- (if ?t then _ else _) = _ => destruct t end;
      [|apply Hag, Hb].
    unfold fold_entry. cbv zeta.
    apply ssum_ext. intros q _. apply ssum_ext. intros p _.
    destruct (patch_src ext a0 p q); [|reflexivity].
    destruct (_ =? _)%Z; [|reflexivity].
    unfold load. apply Hag. congruence.
  - apply orb_false_iff in Hr. destruct Hr as [Hr HC].
    apply orb_false_iff in Hr. destruct Hr as [HA HB].
    apply Buf_eqb_false in HA. apply Buf_eqb_false in HB.
    unfold exec_gemm. cbv zeta.
    match goal with |- (if ?t then _ else _) = _ => destruct t end;
      [|apply Hag, Hb].
    rewrite (Hag b a Hb). f_equal. f_equal.
    unfold gemm_entry. apply ssum_ext. intros l _.
    unfold load. destruct ta, tb;
      rewrite (Hag (pbuf A)) by congruence;
      rewrite (Hag (pbuf B)) by congruence; reflexivity.
  - apply orb_false_iff in Hr. destruct Hr as [Hr Hy].
    apply orb_false_iff in Hr. destruct Hr as [HA Hx].
    apply Buf_eqb_false in HA. apply Buf_eqb_false in Hx.
    unfold exec_gemv. cbv zeta.
    match goal with |- (if ?t then _ else _) = _ => destruct t end;
      [|apply Hag, Hb].
    rewrite (Hag b a Hb). f_equal. f_equal.
    unfold gemv_entry. destruct t; apply ssum_ext; intros l _;
      unfold load;
      rewrite (Hag (pbuf A)) by congruence;
      rewrite (Hag (pbuf x)) by congruence; reflexivity.
Qed.

(** Whatever the context answers, a loop none of whose calls reads [X]
    acts alike on memories that differ in [X] only. *)
Lemma run_calls_agree (X : Buf) (fail : Error -> Exit) (l : list Call) :
  (forall c, In c l -> reads c X = false) ->
  forall s s',
    length (st_trace s) = length (st_trace s') ->
    (forall b a, b <> X -> st_store s b a = st_store s' b a) ->
    forall b a,
      b <> X ->
      st_store (fst (run_calls fail l s)) b a
      = st_store (fst (run_calls fail l s')) b a.
Proof.
  induction l as [|c l IH]; intros Hr s s' Hlen Hag b a Hb.
  - apply Hag, Hb.
  - rewrite !run_calls_cons. cbv zeta. rewrite <- Hlen.
    destruct (is_success (oracle (length (st_trace s)))).
    + apply IH.
      * intros c' Hc'. apply Hr. right. exact Hc'.
      * cbn [st_trace]. rewrite !length_app, Hlen. reflexivity.
      * cbn [st_store]. apply (exec_call_agree X); [|exact Hag].
        apply Hr. left. reflexivity.
      * exact Hb.
    + cbn [fst st_store]. apply Hag, Hb.
Qed.

(** X19. On consistent shapes, whatever the context answers, a backward
    call that is not asked for the filter gradient never reads the data,
    and one that is not asked for the input gradient never reads the
    filters: started on two memories that differ in that buffer only, it
    ends on memories that differ in that buffer only. *)
Theorem backward_reads_only_what_the_request_needs dataType
    derData derFilters derBiases data filters derOutput cp
    (st st2 : Store) (lastError : Error) (X : Buf) :
  consistent_backward derData derFilters derBiases data filters derOutput
    cp ->
  (X = BData /\ present derFilters = false)
  \/ (X = BFilters /\ present derData = false) ->
  (forall b a, b <> X -> st2 b a = st b a) ->
  forall b a,
    b <> X ->
    st_store
      (fst (run (nnconv3d_backward_blas dataType derData derFilters derBiases
                   data filters derOutput cp) (initial st2 lastError))) b a
    = st_store
        (fst (run (nnconv3d_backward_blas dataType derData derFilters
                     derBiases data filters derOutput cp)
                  (initial st lastError))) b a.
Proof.
  intros _ HX Hag b a Hb.
  assert (Hplan : forall c,
             In c (backward_loop_plan dataType derData derFilters derBiases
                     data filters derOutput cp) ->
             reads c X = false).
  { intros c Hc.
    assert (Hin : In c (backward_calls dataType derData derFilters derBiases
                          data filters derOutput cp)).
    { unfold backward_calls. apply in_or_app. right.
      apply in_or_app. right. exact Hc. }
    apply backward_calls_cases in Hin.
    destruct Hin
      as [(Hp & ->)
         |[->
          |(image & _
            & [(Hp & ->)
              |[(Hp & [(g & _ & ->)| ->])
               |(Hp & [->|(g & _ & ->)])]])]];
      destruct HX as [[-> HX]|[-> HX]];
      try reflexivity; congruence. }
  assert (Hones : forall b' a',
             b' <> X ->
             st_store (backward_after_allOnes dataType derBiases derOutput
                         (initial st2 lastError)) b' a'
             = st_store (backward_after_allOnes dataType derBiases derOutput
                           (initial st lastError)) b' a').
  { intros b' a' Hb'. unfold backward_after_allOnes.
    destruct (present derBiases); [|apply Hag, Hb'].
    cbn [st_store initial].
    apply (exec_call_agree X);
      [destruct HX as [[-> _]|[-> _]]; reflexivity|exact Hag|exact Hb']. }
  assert (Hlen : length (st_trace (backward_after_allOnes dataType derBiases
                                     derOutput (initial st2 lastError)))
                 = length (st_trace (backward_after_allOnes dataType
                                       derBiases derOutput
                                       (initial st lastError)))).
  { unfold backward_after_allOnes. destruct (present derBiases); reflexivity. }
  unfold run. rewrite !fst_finish, !backward_unfold. cbv zeta.
  cbn [initial st_trace length].
  destruct (present derBiases && negb (is_success (oracle 0)));
    [apply Hag, Hb|].
  destruct (backward_divides_by_zero derData derFilters data filters);
    [apply Hones, Hb|].
  destruct (backward_tempVolume derData derFilters data filters derOutput
            =? 0)%Z.
  - apply (run_calls_agree X);
      [exact Hplan|exact Hlen|exact Hones|exact Hb].
  - fold (initial st2 lastError). fold (initial st lastError).
    rewrite Hlen.
    match goal with
    | |- context [is_success ?e] => destruct (is_success e)
    end.
    + apply (run_calls_agree X); [exact Hplan| |exact Hones|exact Hb].
      cbn [st_trace]. rewrite !length_app, Hlen. reflexivity.
    + cbn [fst st_store]. apply Hones, Hb.
Qed.

(** X20. The images of a forward call are independent: on consistent
    shapes, when nothing fails and every patch entry is taken from inside
    the volume, image [image] of the output depends on the memory only
    through image [image] of the data, the filters, the biases and what
    image [image] of the output held. *)
Theorem forward_images_are_independent dataType output outputMult
    data dataMult filters biases cp (st st2 : Store)
    (lastError lastError2 : Error) (image : Z) :
  let numOutputPixels :=
    (getDimension output 0 * getDimension output 1
     * getDimension output 2)%Z in
  valid_forward output data filters biases cp ->
  all_succeed ->
  (forall p q j,
      (0 <= p < numOutputPixels)%Z ->
      (0 <= q < patch_cols (vol_args data filters cp))%Z ->
      patch_src ext (vol_args data filters cp) p q = Some j ->
      (0 <= j < image_size data)%Z) ->
  (0 <= image < getDimension data 4)%Z ->
  (forall a,
      (image_size data * image <= a
       < image_size data * image + image_size data)%Z ->
      st2 BData a = st BData a) ->
  (forall a,
      (image_size output * image <= a
       < image_size output * image + image_size output)%Z ->
      st2 BOutput a = st BOutput a) ->
  (forall a, st2 BFilters a = st BFilters a) ->
  (forall a, st2 BBiases a = st BBiases a) ->
  forall p c,
    (0 <= p < numOutputPixels)%Z ->
    (0 <= c < getDimension output 3)%Z ->
    st_store
      (fst (run (nnconv3d_forward_blas dataType output outputMult data
                   dataMult filters biases cp) (initial st2 lastError2)))
      BOutput (image_size output * image + (p + numOutputPixels * c))%Z
    = st_store
        (fst (run (nnconv3d_forward_blas dataType output outputMult data
                     dataMult filters biases cp) (initial st lastError)))
        BOutput (image_size output * image + (p + numOutputPixels * c))%Z.
Proof.
  cbv zeta. intros Hvalid Hok Hsrc Himg HD HO HF HB p c Hp Hc.
  rewrite !(forward_output dataType output data filters biases outputMult
              dataMult cp _ _ Hvalid Hok) by assumption.
  destruct Hvalid as (Hfc & Hg & Hdc & Hn & Hnf & Hoc & Hb & Hnop & Hfv
                      & Hrows & Hbias).
  set (G := Z.quot (getDimension data 3) (getDimension filters 3)) in *.
  set (nfpg := Z.quot (getDimension filters 4) G) in *.
  set (nop := (getDimension output 0 * getDimension output 1
               * getDimension output 2)%Z) in *.
  assert (Hisz : image_size output = (nop * getDimension output 3)%Z)
    by reflexivity.
  assert (Hcols : patch_cols (vol_args data filters cp)
                  = (filter_volume filters * G)%Z).
  { unfold patch_cols, vol_args, filter_volume.
    cbn [va_windowHeight va_windowWidth va_windowTime va_depth].
    rewrite Hdc. ring. }
  rewrite Hcols in Hsrc.
  rewrite HO by (rewrite Hisz; nia).
  rewrite HB. f_equal. f_equal. f_equal.
  unfold conv. cbv zeta. apply ssum_ext. intros k Hk.
  rewrite HF. f_equal. unfold patch.
  destruct (patch_src ext (vol_args data filters cp) p
              (c / nfpg * filter_volume filters + k)) as [j|] eqn:E;
    [|reflexivity].
  assert (Hq : (0 <= c / nfpg < G)%Z).
  { rewrite Hoc, Hnf in Hc.
    assert (0 < nfpg)%Z by nia.
    split; [apply Z.div_pos; lia|apply Z.div_lt_upper_bound; nia]. }
  apply HD.
  assert (Hj : (0 <= j < image_size data)%Z).
  { apply (Hsrc p (c / nfpg * filter_volume filters + k)%Z j);
      [exact Hp|nia|exact E]. }
  lia.
Qed.

(** X21. A forward call acquires the ones vector whether or not a bias is
    supplied, and cannot do without it: when that acquisition fails, the
    call returns its error, calls no primitive and leaves the memory as it
    was, also when [biases] is null and the ones vector would not have
    been used. *)
Theorem forward_needs_the_ones_vector dataType output outputMult
    data dataMult filters biases cp (st : Store) (lastError : Error) :
  forward_divides_by_zero data filters = false ->
  oracle 0 = vlSuccess ->
  oracle 1 <> vlSuccess ->
  let r := run (nnconv3d_forward_blas dataType output outputMult data
                  dataMult filters biases cp) (initial st lastError) in
  snd r = Returned (Some (oracle 1))
  /\ st_trace (fst r)
     = [(forward_workspace_call dataType output data filters, vlSuccess);
        (forward_allOnes_call dataType output, oracle 1)]
  /\ forall b a, st_store (fst r) b a = st b a.
Proof.
  intros Hz H0 H1. cbv zeta. unfold run. rewrite forward_unfold.
  unfold forward_divides_by_zero in Hz. apply orb_false_iff in Hz.
  destruct Hz as [Hz1 Hz2]. rewrite Hz1, Hz2. cbv zeta.
  cbn [initial st_trace st_store st_error st_lastError length app].
  rewrite H0. cbn [is_success].
  apply is_success_false in H1. rewrite H1.
  cbn [finish fst snd st_trace st_store st_error passError].
  repeat split.
Qed.

End Model.

(** * Concrete runs *)

Lemma always_succeeds_ok : all_succeed always_succeeds.
Proof. intros n. reflexivity. Defined.

Lemma example_valid_forward :
  valid_forward column_externals example_output example_data example_filters
    example_biases unit_stride.
Proof.
  unfold valid_forward. cbn. repeat split; try lia; intros; reflexivity.
Defined.

Lemma example_valid_backward :
  valid_backward column_externals example_data example_filters example_biases
    example_data example_filters example_output unit_stride.
Proof.
  unfold valid_backward. cbn. repeat split; try lia; intros; reflexivity.
Defined.

Lemma example_valid_backward_one :
  valid_backward column_externals (with_batch example_data 1) example_filters
    example_biases (with_batch example_data 1) example_filters
    (with_batch example_output 1) unit_stride.
Proof.
  unfold valid_backward. cbn. repeat split; try lia; intros; reflexivity.
Defined.

(** The forward call on the example, with [outputMult = 3] and
    [dataMult = 2]: the second output position of the second image ends as
    [3 * 5 + 2 * (5 * 1 + 6 * 2) + 10]. *)
Lemma forward_computes_convolution_witness :
  st_store ZScalar
    (fst (run ZScalar
            (nnconv3d_forward_blas ZScalar column_externals always_succeeds
               vlTypeFloat example_output 3 example_data 2 example_filters
               example_biases unit_stride)
            (initial ZScalar example_store vlSuccess)))
    BOutput 3
  = 59.
Proof.
  exact (proj2 (forward_computes_convolution ZScalar column_externals
                  always_succeeds vlTypeFloat example_output example_data
                  example_filters example_biases 3 2 unit_stride
                  example_valid_forward example_store vlSuccess
                  always_succeeds_ok)
               1 1 0 ltac:(cbn; lia) ltac:(cbn; lia) ltac:(cbn; lia)).
Defined.

(** The backward call on the example: position 1 of the second image's
    input gradient lies under both output positions and receives
    [3 * 2 + 4 * 1], whatever the destination held. *)
Lemma input_gradient_is_folded_per_image_witness :
  st_store ZScalar
    (fst (run ZScalar
            (nnconv3d_backward_blas ZScalar column_externals always_succeeds
               vlTypeFloat example_data example_filters example_biases
               example_data example_filters example_output unit_stride)
            (initial ZScalar example_store vlSuccess)))
    BDerData 4
  = 10.
Proof.
  exact (proj1 (proj2
           (input_gradient_is_folded_per_image ZScalar column_externals
              always_succeeds vlTypeFloat example_data example_filters
              example_biases example_data example_filters example_output
              unit_stride example_valid_backward example_store vlSuccess
              always_succeeds_ok eq_refl))
           1 1 ltac:(cbn; lia) ltac:(cbn; lia)).
Defined.

(** The filter gradient of the example batch, at the first weight: [37]
    for the two images together, [5] and [32] for each alone. *)
Lemma filter_gradient_is_additive_over_the_batch_witness :
  let grad := fun (dD dt dO : Tensor) (s : Buf -> Z -> Z) =>
    st_store ZScalar
      (fst (run ZScalar
              (nnconv3d_backward_blas ZScalar column_externals always_succeeds
                 vlTypeFloat dD example_filters example_biases dt
                 example_filters dO unit_stride)
              (initial ZScalar s vlSuccess))) BDerFilters in
  grad example_data example_data example_output example_store 0 = 37
  /\ grad example_data example_data example_output example_store 0
     = grad (with_batch example_data 1) (with_batch example_data 1)
            (with_batch example_output 1) example_store 0
       + grad (with_batch example_data 1) (with_batch example_data 1)
              (with_batch example_output 1)
              (second_image ZScalar example_data example_output example_store)
              0.
Proof.
  pose proof (filter_gradient_is_additive_over_the_batch ZScalar
                column_externals always_succeeds vlTypeFloat example_data
                example_filters example_biases example_data example_filters
                example_output unit_stride example_store vlSuccess
                example_valid_backward example_valid_backward_one
                always_succeeds_ok eq_refl 0 0
                ltac:(cbn; lia) ltac:(cbn; lia)) as [H1 H2].
  split.
  - exact (H1 ltac:(cbn; lia)).
  - exact (H2 eq_refl).
Defined.

(** A forward call whose three input channels are not a multiple of the
    filters' two: the group count is truncated to one and the call returns
    [vlSuccess], not [ShapeMismatch]. *)
Lemma inexact_division_counterexample :
  Z.rem (getDimension inexact_data 3) (getDimension inexact_filters 3) <> 0
  /\ snd (run ZScalar
            (nnconv3d_forward_blas ZScalar column_externals always_succeeds
               vlTypeFloat inexact_output 0 inexact_data 1 inexact_filters
               nullTensor unit_stride)
            (initial ZScalar example_store vlSuccess))
     = Returned (Some vlSuccess)
  /\ Returned (Some vlSuccess) <> Returned (Some ShapeMismatch).
Proof.
  split; [|split].
  - vm_compute. discriminate.
  - vm_compute. reflexivity.
  - discriminate.
Qed.

Lemma inexact_division_is_not_rejected_witness :
  snd (run ZScalar
         (nnconv3d_forward_blas ZScalar column_externals always_succeeds
            vlTypeFloat inexact_output 0 inexact_data 1 inexact_filters
            nullTensor unit_stride)
         (initial ZScalar example_store vlSuccess))
  = Returned (Some vlSuccess)
  /\ snd (run ZScalar
            (nnconv3d_backward_blas ZScalar column_externals always_succeeds
               vlTypeFloat inexact_data nullTensor nullTensor inexact_data
               inexact_filters inexact_output unit_stride)
            (initial ZScalar example_store vlSuccess))
     = Returned (Some vlSuccess).
Proof.
  pose proof (inexact_division_is_not_rejected ZScalar column_externals
                always_succeeds vlTypeFloat inexact_output 0 inexact_data 1
                inexact_filters nullTensor inexact_data nullTensor nullTensor
                inexact_output unit_stride example_store vlSuccess
                always_succeeds_ok) as [Hf Hb].
  split.
  - apply Hf; cbn; lia.
  - apply Hb; [reflexivity|cbn; lia].
Defined.

(** A backward call that requests both gradients with a filter-gradient
    destination of another filter volume than the filters: the call returns
    [vlSuccess]. *)
Lemma filter_volume_disagreement_counterexample :
  filter_volume example_filters <> filter_volume disagreeing_derFilters
  /\ present example_data = true
  /\ present disagreeing_derFilters = true
  /\ snd (run ZScalar
            (nnconv3d_backward_blas ZScalar column_externals always_succeeds
               vlTypeFloat example_data disagreeing_derFilters nullTensor
               example_data example_filters example_output unit_stride)
            (initial ZScalar example_store vlSuccess))
     = Returned (Some vlSuccess).
Proof.
  split; [|split; [|split]].
  - vm_compute. discriminate.
  - reflexivity.
  - reflexivity.
  - vm_compute. reflexivity.
Qed.

(** Groups of two output positions, two filters and three weights: element
    7 of the filter bank is touched by the multiply of group 1 and lies in
    block 1 of stride 6; the multiply of group 0 does not touch it. *)
Lemma group_multiplies_keep_to_their_block_witness :
  touches ZScalar
    (forward_group_call ZScalar vlTypeFloat 1 1 2 2 3 (mkPtr BTemp 0) 0 1)
    BFilters 7 = true
  /\ group_block 6 0 1 7
  /\ touches ZScalar
       (forward_group_call ZScalar vlTypeFloat 1 1 2 2 3 (mkPtr BTemp 0) 0 0)
       BFilters 7 = false.
Proof.
  pose proof (group_multiplies_keep_to_their_block ZScalar vlTypeFloat 1 1
                2 2 3 0 0) as (_ & (Hw & _ & _) & Ha).
  split; [reflexivity|split].
  - exact (Hw 1 BFilters 7 eq_refl).
  - exact (proj1 (Ha 1 0 BFilters 7 ltac:(lia)) eq_refl).
Defined.

(** The forward call on the example when the first multiply fails: four
    calls are made, nothing follows the failing one, and the caller gets
    [ComputeError]. *)
Lemma first_failure_ends_the_call_witness :
  length
    (st_trace ZScalar
       (fst (run ZScalar
               (nnconv3d_forward_blas ZScalar column_externals
                  (fails_at 3 ComputeError) vlTypeFloat example_output 3
                  example_data 2 example_filters example_biases unit_stride)
               (initial ZScalar example_store vlSuccess)))) = 4%nat
  /\ exists e',
       snd (run ZScalar
              (nnconv3d_forward_blas ZScalar column_externals
                 (fails_at 3 ComputeError) vlTypeFloat example_output 3
                 example_data 2 example_filters example_biases unit_stride)
              (initial ZScalar example_store vlSuccess))
       = Returned (Some e')
       /\ e' <> vlSuccess.
Proof.
  split; [vm_compute; reflexivity|].
  refine (proj2 (proj1 (first_failure_ends_the_call ZScalar column_externals
                          (fails_at 3 ComputeError) vlTypeFloat example_output
                          3 example_data 2 example_filters example_biases
                          example_data example_filters example_biases
                          example_output unit_stride example_store vlSuccess)
                       3%nat _ ComputeError _ _)).
  - vm_compute. reflexivity.
  - discriminate.
Defined.

(** The bias-only backward call on a single output element. *)
Lemma bias_only_backward_divides_by_zero_witness :
  snd (run ZScalar
         (nnconv3d_backward_blas ZScalar column_externals always_succeeds
            vlTypeFloat nullTensor nullTensor example_biases example_data
            example_filters single_derOutput unit_stride)
         (initial ZScalar example_store vlSuccess))
  = DivisionByZero.
Proof.
  exact (proj1 (bias_only_backward_divides_by_zero ZScalar column_externals
                  always_succeeds vlTypeFloat nullTensor nullTensor
                  example_biases example_data example_filters
                  single_derOutput unit_stride example_store vlSuccess
                  eq_refl eq_refl eq_refl eq_refl)).
Defined.

(** C2. A backward call that requests the bias gradient alone, on one
    output element holding [1]: the call ends in the division by zero, and
    the destination still holds [100] where the sum of the output gradient
    is [1]. *)
Theorem bias_only_call_leaves_no_bias_gradient :
  let r := run ZScalar
             (nnconv3d_backward_blas ZScalar column_externals always_succeeds
                vlTypeFloat nullTensor nullTensor example_biases example_data
                example_filters single_derOutput unit_stride)
             (initial ZScalar example_store vlSuccess) in
  snd r = DivisionByZero
  /\ st_store ZScalar (fst r) BDerBiases 0 = 100
  /\ ssum ZScalar (Z.to_nat (getDimension single_derOutput 4))
       (fun image =>
          bias_gradient_image ZScalar example_store single_derOutput image 0)
     = 1.
Proof. cbv zeta. repeat split. Qed.

(** The double-precision backward call on the example. *)
Lemma input_gradient_scales_are_float_witness :
  In (backward_data_call ZScalar 1 2 2 (mkPtr BTemp 0) 0 0)
     (backward_calls ZScalar column_externals vlTypeDouble example_data
        example_filters example_biases example_data example_filters
        example_output unit_stride)
  /\ scale_types ZScalar (backward_data_call ZScalar 1 2 2 (mkPtr BTemp 0) 0 0)
     = [vlTypeFloat; vlTypeFloat].
Proof.
  pose proof (input_gradient_scales_are_float ZScalar column_externals
                example_data example_filters example_biases example_data
                example_filters example_output unit_stride eq_refl
                ltac:(cbn; lia) ltac:(cbn; lia)) as (Hin & Hty & _).
  split; [exact Hin|exact Hty].
Defined.

(** The multiply of group 1 on the example store leaves element 100 of the
    output, which it does not touch, as it was. *)
Lemma touches_is_the_footprint_witness :
  exec_call ZScalar column_externals
    (forward_group_call ZScalar vlTypeFloat 3 2 2 2 3 (mkPtr BTemp 0) 0 1)
    example_store BOutput 100
  = example_store BOutput 100.
Proof.
  exact (proj1 (touches_is_the_footprint ZScalar column_externals
                  (forward_group_call ZScalar vlTypeFloat 3 2 2 2 3
                     (mkPtr BTemp 0) 0 1)
                  example_store example_store eq_refl)
               BOutput 100 eq_refl).
Defined.

(** ** Consistent shapes *)

Lemma example_consistent_backward :
  consistent_backward column_externals example_data example_filters
    example_biases example_data example_filters example_output unit_stride.
Proof.
  unfold consistent_backward, valid_backward, tensor_size. cbn.
  repeat split; try lia; intros; try reflexivity; discriminate.
Defined.

(** The request for the filter gradient alone. *)
Lemma example_consistent_backward_filters :
  consistent_backward column_externals nullTensor example_filters nullTensor
    example_data example_filters example_output unit_stride.
Proof.
  unfold consistent_backward, valid_backward, tensor_size. cbn.
  repeat split; try lia; intros; try reflexivity; discriminate.
Defined.

(** The request for the input and the bias gradient. *)
Lemma example_consistent_backward_data :
  consistent_backward column_externals example_data nullTensor example_biases
    example_data example_filters example_output unit_stride.
Proof.
  unfold consistent_backward, valid_backward, tensor_size. cbn.
  repeat split; try lia; intros; try reflexivity; discriminate.
Defined.

Lemma slab_valid_forward :
  valid_forward pointwise_externals slab_output slab_data slab_filters
    slab_biases unit_stride.
Proof.
  unfold valid_forward. cbn. repeat split; try lia; intros; reflexivity.
Defined.

(** The request for the filter and the bias gradient on the slab, where
    [getDepth] is two and the channels are three. *)
Lemma slab_consistent_backward :
  consistent_backward pointwise_externals nullTensor slab_filters slab_biases
    slab_data slab_filters slab_output unit_stride.
Proof.
  unfold consistent_backward, valid_backward, tensor_size. cbn.
  repeat split; try lia; intros; try reflexivity; discriminate.
Defined.

(** The backward call with a filter-gradient destination of volume one
    where the filters have volume two, both gradients requested: the
    workspace asked for is of [2 * 2 * 1] elements of four bytes, the
    filter volume being that of the filters, and the call returns
    [vlSuccess]. *)
Lemma input_gradient_request_takes_precedence_witness :
  hd_error
    (map fst
       (st_trace ZScalar
          (fst (run ZScalar
                  (nnconv3d_backward_blas ZScalar column_externals
                     always_succeeds vlTypeFloat example_data
                     disagreeing_derFilters nullTensor example_data
                     example_filters example_output unit_stride)
                  (initial ZScalar example_store vlSuccess)))))
  = Some (CGetWorkspace ZScalar 16)
  /\ snd (run ZScalar
            (nnconv3d_backward_blas ZScalar column_externals always_succeeds
               vlTypeFloat example_data disagreeing_derFilters nullTensor
               example_data example_filters example_output unit_stride)
            (initial ZScalar example_store vlSuccess))
     = Returned (Some vlSuccess).
Proof.
  destruct (proj2 (proj1 (input_gradient_request_takes_precedence ZScalar
                            column_externals always_succeeds vlTypeFloat
                            example_data disagreeing_derFilters nullTensor
                            example_data example_filters example_output
                            unit_stride example_store vlSuccess) eq_refl)
                  always_succeeds_ok ltac:(cbn; lia) ltac:(cbn; lia))
    as [Ht Hs].
  split.
  - rewrite Ht. reflexivity.
  - apply Hs. cbn. lia.
Defined.

(** The backward call on the slab, where [getDepth] is two and the output
    gradient has three channels: the first two entries of the bias gradient
    are [1 + 2] and [3 + 4], and the third still holds [100]. *)
Lemma bias_gradient_is_the_batch_sum_witness :
  let final :=
    st_store ZScalar
      (fst (run ZScalar
              (nnconv3d_backward_blas ZScalar pointwise_externals
                 always_succeeds vlTypeFloat nullTensor slab_filters
                 slab_biases slab_data slab_filters slab_output unit_stride)
              (initial ZScalar example_store vlSuccess))) BDerBiases in
  final 0 = 3 /\ final 1 = 7 /\ final 2 = 100.
Proof.
  destruct (bias_gradient_is_the_batch_sum ZScalar pointwise_externals
              always_succeeds vlTypeFloat nullTensor slab_filters slab_biases
              slab_data slab_filters slab_output unit_stride example_store
              vlSuccess slab_consistent_backward always_succeeds_ok eq_refl
              ltac:(cbn; lia)) as (_ & Hsum & Hrest).
  split; [|split].
  - exact (Hsum 0 ltac:(cbn; lia)).
  - exact (Hsum 1 ltac:(cbn; lia)).
  - exact (Hrest 2 ltac:(cbn; lia)).
Defined.

(** ** Runs that fail and runs on an empty batch *)

Lemma example_valid_forward_without_bias :
  valid_forward column_externals example_output example_data example_filters
    nullTensor unit_stride.
Proof.
  unfold valid_forward. cbn. repeat split; try lia; intros; discriminate.
Defined.

(** On the example, with a window of height two over a volume of height
    three, every patch entry is taken from inside the volume. *)
Lemma example_patches_inside (p q j : Z) :
  0 <= p < getDimension example_output 0 * getDimension example_output 1
           * getDimension example_output 2 ->
  0 <= q < patch_cols (vol_args example_data example_filters unit_stride) ->
  patch_src column_externals
    (vol_args example_data example_filters unit_stride) p q = Some j ->
  0 <= j < image_size example_data.
Proof.
  cbn. intros Hp Hq H. injection H as <-.
  assert (Hq' : q = 0 \/ q = 1) by lia.
  destruct Hq' as [-> | ->]; cbn; lia.
Defined.

Lemma fails_at_later (k : nat) (e : Error) (n : nat) :
  (n < k)%nat -> fails_at k e n = vlSuccess.
Proof.
  intros H. unfold fails_at. destruct (Nat.eqb_spec n k); [lia|reflexivity].
Defined.

(** The forward call on the example when the first multiply fails: the
    filters are as they were. *)
Lemma forward_changes_only_output_and_scratch_witness :
  st_store ZScalar
    (fst (run ZScalar
            (nnconv3d_forward_blas ZScalar column_externals
               (fails_at 3 ComputeError) vlTypeFloat example_output 3
               example_data 2 example_filters example_biases unit_stride)
            (initial ZScalar example_store vlSuccess)))
    BFilters 1
  = example_store BFilters 1.
Proof.
  apply (forward_changes_only_output_and_scratch ZScalar column_externals
           (fails_at 3 ComputeError) vlTypeFloat example_output 3
           example_data 2 example_filters example_biases unit_stride
           example_store vlSuccess BFilters 1 example_valid_forward);
    discriminate.
Defined.

(** The forward call on the example: the output has four elements, and
    element 4 of its buffer still holds [5]. *)
Lemma forward_writes_stay_in_bounds_witness :
  st_store ZScalar
    (fst (run ZScalar
            (nnconv3d_forward_blas ZScalar column_externals always_succeeds
               vlTypeFloat example_output 3 example_data 2 example_filters
               example_biases unit_stride)
            (initial ZScalar example_store vlSuccess)))
    BOutput 4
  = 5.
Proof.
  exact (forward_writes_stay_in_bounds ZScalar column_externals
           always_succeeds vlTypeFloat example_output 3 example_data 2
           example_filters example_biases unit_stride example_store vlSuccess
           4 example_valid_forward ltac:(unfold tensor_size; cbn; lia)).
Defined.

(** The backward call on the example that asks for the filter gradient
    alone: the input-gradient buffer still holds [100]. *)
Lemma backward_changes_only_requested_gradients_witness :
  st_store ZScalar
    (fst (run ZScalar
            (nnconv3d_backward_blas ZScalar column_externals always_succeeds
               vlTypeFloat nullTensor example_filters nullTensor example_data
               example_filters example_output unit_stride)
            (initial ZScalar example_store vlSuccess)))
    BDerData 0
  = 100.
Proof.
  exact (backward_changes_only_requested_gradients ZScalar column_externals
           always_succeeds vlTypeFloat nullTensor example_filters nullTensor
           example_data example_filters example_output unit_stride
           example_store vlSuccess BDerData 0
           example_consistent_backward_filters eq_refl).
Defined.

(** The backward call on the example: the filter gradient has two
    elements, and element 2 of its buffer still holds [100]. *)
Lemma backward_writes_stay_in_bounds_witness :
  st_store ZScalar
    (fst (run ZScalar
            (nnconv3d_backward_blas ZScalar column_externals always_succeeds
               vlTypeFloat example_data example_filters example_biases
               example_data example_filters example_output unit_stride)
            (initial ZScalar example_store vlSuccess)))
    BDerFilters 2
  = 100.
Proof.
  exact (proj1 (proj2
           (backward_writes_stay_in_bounds ZScalar column_externals
              always_succeeds vlTypeFloat example_data example_filters
              example_biases example_data example_filters example_output
              unit_stride example_store vlSuccess 2
              example_consistent_backward))
           ltac:(unfold tensor_size; cbn; lia)).
Defined.

(** The forward call on the example when both acquisitions fail, the
    workspace with [OutOfMemory] and the ones vector with [ComputeError]:
    the caller gets the later of the two. *)
Lemma forward_returns_the_status_of_its_trace_witness :
  snd (run ZScalar
         (nnconv3d_forward_blas ZScalar column_externals
            (fun n => match n with
                      | O => OutOfMemory
                      | _ => ComputeError
                      end)
            vlTypeFloat example_output 3 example_data 2 example_filters
            example_biases unit_stride)
         (initial ZScalar example_store vlSuccess))
  = Returned (Some ComputeError).
Proof.
  exact (proj1 (forward_returns_the_status_of_its_trace ZScalar
                  column_externals
                  (fun n => match n with
                            | O => OutOfMemory
                            | _ => ComputeError
                            end)
                  vlTypeFloat example_output 3 example_data 2
                  example_filters example_biases unit_stride example_store
                  vlSuccess)).
Defined.

(** The backward call on the example when the workspace acquisition, its
    second call, fails with [OutOfMemory]. *)
Lemma backward_returns_the_status_of_its_trace_witness :
  snd (run ZScalar
         (nnconv3d_backward_blas ZScalar column_externals
            (fails_at 1 OutOfMemory) vlTypeFloat example_data example_filters
            example_biases example_data example_filters example_output
            unit_stride)
         (initial ZScalar example_store vlSuccess))
  = Returned (Some OutOfMemory).
Proof.
  exact (backward_returns_the_status_of_its_trace ZScalar column_externals
           (fails_at 1 OutOfMemory) vlTypeFloat example_data example_filters
           example_biases example_data example_filters example_output
           unit_stride example_store vlSuccess).
Defined.

(** The forward call on the example shapes with a batch of zero images. *)
Lemma forward_on_an_empty_batch_witness :
  snd (run ZScalar
         (nnconv3d_forward_blas ZScalar column_externals always_succeeds
            vlTypeFloat (with_batch example_output 0) 3
            (with_batch example_data 0) 2 example_filters example_biases
            unit_stride)
         (initial ZScalar example_store vlSuccess))
  = Returned None.
Proof.
  exact (proj1 (forward_on_an_empty_batch ZScalar column_externals
                  always_succeeds vlTypeFloat (with_batch example_output 0) 3
                  (with_batch example_data 0) 2 example_filters
                  example_biases unit_stride example_store vlSuccess
                  (Z.le_refl 0) eq_refl eq_refl eq_refl)).
Defined.

(** The backward call on the example shapes with a batch of zero images:
    the bias gradient still holds [100]. *)
Lemma backward_on_an_empty_batch_witness :
  snd (run ZScalar
         (nnconv3d_backward_blas ZScalar column_externals always_succeeds
            vlTypeFloat example_data example_filters example_biases
            example_data example_filters (with_batch example_output 0)
            unit_stride)
         (initial ZScalar example_store vlSuccess))
  = Returned None
  /\ st_store ZScalar
       (fst (run ZScalar
               (nnconv3d_backward_blas ZScalar column_externals
                  always_succeeds vlTypeFloat example_data example_filters
                  example_biases example_data example_filters
                  (with_batch example_output 0) unit_stride)
               (initial ZScalar example_store vlSuccess)))
       BDerBiases 0
     = 100.
Proof.
  pose proof (backward_on_an_empty_batch ZScalar column_externals
                always_succeeds vlTypeFloat example_data example_filters
                example_biases example_data example_filters
                (with_batch example_output 0) unit_stride example_store
                vlSuccess (Z.le_refl 0) eq_refl eq_refl eq_refl)
    as (Hs & _ & Hst).
  split; [exact Hs|].
  exact (Hst BDerBiases 0 ltac:(discriminate)).
Defined.

(** On the example both inner products are [131]. *)
Lemma filter_gradient_is_the_transpose_of_forward_witness :
  dot ZScalar (image_size example_output * getDimension example_output 4)
    (st_store ZScalar
       (fst (run ZScalar
               (nnconv3d_forward_blas ZScalar column_externals
                  always_succeeds vlTypeFloat example_output 0 example_data 1
                  example_filters nullTensor unit_stride)
               (initial ZScalar example_store vlSuccess))) BOutput)
    (example_store BDerOutput)
  = dot ZScalar (filter_volume example_filters * getDimension example_filters 4)
      (example_store BFilters)
      (st_store ZScalar
         (fst (run ZScalar
                 (nnconv3d_backward_blas ZScalar column_externals
                    always_succeeds vlTypeFloat example_data example_filters
                    example_biases example_data example_filters
                    example_output unit_stride)
                 (initial ZScalar example_store vlSuccess))) BDerFilters)
  /\ dot ZScalar (filter_volume example_filters * getDimension example_filters 4)
       (example_store BFilters)
       (st_store ZScalar
          (fst (run ZScalar
                  (nnconv3d_backward_blas ZScalar column_externals
                     always_succeeds vlTypeFloat example_data example_filters
                     example_biases example_data example_filters
                     example_output unit_stride)
                  (initial ZScalar example_store vlSuccess))) BDerFilters)
     = 131.
Proof.
  split.
  - exact (filter_gradient_is_the_transpose_of_forward ZScalar
             column_externals always_succeeds vlTypeFloat example_output
             example_data example_filters example_data example_biases
             unit_stride example_store vlSuccess
             example_valid_forward_without_bias example_valid_backward
             eq_refl always_succeeds_ok ltac:(cbn; lia)).
  - vm_compute. reflexivity.
Defined.

(** On the example both inner products are [131]. *)
Lemma input_gradient_is_the_transpose_of_forward_witness :
  dot ZScalar (image_size example_output * getDimension example_output 4)
    (st_store ZScalar
       (fst (run ZScalar
               (nnconv3d_forward_blas ZScalar column_externals
                  always_succeeds vlTypeFloat example_output 0 example_data 1
                  example_filters nullTensor unit_stride)
               (initial ZScalar example_store vlSuccess))) BOutput)
    (example_store BDerOutput)
  = dot ZScalar (image_size example_data * getDimension example_output 4)
      (example_store BData)
      (st_store ZScalar
         (fst (run ZScalar
                 (nnconv3d_backward_blas ZScalar column_externals
                    always_succeeds vlTypeFloat example_data example_filters
                    example_biases example_data example_filters
                    example_output unit_stride)
                 (initial ZScalar example_store vlSuccess))) BDerData)
  /\ dot ZScalar (image_size example_data * getDimension example_output 4)
       (example_store BData)
       (st_store ZScalar
          (fst (run ZScalar
                  (nnconv3d_backward_blas ZScalar column_externals
                     always_succeeds vlTypeFloat example_data example_filters
                     example_biases example_data example_filters
                     example_output unit_stride)
                  (initial ZScalar example_store vlSuccess))) BDerData)
     = 131.
Proof.
  split.
  - exact (input_gradient_is_the_transpose_of_forward ZScalar
             column_externals always_succeeds vlTypeFloat example_output
             example_data example_filters example_filters example_biases
             unit_stride example_store vlSuccess
             example_valid_forward_without_bias example_valid_backward
             eq_refl example_patches_inside always_succeeds_ok).
  - vm_compute. reflexivity.
Defined.

(** On the slab, where [getDepth] is two and the channels are three, both
    inner products over the two channels covered are [100]. *)
Lemma bias_gradient_is_the_transpose_of_broadcast_witness :
  let Y :=
    st_store ZScalar
      (fst (run ZScalar
              (nnconv3d_forward_blas ZScalar pointwise_externals
                 always_succeeds vlTypeFloat slab_output 0 slab_data 0
                 slab_filters slab_biases unit_stride)
              (initial ZScalar example_store vlSuccess))) BOutput in
  let dB :=
    st_store ZScalar
      (fst (run ZScalar
              (nnconv3d_backward_blas ZScalar pointwise_externals
                 always_succeeds vlTypeFloat nullTensor slab_filters
                 slab_biases slab_data slab_filters slab_output unit_stride)
              (initial ZScalar example_store vlSuccess))) BDerBiases in
  ssum ZScalar 1 (fun image =>
    ssum ZScalar 2 (fun c =>
      ssum ZScalar 2 (fun p =>
        Y (6 * image + (p + 2 * c)) * example_store BDerOutput
                                        (6 * image + (p + 2 * c)))))
  = dot ZScalar 2 (example_store BBiases) dB
  /\ dot ZScalar 2 (example_store BBiases) dB = 100.
Proof.
  split.
  - exact (bias_gradient_is_the_transpose_of_broadcast ZScalar
             pointwise_externals always_succeeds vlTypeFloat slab_output
             slab_data slab_filters slab_biases nullTensor slab_filters
             slab_biases unit_stride example_store vlSuccess
             slab_valid_forward slab_consistent_backward eq_refl eq_refl
             always_succeeds_ok ltac:(cbn; lia)).
  - vm_compute. reflexivity.
Defined.

(** The forward call on the example: eight calls when nothing fails. *)
Lemma forward_calls_follow_the_plan_witness :
  length
    (forward_calls ZScalar column_externals vlTypeFloat example_output 3
       example_data 2 example_filters example_biases unit_stride)
  = 8%nat.
Proof.
  exact (proj2 (proj2
           (forward_calls_follow_the_plan ZScalar column_externals
              always_succeeds vlTypeFloat example_output 3 example_data 2
              example_filters example_biases unit_stride example_store
              vlSuccess eq_refl))).
Defined.

(** The backward call on the example: twelve calls when nothing fails. *)
Lemma backward_calls_follow_the_plan_witness :
  length
    (backward_calls ZScalar column_externals vlTypeFloat example_data
       example_filters example_biases example_data example_filters
       example_output unit_stride)
  = 12%nat.
Proof.
  exact (proj2 (proj2
           (backward_calls_follow_the_plan ZScalar column_externals
              always_succeeds vlTypeFloat example_data example_filters
              example_biases example_data example_filters example_output
              unit_stride example_store vlSuccess))).
Defined.

(** The forward call on the example when the unfold of the second image
    fails: the second output position of the first image holds
    [3 * 5 + 2 * (2 * 1 + 3 * 2) + 10]. *)
Lemma completed_images_survive_a_failure_witness :
  st_store ZScalar
    (fst (run ZScalar
            (nnconv3d_forward_blas ZScalar column_externals
               (fails_at 5 ComputeError) vlTypeFloat example_output 3
               example_data 2 example_filters example_biases unit_stride)
            (initial ZScalar example_store vlSuccess)))
    BOutput 1
  = 41.
Proof.
  exact (completed_images_survive_a_failure ZScalar column_externals
           (fails_at 5 ComputeError) vlTypeFloat example_output 3
           example_data 2 example_filters example_biases unit_stride
           example_store vlSuccess 1 example_valid_forward
           ltac:(cbn; lia) (fails_at_later 5 ComputeError)
           0 1 0 ltac:(cbn; lia) ltac:(cbn; lia) ltac:(cbn; lia)).
Defined.

(** The backward call on the example that asks for the input and the bias
    gradient: with the data zeroed, the input gradient is the same [10]. *)
Lemma backward_reads_only_what_the_request_needs_witness :
  st_store ZScalar
    (fst (run ZScalar
            (nnconv3d_backward_blas ZScalar column_externals always_succeeds
               vlTypeFloat example_data nullTensor example_biases
               example_data example_filters example_output unit_stride)
            (initial ZScalar example_store_without_data vlSuccess)))
    BDerData 4
  = st_store ZScalar
      (fst (run ZScalar
              (nnconv3d_backward_blas ZScalar column_externals
                 always_succeeds vlTypeFloat example_data nullTensor
                 example_biases example_data example_filters example_output
                 unit_stride)
              (initial ZScalar example_store vlSuccess)))
      BDerData 4
  /\ example_store_without_data BData 4 <> example_store BData 4.
Proof.
  split.
  - apply (backward_reads_only_what_the_request_needs ZScalar
             column_externals always_succeeds vlTypeFloat example_data
             nullTensor example_biases example_data example_filters
             example_output unit_stride example_store
             example_store_without_data vlSuccess BData
             example_consistent_backward_data).
    + left. split; reflexivity.
    + intros b a Hb. destruct b; try reflexivity. contradiction Hb.
      reflexivity.
    + discriminate.
  - discriminate.
Defined.

Lemma example_first_image_kept (a : Z) :
  0 <= a < 3 -> example_store_first_image BData a = example_store BData a.
Proof.
  intros H. cbn. destruct (Z.ltb_spec a 3); [reflexivity|lia].
Defined.

(** The forward call on the example: with the second image of the data
    zeroed, the first image of the output is the same. *)
Lemma forward_images_are_independent_witness :
  st_store ZScalar
    (fst (run ZScalar
            (nnconv3d_forward_blas ZScalar column_externals always_succeeds
               vlTypeFloat example_output 3 example_data 2 example_filters
               example_biases unit_stride)
            (initial ZScalar example_store_first_image vlSuccess)))
    BOutput 1
  = st_store ZScalar
      (fst (run ZScalar
              (nnconv3d_forward_blas ZScalar column_externals always_succeeds
                 vlTypeFloat example_output 3 example_data 2 example_filters
                 example_biases unit_stride)
              (initial ZScalar example_store vlSuccess)))
      BOutput 1
  /\ example_store_first_image BData 4 <> example_store BData 4.
Proof.
  split.
  - apply (forward_images_are_independent ZScalar column_externals
             always_succeeds vlTypeFloat example_output 3 example_data 2
             example_filters example_biases unit_stride example_store
             example_store_first_image vlSuccess vlSuccess 0
             example_valid_forward always_succeeds_ok example_patches_inside
             ltac:(cbn; lia)
             example_first_image_kept
             (fun a _ => eq_refl) (fun a => eq_refl) (fun a => eq_refl)
             1 0 ltac:(cbn; lia) ltac:(cbn; lia)).
  - discriminate.
Defined.

(** The forward call on the example without a bias, when the ones vector
    cannot be acquired. *)
Lemma forward_needs_the_ones_vector_witness :
  snd (run ZScalar
         (nnconv3d_forward_blas ZScalar column_externals
            (fails_at 1 OutOfMemory) vlTypeFloat example_output 3
            example_data 2 example_filters nullTensor unit_stride)
         (initial ZScalar example_store vlSuccess))
  = Returned (Some OutOfMemory).
Proof.
  exact (proj1 (forward_needs_the_ones_vector ZScalar column_externals
                  (fails_at 1 OutOfMemory) vlTypeFloat example_output 3
                  example_data 2 example_filters nullTensor unit_stride
                  example_store vlSuccess eq_refl eq_refl
                  ltac:(discriminate))).
Defined.
